(** * SSD1306 OLED driver (pico-ssd1306): shallow embedding of [ssd1306.c]

    The driver keeps a page-packed frame buffer in RAM and talks to the
    controller over a blocking I2C transport.  The embedding below follows
    [src/ssd1306.c] function by function:

    - C integers are [Z] with the wrap-around of their type written out
      ([u8], [u16], [i16]); target is the RP2040 (32-bit [int]/[size_t]);
    - the heap block returned by [malloc] is a [list Z]; [dev->buff] points
      one byte into it, so [dev->buff[i]] is element [i + 1] of the block and
      [dev->buff[-1]] is the I2C control byte slot;
    - functions that touch memory return an [option]: [None] stands for a run
      that has no result in C, either an access outside the block (undefined
      behaviour) or a loop that never leaves;
    - [while] loops and loops over a signed counter carry a fuel of 2^16
      rounds, more than any terminating run of a 16-bit counter needs;
    - the I2C bus is the list of frames handed to [i2c_write_blocking]. *)

From Stdlib Require Import ZArith Lia Bool.
From stdpp Require Import base option list.

Local Open Scope Z_scope.

(** ** Machine integers *)

Definition u8 (z : Z) : Z := z mod 2 ^ 8.
Definition u16 (z : Z) : Z := z mod 2 ^ 16.
Definition i16 (z : Z) : Z := (z + 2 ^ 15) mod 2 ^ 16 - 2 ^ 15.

(** [~v] on a 32-bit [unsigned int]. *)
Definition not32 (v : Z) : Z := Z.lxor (2 ^ 32 - 1) v.

Definition INT_MAX : Z := 2 ^ 31 - 1.

Definition is_u8 (z : Z) : Prop := 0 <= z < 2 ^ 8.
Definition is_u16 (z : Z) : Prop := 0 <= z < 2 ^ 16.
Definition is_i16 (z : Z) : Prop := - 2 ^ 15 <= z < 2 ^ 15.

(** ** Opcodes (file-scope constants of [ssd1306.c]) *)

Definition SET_CONTRAST : Z := 0x81.
Definition SET_ENTIRE_ON : Z := 0xA4.
Definition SET_NORM_INV : Z := 0xA6.
Definition SET_DISP : Z := 0xAE.
Definition SET_MEM_ADDR : Z := 0x20.
Definition SET_COL_ADDR : Z := 0x21.
Definition SET_PAGE_ADDR : Z := 0x22.
Definition SET_DISP_START_LINE : Z := 0x40.
Definition SET_SEG_REMAP : Z := 0xA0.
Definition SET_MUX_RATIO : Z := 0xA8.
Definition SET_COM_OUT_DIR : Z := 0xC0.
Definition SET_DISP_OFFSET : Z := 0xD3.
Definition SET_COM_PIN_CFG : Z := 0xDA.
Definition SET_DISP_CLK_DIV : Z := 0xD5.
Definition SET_PRECHARGE : Z := 0xD9.
Definition SET_VCOM_DESEL : Z := 0xDB.
Definition SET_CHARGE_PUMP : Z := 0x8D.

(** ** Data model *)

(** [ssd1306_t].  [buff = None] is the NULL pointer; [buff = Some blk] is a
    pointer to [blk + 1] where [blk] is the live heap block. *)
Record ssd1306_t : Type := Ssd1306 {
  width : Z;
  height : Z;
  pages : Z;
  i2c_addr : Z;
  i2c_inst : Z;
  external_vcc : bool;
  buff : option (list Z);
  buff_size : Z
}.

Definition set_buff (dev : ssd1306_t) (b : option (list Z)) : ssd1306_t :=
  Ssd1306 (width dev) (height dev) (pages dev) (i2c_addr dev) (i2c_inst dev)
          (external_vcc dev) b (buff_size dev).

(** [ssd1306_image_t] *)
Record ssd1306_image_t : Type := Ssd1306Image {
  img_width : Z;
  img_height : Z;
  img_length : Z;
  img_data : list Z
}.

(** One call of [i2c_write_blocking]: the bytes put on the wire. *)
Record i2c_frame : Type := I2cFrame {
  fr_inst : Z;
  fr_addr : Z;
  fr_bytes : list Z;
  fr_nostop : bool
}.

Definition i2c_bus : Type := list i2c_frame.

(** [dev->buff[idx]] as an rvalue. *)
Definition buff_read (dev : ssd1306_t) (idx : Z) : option Z :=
  blk ← buff dev;
  if idx + 1 <? 0 then None else blk !! Z.to_nat (idx + 1).

(** [dev->buff[idx] = v]. *)
Definition buff_write (dev : ssd1306_t) (idx v : Z) : option ssd1306_t :=
  blk ← buff dev;
  if (0 <=? idx + 1) && (idx + 1 <? Z.of_nat (length blk))
  then Some (set_buff dev (Some (<[Z.to_nat (idx + 1) := v]> blk)))
  else None.

(** [for] loops whose counter runs over a known range. *)
Fixpoint for_each {S A : Type} (l : list A) (body : A → S → option S) (s : S)
  : option S :=
  match l with
  | [] => Some s
  | a :: l' => s' ← body a s; for_each l' body s'
  end.

(** Iterations after which a loop over a 16-bit counter has either left or
    returned to a state it was in before. *)
Definition loop_fuel : nat := Z.to_nat (2 ^ 16).

(** ** Transport *)

Definition i2c_write_blocking (bus : i2c_bus) (inst addr : Z) (src : list Z)
    (len : Z) (nostop : bool) : i2c_bus :=
  bus ++ [I2cFrame inst addr (take (Z.to_nat len) src) nostop].

Definition write_command (dev : ssd1306_t) (cmd : Z) (bus : i2c_bus) : i2c_bus :=
  let buffer := [0x00; cmd] in
  i2c_write_blocking bus (i2c_inst dev) (i2c_addr dev) buffer 2 false.

Definition write_commands (dev : ssd1306_t) (cmds : list Z) (bus : i2c_bus)
  : i2c_bus :=
  fold_left (λ b c, write_command dev c b) cmds bus.

Definition init_commands (dev : ssd1306_t) : list Z :=
  [ SET_DISP;
    SET_MUX_RATIO; u8 (height dev - 1);
    SET_DISP_OFFSET; 0x00;
    SET_DISP_START_LINE;
    Z.lor SET_SEG_REMAP 0x01;
    Z.lor SET_COM_OUT_DIR 0x08;
    SET_COM_PIN_CFG; (if 2 * height dev <? width dev then 0x02 else 0x12);
    SET_CONTRAST; 0xFF;
    SET_ENTIRE_ON;
    SET_NORM_INV;
    SET_DISP_CLK_DIV; 0x80;
    SET_CHARGE_PUMP; (if external_vcc dev then 0x10 else 0x14);
    SET_PRECHARGE; (if external_vcc dev then 0x22 else 0xF1);
    SET_VCOM_DESEL; 0x30;
    SET_MEM_ADDR; 0x00;
    Z.lor SET_DISP 0x01 ].

Definition run_init_commands (dev : ssd1306_t) (bus : i2c_bus) : i2c_bus :=
  write_commands dev (init_commands dev) bus.

(** ** Pixel primitive *)

Definition draw_pixel (dev : ssd1306_t) (x y : Z) (color : bool)
  : option ssd1306_t :=
  if (x <? width dev) && (y <? height dev) then
    let idx := x + width dev * Z.shiftr y 3 in
    byte ← buff_read dev idx;
    if color
    then buff_write dev idx (u8 (Z.lor byte (Z.shiftl 0x01 (Z.land y 7))))
    else buff_write dev idx (u8 (Z.land byte (not32 (Z.shiftl 0x01 (Z.land y 7)))))
  else Some dev.

(** ** Horizontal scroll commands *)

Definition ssd1306_scroll_horiz_stop (dev : ssd1306_t) (bus : i2c_bus) : i2c_bus :=
  write_command dev 0x2E bus.

Definition ssd1306_scroll_horiz (dev : ssd1306_t) (right : bool)
    (start_page end_page speed : Z) (bus : i2c_bus) : i2c_bus :=
  let bus := ssd1306_scroll_horiz_stop dev bus in
  let bus := write_command dev (if right then 0x26 else 0x27) bus in
  let bus := write_command dev 0x00 bus in
  let bus := write_command dev (Z.land start_page 0x07) bus in
  let bus := write_command dev (Z.land speed 0x00) bus in
  let bus := write_command dev (Z.land end_page 0x07) bus in
  let bus := write_command dev 0x00 bus in
  let bus := write_command dev 0xFF bus in
  write_command dev 0x2F bus.

(** ** Life cycle and protocol calls *)

(** [malloc] is an oracle: for a requested size it yields NULL or a fresh
    block of that many bytes with indeterminate contents. *)
Definition allocator : Type := Z → option (list Z).

Definition malloc_sound (malloc : allocator) : Prop :=
  ∀ n blk, malloc n = Some blk →
    Z.of_nat (length blk) = n ∧ Forall is_u8 blk.

Definition ssd1306_init (malloc : allocator) (dev : ssd1306_t)
    (width height i2c_addr i2c_inst : Z) (external_vcc : bool) (bus : i2c_bus)
  : bool * ssd1306_t * i2c_bus :=
  let pages := height / 8 in
  let buff_size := width * pages in
  let dev := Ssd1306 width height pages i2c_addr i2c_inst external_vcc
                     (buff dev) buff_size in
  match malloc (buff_size + 1) with
  | None => (false, set_buff dev None, bus)
  | Some blk =>
      let dev := set_buff dev (Some blk) in
      let bus := run_init_commands dev bus in
      let bus := ssd1306_scroll_horiz_stop dev bus in
      (true, dev, bus)
  end.

(** [free(dev->buff - 1); dev->buff = NULL;] when [buff] is not NULL. *)
Definition ssd1306_deinit (dev : ssd1306_t) : ssd1306_t :=
  match buff dev with
  | Some _ => set_buff dev None
  | None => dev
  end.

Definition ssd1306_power_off (dev : ssd1306_t) (bus : i2c_bus) : i2c_bus :=
  write_command dev SET_DISP bus.

Definition ssd1306_power_on (dev : ssd1306_t) (bus : i2c_bus) : i2c_bus :=
  write_command dev (Z.lor SET_DISP 0x01) bus.

(** [memset(dev->buff, 0, dev->buff_size)] *)
Definition ssd1306_clear (dev : ssd1306_t) : option ssd1306_t :=
  blk ← buff dev;
  if (0 <=? buff_size dev) && (1 + buff_size dev <=? Z.of_nat (length blk))
  then Some (set_buff dev (Some (take 1 blk
                                 ++ replicate (Z.to_nat (buff_size dev)) 0
                                 ++ drop (Z.to_nat (1 + buff_size dev)) blk)))
  else None.

Definition ssd1306_invert (dev : ssd1306_t) (inv : Z) (bus : i2c_bus) : i2c_bus :=
  write_command dev (Z.lor SET_NORM_INV (Z.land inv 1)) bus.

Definition ssd1306_show (dev : ssd1306_t) (bus : i2c_bus)
  : option (ssd1306_t * i2c_bus) :=
  let data := [ SET_COL_ADDR; 0x00; u8 (width dev - 1);
                SET_PAGE_ADDR; 0x00; u8 (pages dev - 1) ] in
  let bus := write_commands dev data bus in
  dev ← buff_write dev (-1) 0x40;
  blk ← buff dev;
  if (0 <=? buff_size dev) && (buff_size dev + 1 <=? Z.of_nat (length blk))
  then Some (dev, i2c_write_blocking bus (i2c_inst dev) (i2c_addr dev) blk
                                     (buff_size dev + 1) false)
  else None.

Definition ssd1306_contrast (p : ssd1306_t) (val : Z) (bus : i2c_bus) : i2c_bus :=
  let bus := write_command p SET_CONTRAST bus in
  write_command p val bus.

Definition ssd1306_draw_pixel (dev : ssd1306_t) (x y : Z) : option ssd1306_t :=
  draw_pixel dev x y true.

Definition ssd1306_clear_pixel (dev : ssd1306_t) (x y : Z) : option ssd1306_t :=
  draw_pixel dev x y false.

(** ** Rasterizer: line *)

(** Body of [while (x1 != x2)] in the shallow branch. *)
Fixpoint line_loop_x (fuel : nat) (dx dy step_x step_y x2 : Z)
    (dev : ssd1306_t) (x1 y1 D : Z) : option ssd1306_t :=
  match fuel with
  | O => None
  | S fuel' =>
      if x1 =? x2 then Some dev
      else
        let x1 := u16 (x1 + step_x) in
        let '(y1, D) :=
          if 0 <=? D then (u16 (y1 + step_y), i16 (D - 2 * dx)) else (y1, D) in
        let D := i16 (D + 2 * dy) in
        dev' ← draw_pixel dev x1 y1 true;
        line_loop_x fuel' dx dy step_x step_y x2 dev' x1 y1 D
  end.

(** Body of [while (y1 != y2)] in the steep branch. *)
Fixpoint line_loop_y (fuel : nat) (dx dy step_x step_y y2 : Z)
    (dev : ssd1306_t) (x1 y1 D : Z) : option ssd1306_t :=
  match fuel with
  | O => None
  | S fuel' =>
      if y1 =? y2 then Some dev
      else
        let y1 := u16 (y1 + step_y) in
        let '(x1, D) :=
          if D <=? 0 then (u16 (x1 + step_x), i16 (D + 2 * dy)) else (x1, D) in
        let D := i16 (D - 2 * dx) in
        dev' ← draw_pixel dev x1 y1 true;
        line_loop_y fuel' dx dy step_x step_y y2 dev' x1 y1 D
  end.

(** [dx = x2 - x1; if (dx < 0) { dx = -dx; step = -step; }] on [int16_t]. *)
Definition line_delta (a b : Z) : Z * Z :=
  let d := i16 (b - a) in
  if d <? 0 then (i16 (- d), i16 (- 1)) else (d, 1).

Definition ssd1306_draw_line (dev : ssd1306_t) (x1 y1 x2 y2 : Z)
  : option ssd1306_t :=
  let '(dx, step_x) := line_delta x1 x2 in
  let '(dy, step_y) := line_delta y1 y2 in
  dev ← draw_pixel dev x1 y1 true;
  if dy <? dx
  then line_loop_x loop_fuel dx dy step_x step_y x2 dev x1 y1 (i16 (dy * 2 - dx))
  else line_loop_y loop_fuel dx dy step_x step_y y2 dev x1 y1 (i16 (dy - dx * 2)).

(** ** Rasterizer: rectangle outline *)

(** [for (int16_t i = x; i < x + (int16_t) width; i++)]: top and bottom edge. *)
Fixpoint rect_loop_h (fuel : nat) (x y width height : Z) (dev : ssd1306_t)
    (i : Z) : option ssd1306_t :=
  match fuel with
  | O => None
  | S fuel' =>
      if i <? x + i16 width then
        dev ← draw_pixel dev (u16 i) (u16 y) true;
        dev ← draw_pixel dev (u16 i) (u16 (y + height - 1)) true;
        rect_loop_h fuel' x y width height dev (i16 (i + 1))
      else Some dev
  end.

(** [for (int16_t i = y; i < y + (int16_t) height; i++)]: left and right edge. *)
Fixpoint rect_loop_v (fuel : nat) (x y width height : Z) (dev : ssd1306_t)
    (i : Z) : option ssd1306_t :=
  match fuel with
  | O => None
  | S fuel' =>
      if i <? y + i16 height then
        dev ← draw_pixel dev (u16 x) (u16 i) true;
        dev ← draw_pixel dev (u16 (x + width - 1)) (u16 i) true;
        rect_loop_v fuel' x y width height dev (i16 (i + 1))
      else Some dev
  end.

Definition ssd1306_draw_rect (dev : ssd1306_t) (x y width height : Z)
  : option ssd1306_t :=
  dev ← rect_loop_h loop_fuel x y width height dev x;
  rect_loop_v loop_fuel x y width height dev y.

(** ** Image blit *)

(** Inner statement of [ssd1306_draw_image] for source pixel [(i, j)]. *)
Definition image_pixel (x y : Z) (image : ssd1306_image_t) (j i : Z)
    (dev : ssd1306_t) : option ssd1306_t :=
  let pos := i + j * img_width image in
  if INT_MAX <? pos then None
  else
    let byte_index := pos / 8 in
    let bit_index := u8 (7 - i mod 8) in
    byte ← img_data image !! Z.to_nat byte_index;
    let pixel_on := negb (Z.land (Z.shiftr byte bit_index) 0x01 =? 0) in
    draw_pixel dev (u16 (x + i)) (u16 (y + j)) pixel_on.

Definition ssd1306_draw_image (dev : ssd1306_t) (x y : Z)
    (image : ssd1306_image_t) : option ssd1306_t :=
  for_each (seqZ 0 (img_height image))
    (λ j dev, for_each (seqZ 0 (img_width image)) (image_pixel x y image j) dev)
    dev.

(** ** Vertical scroll *)

(** One page of the [down] loop; the state is the device and [carry]. *)
Definition scroll_down_page (width col page : Z) (st : ssd1306_t * Z)
  : option (ssd1306_t * Z) :=
  let '(dev, carry) := st in
  let idx := u16 (page * width + col) in
  byte ← buff_read dev idx;
  let new_carry := if Z.land byte 0x80 =? 0 then 0 else 0x01 in
  dev ← buff_write dev idx (u8 (Z.lor (Z.shiftl byte 1) carry));
  Some (dev, new_carry).

(** One page of the [up] loop. *)
Definition scroll_up_page (width col page : Z) (st : ssd1306_t * Z)
  : option (ssd1306_t * Z) :=
  let '(dev, carry) := st in
  let idx := u16 (u16 page * width + col) in
  byte ← buff_read dev idx;
  let new_carry := if Z.land byte 0x01 =? 0 then 0 else 0x80 in
  dev ← buff_write dev idx (u8 (Z.lor (Z.shiftr byte 1) carry));
  Some (dev, new_carry).

(** Body of the column loop of [ssd1306_scroll_row_vert]. *)
Definition scroll_column (down : bool) (width pages col : Z) (dev : ssd1306_t)
  : option ssd1306_t :=
  let carry := 0 in
  if down then
    '(dev, carry) ← for_each (seqZ 0 pages) (scroll_down_page width col)
                             (dev, carry);
    b ← buff_read dev col;
    buff_write dev col (u8 (Z.lor (Z.land b (not32 0x01)) carry))
  else
    '(dev, carry) ← for_each (reverse (seqZ 0 pages)) (scroll_up_page width col)
                             (dev, carry);
    let last_idx := u16 ((pages - 1) * width + col) in
    b ← buff_read dev last_idx;
    buff_write dev last_idx (u8 (Z.lor (Z.land b (not32 0x80)) carry)).

Definition ssd1306_scroll_row_vert (dev : ssd1306_t) (down : bool)
  : option ssd1306_t :=
  let width := width dev in
  let pages := height dev / 8 in
  for_each (seqZ 0 width) (scroll_column down width pages) dev.

(** ** Observations used in the statements *)

(** The heap block behind [dev->buff] (empty for NULL). *)
Definition block (dev : ssd1306_t) : list Z := default [] (buff dev).

(** The pixel bytes [dev->buff[0 .. buff_size - 1]]. *)
Definition frame_buffer (dev : ssd1306_t) : list Z :=
  take (Z.to_nat (buff_size dev)) (drop 1 (block dev)).

(** A device as [ssd1306_init] leaves it for a panel whose height is a
    multiple of 8: fields within their C types, geometry consistent, the
    block live, of size [buff_size + 1] and filled with bytes. *)
Record wf_dev (dev : ssd1306_t) : Prop := WfDev {
  wf_width : is_u16 (width dev);
  wf_height : is_u16 (height dev);
  wf_pages : height dev = 8 * pages dev;
  wf_size : buff_size dev = width dev * pages dev;
  wf_live : buff dev = Some (block dev);
  wf_len : Z.of_nat (length (block dev)) = buff_size dev + 1;
  wf_bytes : Forall is_u8 (block dev)
}.

(** Pixel query, the inverse of [draw_pixel]: bit [y mod 8] of byte
    [x + W * (y / 8)]; [None] outside the panel. *)
Definition get_pixel (dev : ssd1306_t) (x y : Z) : option bool :=
  if (0 <=? x) && (x <? width dev) && (0 <=? y) && (y <? height dev) then
    byte ← buff_read dev (x + width dev * (y / 8));
    Some (Z.testbit byte (y mod 8))
  else None.

(** Bit of source pixel [(i, j)] in the MSB-first row-major image layout. *)
Definition image_bit (image : ssd1306_image_t) (i j : Z) : option bool :=
  byte ← img_data image !! Z.to_nat ((i + j * img_width image) / 8);
  Some (Z.testbit byte (7 - i mod 8)).

(** Number of set bits of a byte and of the whole frame buffer. *)
Definition byte_bits (b : Z) : Z :=
  foldr (λ k acc, Z.b2z (Z.testbit b k) + acc) 0 (seqZ 0 8).

Definition sum_bits (l : list Z) : Z := foldr (λ b acc, byte_bits b + acc) 0 l.

Definition set_bit_count (dev : ssd1306_t) : Z := sum_bits (frame_buffer dev).

(** [n] successive calls of [ssd1306_scroll_row_vert]. *)
Fixpoint scroll_n (n : nat) (down : bool) (dev : ssd1306_t) : option ssd1306_t :=
  match n with
  | O => Some dev
  | S n' => dev' ← ssd1306_scroll_row_vert dev down; scroll_n n' down dev'
  end.

(** [draw_pixel(dev, x, y, 1)] for each point of a list, in order. *)
Definition plot_all (pts : list (Z * Z)) (dev : ssd1306_t) : option ssd1306_t :=
  for_each pts (λ p dev, draw_pixel dev p.1 p.2 true) dev.

(** The coordinates [ssd1306_draw_line] hands to [draw_pixel], in call order:
    the same loops with the device left out. *)
Fixpoint line_pts_x (fuel : nat) (dx dy step_x step_y x2 x1 y1 D : Z)
  : option (list (Z * Z)) :=
  match fuel with
  | O => None
  | S fuel' =>
      if x1 =? x2 then Some []
      else
        let x1 := u16 (x1 + step_x) in
        let '(y1, D) :=
          if 0 <=? D then (u16 (y1 + step_y), i16 (D - 2 * dx)) else (y1, D) in
        let D := i16 (D + 2 * dy) in
        pts ← line_pts_x fuel' dx dy step_x step_y x2 x1 y1 D;
        Some ((x1, y1) :: pts)
  end.

Fixpoint line_pts_y (fuel : nat) (dx dy step_x step_y y2 x1 y1 D : Z)
  : option (list (Z * Z)) :=
  match fuel with
  | O => None
  | S fuel' =>
      if y1 =? y2 then Some []
      else
        let y1 := u16 (y1 + step_y) in
        let '(x1, D) :=
          if D <=? 0 then (u16 (x1 + step_x), i16 (D + 2 * dy)) else (x1, D) in
        let D := i16 (D - 2 * dx) in
        pts ← line_pts_y fuel' dx dy step_x step_y y2 x1 y1 D;
        Some ((x1, y1) :: pts)
  end.

Definition draw_line_pts (x1 y1 x2 y2 : Z) : option (list (Z * Z)) :=
  let '(dx, step_x) := line_delta x1 x2 in
  let '(dy, step_y) := line_delta y1 y2 in
  pts ← (if dy <? dx
         then line_pts_x loop_fuel dx dy step_x step_y x2 x1 y1 (i16 (dy * 2 - dx))
         else line_pts_y loop_fuel dx dy step_x step_y y2 x1 y1 (i16 (dy - dx * 2)));
  Some ((x1, y1) :: pts).

(** The coordinates [ssd1306_draw_rect] hands to [draw_pixel]. *)
Fixpoint rect_pts_h (fuel : nat) (x y width height i : Z)
  : option (list (Z * Z)) :=
  match fuel with
  | O => None
  | S fuel' =>
      if i <? x + i16 width then
        pts ← rect_pts_h fuel' x y width height (i16 (i + 1));
        Some ((u16 i, u16 y) :: (u16 i, u16 (y + height - 1)) :: pts)
      else Some []
  end.

Fixpoint rect_pts_v (fuel : nat) (x y width height i : Z)
  : option (list (Z * Z)) :=
  match fuel with
  | O => None
  | S fuel' =>
      if i <? y + i16 height then
        pts ← rect_pts_v fuel' x y width height (i16 (i + 1));
        Some ((u16 x, u16 i) :: (u16 (x + width - 1), u16 i) :: pts)
      else Some []
  end.

Definition draw_rect_pts (x y width height : Z) : option (list (Z * Z)) :=
  ph ← rect_pts_h loop_fuel x y width height x;
  pv ← rect_pts_v loop_fuel x y width height y;
  Some (ph ++ pv).

(** A plotted set is one horizontal run: a single row, consecutive columns. *)
Definition horizontal_run (pts : list (Z * Z)) : Prop :=
  ∃ row x0 n, ∀ p, p ∈ pts ↔ p.2 = row ∧ x0 <= p.1 < x0 + n.

(** The frame [write_command] puts on the bus for opcode [cmd]. *)
Definition cmd_frame (dev : ssd1306_t) (cmd : Z) : i2c_frame :=
  I2cFrame (i2c_inst dev) (i2c_addr dev) [0x00; cmd] false.

(** Frames of one [ssd1306_scroll_horiz] call after the leading stop. *)
Definition scroll_start_frames (dev : ssd1306_t) (right : bool)
    (start_page end_page : Z) : list i2c_frame :=
  cmd_frame dev (if right then 0x26 else 0x27)
  :: map (cmd_frame dev)
       [0x00; Z.land start_page 0x07; 0x00; Z.land end_page 0x07; 0x00; 0xFF; 0x2F].

(** Executable check of [wf_dev]. *)
Definition is_u8b (z : Z) : bool := (0 <=? z) && (z <? 2 ^ 8).
Definition is_u16b (z : Z) : bool := (0 <=? z) && (z <? 2 ^ 16).

Definition wf_devb (dev : ssd1306_t) : bool :=
  is_u16b (width dev) && is_u16b (height dev)
  && (height dev =? 8 * pages dev)
  && (buff_size dev =? width dev * pages dev)
  && bool_decide (is_Some (buff dev))
  && (Z.of_nat (length (block dev)) =? buff_size dev + 1)
  && forallb is_u8b (block dev).

(** In-panel pixel already holds the bit of source pixel [(i, j)]. *)
Definition pixel_matches (dev : ssd1306_t) (image : ssd1306_image_t) (i j : Z)
  : Prop :=
  ∃ bit, image_bit image i j = Some bit ∧ get_pixel dev i j = Some bit.

(** The two points plotted per iteration of each [ssd1306_draw_rect] loop. *)
Definition rect_row_pair (y height i : Z) : list (Z * Z) :=
  [(u16 i, u16 y); (u16 i, u16 (y + height - 1))].

Definition rect_col_pair (x width i : Z) : list (Z * Z) :=
  [(u16 x, u16 i); (u16 (x + width - 1), u16 i)].

(** Closed form of the line rasteriser.  [half_up k a b] is [k * a / b]
    rounded to nearest with ties upwards; [rem_up] is the matching remainder,
    the error accumulator up to an offset. *)
Definition half_up (k a b : Z) : Z := (2 * k * a + b) / (2 * b).
Definition rem_up (k a b : Z) : Z := (2 * k * a + b) mod (2 * b).

(** [k]-th point of the shallow branch (x is the fast axis). *)
Definition shallow_pt (x1 y1 step_x step_y dx dy k : Z) : Z * Z :=
  (x1 + step_x * k, y1 + step_y * half_up k dy dx).

(** [k]-th point of the steep branch (y is the fast axis). *)
Definition steep_pt (x1 y1 step_x step_y dx dy k : Z) : Z * Z :=
  (x1 + step_x * half_up k dx dy, y1 + step_y * k).

(** Point reflection through the midpoint of the segment. *)
Definition reflect (x1 y1 x2 y2 : Z) (p : Z * Z) : Z * Z :=
  (x1 + x2 - p.1, y1 + y2 - p.2).

(** Byte of the frame buffer at linear index [idx], and at page [q],
    column [c]. *)
Definition byte_at (dev : ssd1306_t) (idx : Z) : Z := default 0 (buff_read dev idx).

Definition byte2 (dev : ssd1306_t) (q c : Z) : Z := byte_at dev (q * width dev + c).

(** Everything of the device but the heap block. *)
Definition shape (dev : ssd1306_t) : ssd1306_t := set_buff dev None.

(** The byte expressions of [ssd1306_scroll_row_vert]. *)
Definition carry_down (byte : Z) : Z := if Z.land byte 0x80 =? 0 then 0 else 0x01.
Definition shift_down (byte carry : Z) : Z := u8 (Z.lor (Z.shiftl byte 1) carry).
Definition carry_up (byte : Z) : Z := if Z.land byte 0x01 =? 0 then 0 else 0x80.
Definition shift_up (byte carry : Z) : Z := u8 (Z.lor (Z.shiftr byte 1) carry).

(** Neighbouring pages on the torus of [P] pages. *)
Definition prev_page (P q : Z) : Z := if q =? 0 then P - 1 else q - 1.
Definition next_page (P q : Z) : Z := if q + 1 =? P then 0 else q + 1.

(** A geometry on which the 16-bit index arithmetic of the scroll loops is
    exact: at least one page, at most 2^16 pixel bytes. *)
Definition scrollable (dev : ssd1306_t) : Prop :=
  0 < pages dev ∧ buff_size dev <= 2 ^ 16.

(** [d] is reached from [d0] by stores into the pixel area: still well
    formed, same fields, same control byte slot. *)
Definition evolved (d0 d : ssd1306_t) : Prop :=
  wf_dev d ∧ shape d = shape d0 ∧ byte_at d (-1) = byte_at d0 (-1).

(** Byte at page [q], column [c] after one vertical scroll of [d]. *)
Definition scrolled_byte (down : bool) (d : ssd1306_t) (q c : Z) : Z :=
  if down
  then shift_down (byte2 d q c) (carry_down (byte2 d (prev_page (pages d) q) c))
  else shift_up (byte2 d q c) (carry_up (byte2 d (next_page (pages d) q) c)).

(** Row a pixel of row [y] comes from under one vertical scroll of a panel of
    height [H]: the row above for [down], the row below for [up], wrapping. *)
Definition source_row (down : bool) (H y : Z) : Z :=
  if down then (y - 1) mod H else (y + 1) mod H.

(** ** Filled rectangles, text *)

(** [fill_rect]: the origin is clamped at 0, the far corner is computed in
    [uint16_t] and clamped at the panel size. *)
Definition fill_rect (dev : ssd1306_t) (x_in y_in w h : Z) (color : bool)
  : option ssd1306_t :=
  let x := if x_in <? 0 then 0 else x_in in
  let y := if y_in <? 0 then 0 else y_in in
  let x_end := u16 (x + w) in
  let y_end := u16 (y + h) in
  let x_end := if width dev <? x_end then width dev else x_end in
  let y_end := if height dev <? y_end then height dev else y_end in
  for_each (seqZ x (x_end - x))
    (λ i dev, for_each (seqZ y (y_end - y)) (λ j dev, draw_pixel dev i j color) dev)
    dev.

Definition ssd1306_fill_rect (dev : ssd1306_t) (x y w h : Z)
  : option ssd1306_t :=
  fill_rect dev x y w h true.

Definition ssd1306_clear_rect (dev : ssd1306_t) (x y w h : Z)
  : option ssd1306_t :=
  fill_rect dev x y w h false.

(** [ssd1306_font_t] *)
Record ssd1306_font_t : Type := Ssd1306Font {
  font_data : list Z;
  font_width : Z;
  font_height : Z;
  font_first : Z;
  font_count : Z
}.

(** Inner loop of [draw_char]: one pixel per row, [line] shifted along. *)
Definition draw_char_row (x y i j : Z) (st : ssd1306_t * Z)
  : option (ssd1306_t * Z) :=
  let '(dev, line) := st in
  dev ← draw_pixel dev (u16 (x + i)) (u16 (y + j)) (negb (Z.land line 0x01 =? 0));
  Some (dev, u8 (Z.shiftr line 1)).

(** [draw_char]; [chr] is the byte the pointer [chr] addresses, unsigned as
    [char] is on the target. *)
Definition draw_char (dev : ssd1306_t) (x y chr : Z) (font : ssd1306_font_t)
  : option ssd1306_t :=
  for_each (seqZ 0 (font_width font))
    (λ i dev,
       let idx := (chr - font_first font) * font_width font + i in
       if idx <? 0 then None
       else
         line ← font_data font !! Z.to_nat idx;
         '(dev, _) ← for_each (seqZ 0 (font_height font)) (draw_char_row x y i)
                              (dev, line);
         Some dev)
    dev.

(** The do-while loop of [ssd1306_draw_str], left when the byte after the
    current one is NUL.  [rest] is the character array from [str] on; running
    off its end is a read outside the array.  [x] is an [int] and must not
    overflow. *)
Fixpoint draw_str_loop (rest : list Z) (font : ssd1306_font_t) (last : Z)
    (dev : ssd1306_t) (x y : Z) : option ssd1306_t :=
  match rest with
  | [] => None
  | c :: rest' =>
      let ch := u8 c in
      dev' ← (if (ch <? font_first font) || (last <=? ch) then Some dev
              else draw_char dev (u16 x) (u16 y) ch font);
      if INT_MAX <? x + font_width font then None
      else
        let x := x + font_width font in
        match rest' with
        | [] => None
        | c' :: _ =>
            if c' =? 0 then Some dev'
            else draw_str_loop rest' font last dev' x y
        end
  end.

Definition ssd1306_draw_str (dev : ssd1306_t) (x y : Z) (str : list Z)
    (font : ssd1306_font_t) : option ssd1306_t :=
  let last := u8 (font_first font + font_count font) in
  draw_str_loop str font last dev x y.

(** State of a device while a grid of cells [(a, b)] is being painted, cell
    [(a, b)] going to pixel [(tx a b, ty a b)] with colour [col a b]: the cells
    already [done] show their colour, the pixels no done cell goes to are as
    they were in [dev]. *)
Definition painting (dev : ssd1306_t) (tx ty : Z → Z → Z) (col : Z → Z → bool)
    (grid done : Z → Z → Prop) (d : ssd1306_t) : Prop :=
  evolved dev d
  ∧ (∀ a b, grid a b → done a b →
       0 <= tx a b < width dev → 0 <= ty a b < height dev →
       get_pixel d (tx a b) (ty a b) = Some (col a b))
  ∧ (∀ px py, 0 <= px < width dev → 0 <= py < height dev →
       (∀ a b, grid a b → done a b → ¬ (tx a b = px ∧ ty a b = py)) →
       get_pixel d px py = get_pixel dev px py).

(** ** Panels beyond the 16-bit index of the scroll loops *)
(** The device [ssd1306_init] builds for [width = 8192], [height = 72]: 9
    pages, 73728 pixel bytes after the control byte slot, held in [blk]. *)
Definition tall_panel (blk : list Z) : ssd1306_t :=
  Ssd1306 8192 72 9 0x3C 0 false (Some blk) 73728.

(** The device [ssd1306_init] builds for [width = 1], [height = 0]: no page,
    no pixel byte, only the control byte slot. *)
Definition flat_panel : ssd1306_t := Ssd1306 1 0 0 0x3C 0 false (Some [0]) 0.

(** Equality of devices as a test, to compare the outcome of a run with an
    expected device by evaluation. *)
Fixpoint bytes_eqb (l1 l2 : list Z) : bool :=
  match l1, l2 with
  | [], [] => true
  | a :: l1', b :: l2' => (a =? b) && bytes_eqb l1' l2'
  | _, _ => false
  end.

Definition dev_eqb (d1 d2 : ssd1306_t) : bool :=
  (width d1 =? width d2) && (height d1 =? height d2) && (pages d1 =? pages d2)
  && (i2c_addr d1 =? i2c_addr d2) && (i2c_inst d1 =? i2c_inst d2)
  && Bool.eqb (external_vcc d1) (external_vcc d2)
  && match buff d1, buff d2 with
     | Some b1, Some b2 => bytes_eqb b1 b2
     | None, None => true
     | _, _ => false
     end
  && (buff_size d1 =? buff_size d2).

Definition returns (r : option ssd1306_t) (d : ssd1306_t) : bool :=
  match r with
  | Some d' => dev_eqb d' d
  | None => false
  end.

(** * Verification *)

(** ** Transport lemmas *)

Lemma write_command_frame dev cmd bus :
  write_command dev cmd bus = bus ++ [cmd_frame dev cmd].
Proof. reflexivity. Qed.

Lemma write_commands_frames dev cmds bus :
  write_commands dev cmds bus = bus ++ map (cmd_frame dev) cmds.
Proof.
  unfold write_commands. revert bus.
  induction cmds as [|c cmds IH]; intros bus; simpl.
  - by rewrite app_nil_r.
  - rewrite IH, write_command_frame, <- app_assoc. reflexivity.
Qed.

Lemma scroll_horiz_frames dev right sp ep speed bus :
  ssd1306_scroll_horiz dev right sp ep speed bus
  = bus ++ cmd_frame dev 0x2E :: scroll_start_frames dev right sp ep.
Proof.
  unfold ssd1306_scroll_horiz, ssd1306_scroll_horiz_stop, scroll_start_frames.
  rewrite !write_command_frame, Z.land_0_r, <- !app_assoc. reflexivity.
Qed.

(** C6: every [ssd1306_scroll_horiz] call appends the stop frame (opcode 0x2E)
    and only then the start opcode (0x26 or 0x27) with its parameters; after two
    calls in a row the bus holds stop, first start sequence, stop, second start
    sequence, so a stop always separates the two starts. *)
Theorem scroll_horiz_stop_before_start dev r1 sp1 ep1 speed1 r2 sp2 ep2 speed2 bus :
  ssd1306_scroll_horiz dev r1 sp1 ep1 speed1 bus
    = bus ++ cmd_frame dev 0x2E :: scroll_start_frames dev r1 sp1 ep1
  ∧ ssd1306_scroll_horiz dev r2 sp2 ep2 speed2
      (ssd1306_scroll_horiz dev r1 sp1 ep1 speed1 bus)
    = bus ++ (cmd_frame dev 0x2E :: scroll_start_frames dev r1 sp1 ep1)
          ++ (cmd_frame dev 0x2E :: scroll_start_frames dev r2 sp2 ep2).
Proof.
  split; [apply scroll_horiz_frames|].
  rewrite !scroll_horiz_frames, <- app_assoc. reflexivity.
Qed.

(** C10: the frames [ssd1306_scroll_horiz] emits do not depend on [speed]:
    two calls that differ only in it leave the same bus, and the interval
    byte (fifth frame of the call, after stop, start, dummy, start page) is
    the command frame for 0. *)
Theorem scroll_horiz_speed_ignored dev right sp ep speed1 speed2 bus :
  ssd1306_scroll_horiz dev right sp ep speed1 bus
    = ssd1306_scroll_horiz dev right sp ep speed2 bus
  ∧ drop (length bus) (ssd1306_scroll_horiz dev right sp ep speed1 bus) !! 4%nat
    = Some (cmd_frame dev 0x00).
Proof.
  rewrite !scroll_horiz_frames. split; [reflexivity|].
  rewrite drop_app_length. reflexivity.
Qed.

(** ** Initialisation, clear and show *)

Lemma init_alloc_success malloc dev w h addr inst ext bus blk :
  malloc (w * (h / 8) + 1) = Some blk →
  let dev' := Ssd1306 w h (h / 8) addr inst ext (Some blk) (w * (h / 8)) in
  ssd1306_init malloc dev w h addr inst ext bus
  = (true, dev',
     bus ++ map (cmd_frame dev') (init_commands dev') ++ [cmd_frame dev' 0x2E]).
Proof.
  intros Hm dev'. unfold ssd1306_init. rewrite Hm.
  unfold run_init_commands, ssd1306_scroll_horiz_stop, set_buff. cbn [buff width height pages i2c_addr i2c_inst external_vcc buff_size].
  fold dev'. rewrite write_command_frame, write_commands_frames, <- app_assoc.
  reflexivity.
Qed.

(** A sound allocator and a height that is a multiple of 8 give a
    well-formed device. *)
Lemma init_wf malloc dev w h addr inst ext bus dev' bus' :
  malloc_sound malloc → is_u16 w → is_u16 h → h mod 8 = 0 →
  ssd1306_init malloc dev w h addr inst ext bus = (true, dev', bus') →
  wf_dev dev'.
Proof.
  intros Hs Hw Hh Hmod. unfold ssd1306_init.
  destruct (malloc (w * (h / 8) + 1)) as [blk|] eqn:Hm; [|discriminate].
  intros [= <- _]. destruct (Hs _ _ Hm) as [Hlen Hb].
  constructor; simpl; try done.
  apply Z.div_exact; lia.
Qed.

(** C7 (as the code has it): when the allocation fails [ssd1306_init] returns
    false, puts nothing on the bus and leaves [buff] NULL; the geometry,
    address, transport handle, supply flag and [buff_size] fields were already
    overwritten with the arguments before the allocation was attempted. *)
Theorem init_failure_state malloc dev w h addr inst ext bus :
  malloc (w * (h / 8) + 1) = None →
  ∃ dev',
    ssd1306_init malloc dev w h addr inst ext bus = (false, dev', bus)
    ∧ buff dev' = None
    ∧ width dev' = w ∧ height dev' = h ∧ pages dev' = h / 8
    ∧ i2c_addr dev' = addr ∧ i2c_inst dev' = inst ∧ external_vcc dev' = ext
    ∧ buff_size dev' = w * (h / 8).
Proof.
  intros Hm. unfold ssd1306_init. rewrite Hm.
  eexists. split; [reflexivity|].
  cbn [set_buff buff width height pages i2c_addr i2c_inst external_vcc buff_size].
  by split_and!.
Qed.

Lemma init_failure_state_witness :
  ∃ dev',
    ssd1306_init (λ _, None) (Ssd1306 0 0 0 0 0 true (Some [0]) 0)
                 128 64 0x3C 7 false []
    = (false, dev', [])
    ∧ buff dev' = None
    ∧ width dev' = 128 ∧ height dev' = 64 ∧ pages dev' = 64 / 8
    ∧ i2c_addr dev' = 0x3C ∧ i2c_inst dev' = 7 ∧ external_vcc dev' = false
    ∧ buff_size dev' = 128 * (64 / 8).
Proof. apply (init_failure_state (λ _, None)). reflexivity. Defined.

(** C7 as stated does not hold: a failed [ssd1306_init] does not leave the
    device context equal to its pre-call state. *)
Lemma init_failure_changes_context :
  ¬ (∀ malloc dev w h addr inst ext bus,
        malloc (w * (h / 8) + 1) = None →
        ssd1306_init malloc dev w h addr inst ext bus = (false, dev, bus)).
Proof.
  intros H.
  specialize (H (λ _, None) (Ssd1306 0 0 0 0 0 false None 0) 128 64 0x3C 0 false []
                eq_refl).
  discriminate H.
Qed.

Lemma clear_spec dev c rest :
  buff dev = Some (c :: rest) → Z.of_nat (length rest) = buff_size dev →
  ssd1306_clear dev
  = Some (set_buff dev (Some (c :: replicate (Z.to_nat (buff_size dev)) 0))).
Proof.
  intros Hb Hlen. unfold ssd1306_clear. rewrite Hb. cbn [mbind option_bind].
  assert (Hl : Z.of_nat (length (c :: rest)) = buff_size dev + 1)
    by (cbn [length]; lia).
  replace ((0 <=? buff_size dev)
           && (1 + buff_size dev <=? Z.of_nat (length (c :: rest)))) with true
    by (symmetry; apply andb_true_intro; split; apply Z.leb_le; lia).
  do 3 f_equal. rewrite drop_ge by lia.
  cbn [take app]. by rewrite take_0, app_nil_r.
Qed.

Lemma show_spec dev bus c rest :
  buff dev = Some (c :: rest) → Z.of_nat (length rest) = buff_size dev →
  ssd1306_show dev bus
  = Some (set_buff dev (Some (0x40 :: rest)),
          bus
          ++ map (cmd_frame dev)
                 [SET_COL_ADDR; 0x00; u8 (width dev - 1);
                  SET_PAGE_ADDR; 0x00; u8 (pages dev - 1)]
          ++ [I2cFrame (i2c_inst dev) (i2c_addr dev) (0x40 :: rest) false]).
Proof.
  intros Hb Hlen. unfold ssd1306_show, buff_write. rewrite Hb.
  cbn [mbind option_bind].
  assert (Hl : Z.of_nat (length (c :: rest)) = buff_size dev + 1)
    by (cbn [length]; lia).
  replace ((0 <=? -1 + 1) && (-1 + 1 <? Z.of_nat (length (c :: rest)))) with true
    by (symmetry; apply andb_true_intro; split;
        [apply Z.leb_le | apply Z.ltb_lt]; lia).
  cbn [mbind option_bind set_buff buff buff_size i2c_inst i2c_addr].
  change (Z.to_nat (-1 + 1)) with 0%nat. cbn [insert list_insert].
  replace ((0 <=? buff_size dev)
           && (buff_size dev + 1 <=? Z.of_nat (length (64 :: rest)))) with true
    by (symmetry; apply andb_true_intro; split; apply Z.leb_le;
        cbn [length] in *; lia).
  rewrite write_commands_frames. unfold i2c_write_blocking.
  rewrite <- app_assoc. rewrite take_ge by (cbn [length] in *; lia).
  reflexivity.
Qed.

(** C1: after [ssd1306_init(128, 64, 0x3C, ...)] (allocation succeeding, block
    contents arbitrary), [ssd1306_clear] and [ssd1306_show], the show call has
    appended to the bus exactly six command frames carrying 0x21, 0, 127 (column
    window) and 0x22, 0, 7 (page window), then one frame made of the framing
    byte 0x40 followed by 1024 data bytes, all zero. *)
Theorem init_clear_show_wire malloc dev0 inst ext bus0 blk :
  malloc 1025 = Some blk → length blk = 1025%nat →
  ∃ dev1 bus1 dev2 dev3,
    ssd1306_init malloc dev0 128 64 0x3C inst ext bus0 = (true, dev1, bus1)
    ∧ ssd1306_clear dev1 = Some dev2
    ∧ ssd1306_show dev2 bus1
      = Some (dev3,
              bus1
              ++ map (λ c, I2cFrame inst 0x3C [0x00; c] false)
                     [0x21; 0x00; 127; 0x22; 0x00; 7]
              ++ [I2cFrame inst 0x3C (0x40 :: replicate 1024 0) false]).
Proof.
  intros Hm Hlen.
  pose proof (init_alloc_success malloc dev0 128 64 0x3C inst ext bus0 blk Hm) as Hi.
  cbv zeta in Hi. change (128 * (64 / 8)) with 1024 in Hi.
  change (64 / 8) with 8 in Hi.
  destruct blk as [|b0 rest]; [discriminate|].
  assert (Hrest : Z.of_nat (length rest) = 1024) by (simpl in Hlen; lia).
  eexists _, _, _, _. split; [exact Hi|]. split.
  - by apply (clear_spec _ b0 rest).
  - erewrite (show_spec _ _ b0 (replicate (Z.to_nat 1024) 0)); [reflexivity..|].
    by rewrite length_replicate.
Qed.

Lemma init_clear_show_wire_witness :
  ∃ dev1 bus1 dev2 dev3,
    ssd1306_init (λ n, Some (replicate (Z.to_nat n) 0xA5))
                 (Ssd1306 0 0 0 0 0 false None 0) 128 64 0x3C 0 false []
      = (true, dev1, bus1)
    ∧ ssd1306_clear dev1 = Some dev2
    ∧ ssd1306_show dev2 bus1
      = Some (dev3,
              bus1
              ++ map (λ c, I2cFrame 0 0x3C [0x00; c] false)
                     [0x21; 0x00; 127; 0x22; 0x00; 7]
              ++ [I2cFrame 0 0x3C (0x40 :: replicate 1024 0) false]).
Proof.
  apply (init_clear_show_wire (λ n, Some (replicate (Z.to_nat n) 0xA5))
           _ 0 false [] (replicate 1025 0xA5)); reflexivity.
Defined.

(** ** Bytes and bits *)

Lemma u8_range z : is_u8 (u8 z).
Proof. unfold is_u8, u8. apply Z.mod_pos_bound. lia. Qed.

Lemma u8_small z : is_u8 z → u8 z = z.
Proof. unfold is_u8, u8. intros H. by apply Z.mod_small. Qed.

Lemma testbit_u8 z k : Z.testbit (u8 z) k = (k <? 8) && Z.testbit z k.
Proof. unfold u8. by apply Z.testbit_mod_pow2. Qed.

Lemma testbit_is_u8_high b k : is_u8 b → 8 <= k → Z.testbit b k = false.
Proof.
  intros Hb Hk. rewrite <- (u8_small b Hb), testbit_u8.
  destruct (k <? 8) eqn:E; [lia|reflexivity].
Qed.

Lemma testbit_not32 v k :
  0 <= k → Z.testbit (not32 v) k = xorb (k <? 32) (Z.testbit v k).
Proof.
  intros Hk. unfold not32. rewrite Z.lxor_spec.
  change (2 ^ 32 - 1) with (Z.ones 32).
  rewrite Z.testbit_ones_nonneg by lia. reflexivity.
Qed.

Lemma testbit_bit n k : 0 <= n → Z.testbit (Z.shiftl 1 n) k = (n =? k).
Proof. intros Hn. rewrite Z.shiftl_1_l. by apply Z.pow2_bits_eqb. Qed.

(** [byte |= 1 << n] and [byte &= ~(1 << n)], truncated to [uint8_t]. *)
Lemma testbit_set_bit b n k :
  is_u8 b → 0 <= n < 8 → 0 <= k →
  Z.testbit (u8 (Z.lor b (Z.shiftl 1 n))) k
  = if decide (k = n) then true else Z.testbit b k.
Proof.
  intros Hb Hn Hk. rewrite testbit_u8, Z.lor_spec, testbit_bit by lia.
  case_decide as E.
  - subst k. rewrite Z.eqb_refl, orb_true_r.
    destruct (n <? 8) eqn:E'; [reflexivity|lia].
  - replace (n =? k) with false by (symmetry; apply Z.eqb_neq; lia).
    rewrite orb_false_r. destruct (k <? 8) eqn:E'; [reflexivity|].
    simpl. symmetry. apply testbit_is_u8_high; [done|lia].
Qed.

Lemma testbit_clear_bit b n k :
  is_u8 b → 0 <= n < 8 → 0 <= k →
  Z.testbit (u8 (Z.land b (not32 (Z.shiftl 1 n)))) k
  = if decide (k = n) then false else Z.testbit b k.
Proof.
  intros Hb Hn Hk.
  rewrite testbit_u8, Z.land_spec, testbit_not32, testbit_bit by lia.
  case_decide as E.
  - subst k. rewrite Z.eqb_refl.
    replace (n <? 32) with true by (symmetry; apply Z.ltb_lt; lia).
    simpl. by rewrite andb_false_r, andb_false_r.
  - replace (n =? k) with false by (symmetry; apply Z.eqb_neq; lia).
    destruct (k <? 8) eqn:E'.
    + replace (k <? 32) with true by (symmetry; apply Z.ltb_lt; lia).
      simpl. by rewrite andb_true_r.
    + simpl. symmetry. apply testbit_is_u8_high; [done|lia].
Qed.

(** ** Frame-buffer accesses of a well-formed device *)

Lemma set_buff_wf dev blk :
  wf_dev dev → length blk = length (block dev) → Forall is_u8 blk →
  wf_dev (set_buff dev (Some blk)).
Proof.
  intros [] Hl Hb. constructor; simpl; try done.
  unfold block; simpl. by rewrite Hl.
Qed.

Lemma is_u8b_spec z : is_u8b z = true → is_u8 z.
Proof.
  unfold is_u8b, is_u8. intros [H1 H2]%andb_prop.
  split; [by apply Z.leb_le|by apply Z.ltb_lt].
Qed.

Lemma is_u16b_spec z : is_u16b z = true → is_u16 z.
Proof.
  unfold is_u16b, is_u16. intros [H1 H2]%andb_prop.
  split; [by apply Z.leb_le|by apply Z.ltb_lt].
Qed.

Lemma wf_devb_spec dev : wf_devb dev = true → wf_dev dev.
Proof.
  unfold wf_devb.
  intros [[[[[[Hw Hh]%andb_prop Hp]%andb_prop Hs]%andb_prop Hl]%andb_prop
            Hn]%andb_prop Hb]%andb_prop.
  constructor.
  - by apply is_u16b_spec.
  - by apply is_u16b_spec.
  - by apply Z.eqb_eq.
  - by apply Z.eqb_eq.
  - apply bool_decide_eq_true in Hl. unfold block.
    by destruct Hl as [blk ->].
  - by apply Z.eqb_eq.
  - apply Forall_forall. intros b Hin%list_elem_of_In.
    rewrite forallb_forall in Hb. by apply is_u8b_spec, Hb.
Qed.

Lemma buff_read_block dev idx :
  wf_dev dev → 0 <= idx + 1 →
  buff_read dev idx = block dev !! Z.to_nat (idx + 1).
Proof.
  intros [] Hi. unfold buff_read. rewrite wf_live0. simpl.
  destruct (idx + 1 <? 0) eqn:E; [lia|reflexivity].
Qed.

Lemma buff_read_in dev idx :
  wf_dev dev → 0 <= idx < buff_size dev →
  ∃ b, buff_read dev idx = Some b ∧ is_u8 b.
Proof.
  intros Hwf Hi. rewrite buff_read_block by (done || lia).
  destruct Hwf.
  destruct (lookup_lt_is_Some_2 (block dev) (Z.to_nat (idx + 1))) as [b Hb]; [lia|].
  exists b. split; [done|].
  eapply Forall_lookup_1; eauto.
Qed.

Lemma buff_write_in dev idx v :
  wf_dev dev → 0 <= idx + 1 <= buff_size dev →
  buff_write dev idx v
  = Some (set_buff dev (Some (<[Z.to_nat (idx + 1) := v]> (block dev)))).
Proof.
  intros [] Hi. unfold buff_write. rewrite wf_live0. cbn [mbind option_bind].
  replace ((0 <=? idx + 1) && (idx + 1 <? Z.of_nat (length (block dev))))
    with true; [reflexivity|].
  symmetry. apply andb_true_intro. split; [apply Z.leb_le|apply Z.ltb_lt]; lia.
Qed.

Lemma buff_write_wf dev idx v :
  wf_dev dev → is_u8 v →
  wf_dev (set_buff dev (Some (<[Z.to_nat (idx + 1) := v]> (block dev)))).
Proof.
  intros Hwf Hv. apply set_buff_wf; [done|by rewrite length_insert|].
  apply Forall_insert; [apply Hwf|done].
Qed.

Lemma block_set_buff dev blk : block (set_buff dev (Some blk)) = blk.
Proof. reflexivity. Qed.

Lemma buff_read_set_buff dev blk idx :
  0 <= idx + 1 →
  buff_read (set_buff dev (Some blk)) idx = blk !! Z.to_nat (idx + 1).
Proof.
  intros Hi. unfold buff_read. simpl.
  destruct (idx + 1 <? 0) eqn:E; [lia|reflexivity].
Qed.

(** Byte index of an in-panel pixel. *)
Lemma pixel_index_range dev x y :
  wf_dev dev → 0 <= x < width dev → 0 <= y < height dev →
  0 <= x + width dev * (y / 8) < buff_size dev.
Proof.
  intros [] Hx Hy. rewrite wf_size0.
  assert (0 <= y / 8 < pages dev).
  { split; [apply Z.div_pos; lia|apply Z.div_lt_upper_bound; lia]. }
  nia.
Qed.

Lemma shiftr3_div y : Z.shiftr y 3 = y / 8.
Proof. by rewrite Z.shiftr_div_pow2. Qed.

Lemma land7_mod y : Z.land y 7 = y mod 8.
Proof. change 7 with (Z.ones 3). by rewrite Z.land_ones. Qed.

(** The byte [draw_pixel] stores for old byte [b]. *)
Lemma draw_pixel_in dev x y color :
  wf_dev dev → 0 <= x < width dev → 0 <= y < height dev →
  ∃ b v,
    buff_read dev (x + width dev * (y / 8)) = Some b
    ∧ is_u8 b ∧ is_u8 v
    ∧ (∀ k, 0 <= k →
         Z.testbit v k = if decide (k = y mod 8) then color else Z.testbit b k)
    ∧ draw_pixel dev x y color
      = Some (set_buff dev
                (Some (<[Z.to_nat (x + width dev * (y / 8) + 1) := v]> (block dev)))).
Proof.
  intros Hwf Hx Hy.
  pose proof (pixel_index_range dev x y Hwf Hx Hy) as Hidx.
  destruct (buff_read_in dev _ Hwf Hidx) as (b & Hb & Hb8).
  assert (Hm : 0 <= y mod 8 < 8) by (apply Z.mod_pos_bound; lia).
  unfold draw_pixel.
  replace ((x <? width dev) && (y <? height dev)) with true
    by (symmetry; apply andb_true_intro; split; apply Z.ltb_lt; lia).
  rewrite shiftr3_div, land7_mod, Hb. cbn [mbind option_bind].
  destruct color.
  - exists b, (u8 (Z.lor b (Z.shiftl 1 (y mod 8)))).
    split_and!; [done|done|apply u8_range| |apply buff_write_in; [done|lia]].
    intros k Hk. by apply testbit_set_bit.
  - exists b, (u8 (Z.land b (not32 (Z.shiftl 1 (y mod 8))))).
    split_and!; [done|done|apply u8_range| |apply buff_write_in; [done|lia]].
    intros k Hk. by apply testbit_clear_bit.
Qed.

Lemma draw_pixel_out dev x y color :
  width dev <= x ∨ height dev <= y → draw_pixel dev x y color = Some dev.
Proof.
  intros H. unfold draw_pixel.
  replace ((x <? width dev) && (y <? height dev)) with false; [reflexivity|].
  symmetry. apply andb_false_iff.
  destruct H; [left|right]; apply Z.ltb_ge; lia.
Qed.

(** [draw_pixel] never faults on a well-formed device and keeps it so. *)
Lemma draw_pixel_wf dev x y color :
  wf_dev dev → 0 <= x → 0 <= y →
  ∃ dev', draw_pixel dev x y color = Some dev' ∧ wf_dev dev'
          ∧ width dev' = width dev ∧ height dev' = height dev.
Proof.
  intros Hwf Hx Hy.
  destruct (decide (x < width dev ∧ y < height dev)) as [[Hx' Hy']|Hn].
  - destruct (draw_pixel_in dev x y color Hwf) as (b & v & _ & _ & Hv & _ & ->);
      [lia..|].
    eexists. split; [reflexivity|]. split; [by apply buff_write_wf|done].
  - exists dev. split; [apply draw_pixel_out; lia|done].
Qed.

(** C2: on a well-formed device, [draw_pixel] with [x >= width] or
    [y >= height] returns the device unchanged; with [x < width] and
    [y < height] it makes bit [y mod 8] of byte [x + width * (y / 8)] equal to
    the colour (set for [ssd1306_draw_pixel], cleared for
    [ssd1306_clear_pixel]), keeps the other bits of that byte and every other
    byte, and touches no other field. *)
Theorem draw_pixel_spec dev x y color :
  wf_dev dev → is_u16 x → is_u16 y →
  (width dev <= x ∨ height dev <= y → draw_pixel dev x y color = Some dev)
  ∧ (x < width dev ∧ y < height dev →
     ∃ dev' b b',
       draw_pixel dev x y color = Some dev'
       ∧ set_buff dev' (buff dev) = dev
       ∧ buff_read dev (x + width dev * (y / 8)) = Some b
       ∧ buff_read dev' (x + width dev * (y / 8)) = Some b'
       ∧ (∀ k, 0 <= k →
            Z.testbit b' k = if decide (k = y mod 8) then color else Z.testbit b k)
       ∧ (∀ idx, idx ≠ x + width dev * (y / 8) →
            buff_read dev' idx = buff_read dev idx)).
Proof.
  intros Hwf [Hx _] [Hy _]. split; [apply draw_pixel_out|].
  intros [Hx' Hy'].
  destruct (draw_pixel_in dev x y color Hwf) as (b & v & Hb & Hb8 & Hv & Hbits & Hd);
    [lia..|].
  pose proof (pixel_index_range dev x y Hwf) as Hidx.
  eexists _, b, v. split; [exact Hd|]. split_and!.
  - destruct dev, Hwf; simpl in *. unfold set_buff; simpl. reflexivity.
  - done.
  - rewrite buff_read_set_buff by lia. apply list_lookup_insert_eq.
    destruct Hwf. lia.
  - done.
  - intros idx Hne. unfold buff_read at 1. cbn [set_buff buff mbind option_bind].
    unfold buff_read. rewrite (wf_live _ Hwf). cbn [mbind option_bind].
    destruct (idx + 1 <? 0) eqn:E; [reflexivity|].
    apply list_lookup_insert_ne. lia.
Qed.

Lemma draw_pixel_spec_witness :
  let dev := Ssd1306 8 16 2 0x3C 0 false (Some (replicate 17 0)) 16 in
  (width dev <= 3 ∨ height dev <= 10 → draw_pixel dev 3 10 true = Some dev)
  ∧ (3 < width dev ∧ 10 < height dev →
     ∃ dev' b b',
       draw_pixel dev 3 10 true = Some dev'
       ∧ set_buff dev' (buff dev) = dev
       ∧ buff_read dev (3 + width dev * (10 / 8)) = Some b
       ∧ buff_read dev' (3 + width dev * (10 / 8)) = Some b'
       ∧ (∀ k, 0 <= k →
            Z.testbit b' k = if decide (k = 10 mod 8) then true else Z.testbit b k)
       ∧ (∀ idx, idx ≠ 3 + width dev * (10 / 8) →
            buff_read dev' idx = buff_read dev idx)).
Proof.
  intros dev.
  apply (draw_pixel_spec dev 3 10 true);
    [apply wf_devb_spec; reflexivity | unfold is_u16; lia | unfold is_u16; lia].
Defined.

(** Without the geometry of [wf_dev] the store can leave the block: on a panel
    of height 12 with one page, [y = 10] addresses a second page that was
    never allocated. *)
Example draw_pixel_height_not_multiple_of_8 :
  draw_pixel (Ssd1306 1 12 1 0x3C 0 false (Some [0; 0]) 1) 0 10 true = None.
Proof. reflexivity. Qed.

(** ** Loop invariants for [for_each] *)

Lemma for_each_app {S A} (l1 l2 : list A) (body : A → S → option S) s :
  for_each (l1 ++ l2) body s = s' ← for_each l1 body s; for_each l2 body s'.
Proof.
  revert s. induction l1 as [|a l1 IH]; intros s; simpl; [reflexivity|].
  destruct (body a s) as [s1|]; simpl; [apply IH|reflexivity].
Qed.

(** Counting up: [for (k = m; k < m + n; ++k)]. *)
Lemma for_each_seqZ_inv {S} (I : Z → S → Prop) (body : Z → S → option S) m n s :
  0 <= n → I m s →
  (∀ k s, m <= k < m + n → I k s → ∃ s', body k s = Some s' ∧ I (k + 1) s') →
  ∃ s', for_each (seqZ m n) body s = Some s' ∧ I (m + n) s'.
Proof.
  intros Hn. revert m s. pattern n. apply natlike_ind; [| |exact Hn]; clear n Hn.
  - intros m s Hs _. exists s. rewrite Z.add_0_r. by split.
  - intros n Hn IH m s Hs Hstep.
    rewrite seqZ_cons by lia. cbn [for_each].
    destruct (Hstep m s) as (s1 & -> & Hs1); [lia|done|]. cbn [mbind option_bind].
    replace (Z.pred (Z.succ n)) with n by lia.
    destruct (IH (Z.succ m) s1) as (s' & Hs' & HI).
    + by replace (Z.succ m) with (m + 1) by lia.
    + intros k s2 Hk. apply Hstep. lia.
    + exists s'. split; [done|].
      by replace (m + Z.succ n) with (Z.succ m + n) by lia.
Qed.

(** Counting down: [for (k = n - 1; k >= 0; --k)]. *)
Lemma for_each_rev_seqZ_inv {S} (I : Z → S → Prop) (body : Z → S → option S) n s :
  0 <= n → I n s →
  (∀ k s, 0 <= k < n → I (k + 1) s → ∃ s', body k s = Some s' ∧ I k s') →
  ∃ s', for_each (reverse (seqZ 0 n)) body s = Some s' ∧ I 0 s'.
Proof.
  intros Hn. revert s. pattern n. apply natlike_ind; [| |exact Hn]; clear n Hn.
  - intros s Hs _. exists s. by split.
  - intros n Hn IH s Hs Hstep.
    replace (Z.succ n) with (n + 1) in * by lia.
    rewrite seqZ_app, reverse_app by lia.
    change (seqZ (0 + n) 1) with [0 + n]. rewrite Z.add_0_l.
    change (reverse [n]) with [n]. cbn [app for_each].
    destruct (Hstep n s) as (s1 & -> & Hs1); [lia|done|]. cbn [mbind option_bind].
    apply IH; [done|]. intros k s2 Hk. apply Hstep. lia.
Qed.

(** ** Reading pixels back *)

Lemma get_pixel_in dev px py :
  wf_dev dev → 0 <= px < width dev → 0 <= py < height dev →
  get_pixel dev px py
  = b ← block dev !! Z.to_nat (px + width dev * (py / 8) + 1);
    Some (Z.testbit b (py mod 8)).
Proof.
  intros Hwf Hx Hy. unfold get_pixel.
  replace ((0 <=? px) && (px <? width dev) && (0 <=? py) && (py <? height dev))
    with true.
  - rewrite buff_read_block; [done..|].
    pose proof (pixel_index_range dev px py Hwf Hx Hy). lia.
  - symmetry. repeat (apply andb_true_intro; split);
      (apply Z.leb_le || apply Z.ltb_lt); lia.
Qed.

Lemma pixel_index_inj w x y x' y' :
  0 <= x < w → 0 <= x' < w →
  x + w * (y / 8) = x' + w * (y' / 8) → y mod 8 = y' mod 8 →
  x = x' ∧ y = y'.
Proof.
  intros Hx Hx' Hi Hm.
  assert (y / 8 = y' / 8) by nia.
  split; [nia|].
  rewrite (Z.div_mod y 8), (Z.div_mod y' 8) by lia. congruence.
Qed.

(** What a pixel query sees after one [draw_pixel]. *)
Lemma get_pixel_draw_pixel dev dev' x y c px py :
  wf_dev dev → 0 <= x → 0 <= y →
  draw_pixel dev x y c = Some dev' →
  0 <= px < width dev → 0 <= py < height dev →
  get_pixel dev' px py
  = if decide (px = x ∧ py = y) then Some c else get_pixel dev px py.
Proof.
  intros Hwf Hx Hy Hd Hpx Hpy.
  destruct (decide (x < width dev ∧ y < height dev)) as [[Hx' Hy']|Hn].
  - destruct (draw_pixel_in dev x y c Hwf) as (b & v & Hb & Hb8 & Hv & Hbits & Hd');
      [lia..|].
    rewrite Hd' in Hd. injection Hd as <-.
    pose proof (pixel_index_range dev x y Hwf) as Hi.
    pose proof (pixel_index_range dev px py Hwf Hpx Hpy) as Hi'.
    rewrite buff_read_block in Hb by (done || lia).
    rewrite get_pixel_in by (done || by apply buff_write_wf).
    rewrite (get_pixel_in dev) by done.
    cbn [set_buff width height]. rewrite block_set_buff.
    destruct (decide (px + width dev * (py / 8) = x + width dev * (y / 8)))
      as [Heq|Hne].
    + rewrite Heq, list_lookup_insert_eq by (destruct Hwf; lia).
      rewrite Hb. cbn [mbind option_bind].
      rewrite Hbits by (apply Z.mod_pos_bound; lia).
      case_decide as Ebit; case_decide as Epix; try done.
      * destruct (pixel_index_inj (width dev) px py x y); [lia..|done|done|].
        tauto.
      * destruct Epix as [-> ->]. done.
    + rewrite list_lookup_insert_ne by lia.
      case_decide as E; [|done]. destruct E as [-> ->]. done.
  - rewrite draw_pixel_out in Hd by lia. injection Hd as <-.
    case_decide as E; [|done]. lia.
Qed.

(** ** Plotting a list of points *)

Lemma plot_all_spec pts : ∀ dev,
  wf_dev dev → Forall (λ p, 0 <= p.1 ∧ 0 <= p.2) pts →
  ∃ dev', plot_all pts dev = Some dev' ∧ wf_dev dev'
          ∧ width dev' = width dev ∧ height dev' = height dev
          ∧ ∀ px py, 0 <= px < width dev → 0 <= py < height dev →
              get_pixel dev' px py
              = if decide ((px, py) ∈ pts) then Some true else get_pixel dev px py.
Proof.
  unfold plot_all.
  induction pts as [|[x y] pts IH]; intros dev Hwf Hpts.
  - exists dev. split_and!; [done..|]. intros px py _ _.
    case_decide as E; [|done]. by apply elem_of_nil in E.
  - apply Forall_cons in Hpts as [[Hx Hy] Hpts]. cbn [fst snd] in *.
    cbn [for_each fst snd].
    destruct (draw_pixel_wf dev x y true Hwf Hx Hy) as (d1 & Hd1 & Hwf1 & Hw1 & Hh1).
    rewrite Hd1. cbn [mbind option_bind].
    destruct (IH d1 Hwf1 Hpts) as (d2 & Hd2 & Hwf2 & Hw2 & Hh2 & Hpix).
    exists d2. split_and!; try congruence.
    intros px py Hpx Hpy. rewrite Hpix by lia.
    rewrite (get_pixel_draw_pixel dev d1 x y true) by done.
    destruct (decide ((px, py) ∈ pts)) as [Etl|Etl].
    + by rewrite decide_True by (by right).
    + destruct (decide (px = x ∧ py = y)) as [[-> ->]|Ehd].
      * by rewrite decide_True by (by left).
      * rewrite decide_False; [done|].
        intros [[= -> ->]|?]%elem_of_cons; tauto.
Qed.

(** ** Image blit *)

Lemma u16_small z : is_u16 z → u16 z = z.
Proof. unfold is_u16, u16. intros H. by apply Z.mod_small. Qed.

Lemma u16_range z : is_u16 (u16 z).
Proof. unfold is_u16, u16. apply Z.mod_pos_bound. lia. Qed.

(** [(byte >> n) & 0x01u] read as a [bool]. *)
Lemma shift_mask_testbit byte n :
  0 <= n → negb (Z.land (Z.shiftr byte n) 1 =? 0) = Z.testbit byte n.
Proof.
  intros Hn. change 1 with (Z.ones 1). rewrite Z.land_ones by lia.
  rewrite Z.shiftr_div_pow2 by lia. change (2 ^ 1) with 2.
  rewrite <- Z.testbit_spec' by lia.
  by destruct (Z.testbit byte n).
Qed.

(** One source pixel: the destination pixel takes the source bit, every other
    pixel keeps its value. *)
Lemma image_pixel_spec dev image i j :
  wf_dev dev →
  img_width image <= width dev → img_height image <= height dev →
  img_width image * img_height image <= INT_MAX →
  img_width image * img_height image <= 8 * Z.of_nat (length (img_data image)) →
  0 <= i < img_width image → 0 <= j < img_height image →
  ∃ dev' bit,
    image_pixel 0 0 image j i dev = Some dev' ∧ wf_dev dev'
    ∧ width dev' = width dev ∧ height dev' = height dev
    ∧ image_bit image i j = Some bit
    ∧ ∀ px py, 0 <= px < width dev → 0 <= py < height dev →
        get_pixel dev' px py
        = if decide (px = i ∧ py = j) then Some bit else get_pixel dev px py.
Proof.
  intros Hwf Hw Hh Hmax Hdata Hi Hj.
  assert (Hpos : 0 <= i + j * img_width image < img_width image * img_height image)
    by nia.
  assert (Hbyte : (Z.to_nat ((i + j * img_width image) / 8)
                   < length (img_data image))%nat).
  { assert ((i + j * img_width image) / 8 < Z.of_nat (length (img_data image)))
      by (apply Z.div_lt_upper_bound; lia).
    assert (0 <= (i + j * img_width image) / 8) by (apply Z.div_pos; lia).
    lia. }
  destruct (lookup_lt_is_Some_2 _ _ Hbyte) as [byte Hlk].
  assert (Hm : 0 <= i mod 8 < 8) by (apply Z.mod_pos_bound; lia).
  unfold image_pixel, image_bit.
  replace (INT_MAX <? i + j * img_width image) with false
    by (symmetry; apply Z.ltb_ge; lia).
  rewrite Hlk. cbn [mbind option_bind].
  rewrite u8_small by (unfold is_u8; lia).
  rewrite shift_mask_testbit by lia.
  rewrite !Z.add_0_l, !u16_small by (destruct Hwf; unfold is_u16 in *; lia).
  destruct (draw_pixel_wf dev i j (Z.testbit byte (7 - i mod 8)) Hwf)
    as (dev' & Hd & Hwf' & Hw' & Hh'); [lia..|].
  exists dev', (Z.testbit byte (7 - i mod 8)).
  split_and!; [done..|].
  intros px py Hpx Hpy.
  by apply (get_pixel_draw_pixel dev dev' i j); [|lia|lia|..].
Qed.

(** C9: for an image no larger than the panel (its bytes present, its pixel
    count within [int]), [ssd1306_draw_image] at offset (0,0) on a well-formed
    device succeeds, and afterwards the pixel query at every [(i, j)] inside
    the image returns the source bit at byte [(i + j * width) / 8],
    bit [7 - i mod 8]. *)
Theorem draw_image_reproduces dev image :
  wf_dev dev →
  0 <= img_width image <= width dev → 0 <= img_height image <= height dev →
  img_width image * img_height image <= INT_MAX →
  img_width image * img_height image <= 8 * Z.of_nat (length (img_data image)) →
  ∃ dev',
    ssd1306_draw_image dev 0 0 image = Some dev'
    ∧ ∀ i j, 0 <= i < img_width image → 0 <= j < img_height image →
        ∃ bit,
          img_data image !! Z.to_nat ((i + j * img_width image) / 8)
            ≫= (λ byte, Some (Z.testbit byte (7 - i mod 8))) = Some bit
          ∧ get_pixel dev' i j = Some bit.
Proof.
  intros Hwf [Hw0 Hw] [Hh0 Hh] Hmax Hdata.
  unfold ssd1306_draw_image.
  set (same d := wf_dev d ∧ width d = width dev ∧ height d = height dev).
  destruct (for_each_seqZ_inv
              (λ j d, same d ∧
                 ∀ i' j', 0 <= i' < img_width image → 0 <= j' < j →
                   pixel_matches d image i' j')
              (λ j d, for_each (seqZ 0 (img_width image))
                        (image_pixel 0 0 image j) d)
              0 (img_height image) dev) as (dev' & Hrun & _ & Hall); [done| | |].
  - split; [by unfold same|]. intros; lia.
  - intros j d Hj [(Hwfd & Hwd & Hhd) Hrows].
    destruct (for_each_seqZ_inv
                (λ i d, same d ∧
                   ∀ i' j', 0 <= i' < img_width image → 0 <= j' →
                     j' < j ∨ (j' = j ∧ i' < i) → pixel_matches d image i' j')
                (image_pixel 0 0 image j) 0 (img_width image) d)
      as (d' & Hrun & Hsame & Hrow); [done| | |].
    + split; [by unfold same|]. intros i' j' Hi' Hj' [?|[_ ?]]; [|lia].
      apply Hrows; lia.
    + intros i d1 Hi [(Hwf1 & Hw1 & Hh1) Hdone].
      destruct (image_pixel_spec d1 image i j)
        as (d2 & bit & Hstep & Hwf2 & Hw2 & Hh2 & Hbit & Hpix); [done|lia..|].
      exists d2. split; [done|]. split; [unfold same; split_and!; congruence|].
      intros i' j' Hi' Hj' Hlt. unfold pixel_matches.
      rewrite Hpix by lia. case_decide as E.
      * destruct E as [-> ->]. by exists bit.
      * apply Hdone; [done..|]. lia.
    + exists d'. split; [done|]. split; [done|].
      intros i' j' Hi' Hj'. apply Hrow; [done|lia|]. lia.
  - exists dev'. split; [done|]. intros i j Hi Hj.
    apply (Hall i j); lia.
Qed.

Lemma draw_image_reproduces_witness :
  let dev := Ssd1306 8 16 2 0x3C 0 false (Some (replicate 17 0xFF)) 16 in
  let image := Ssd1306Image 8 2 2 [0xA5; 0x0F] in
  ∃ dev',
    ssd1306_draw_image dev 0 0 image = Some dev'
    ∧ ∀ i j, 0 <= i < img_width image → 0 <= j < img_height image →
        ∃ bit,
          img_data image !! Z.to_nat ((i + j * img_width image) / 8)
            ≫= (λ byte, Some (Z.testbit byte (7 - i mod 8))) = Some bit
          ∧ get_pixel dev' i j = Some bit.
Proof.
  intros dev image.
  apply (draw_image_reproduces dev image);
    [apply wf_devb_spec; reflexivity | simpl; lia | simpl; lia
    | unfold INT_MAX; simpl; lia | simpl; lia].
Defined.

(** ** Rectangle outline *)

Lemma i16_small z : is_i16 z → i16 z = z.
Proof. unfold is_i16, i16. intros H. rewrite Z.mod_small; lia. Qed.

Lemma i16_range z : is_i16 (i16 z).
Proof.
  unfold is_i16, i16.
  pose proof (Z.mod_pos_bound (z + 2 ^ 15) (2 ^ 16)). lia.
Qed.

Lemma loop_fuel_val : loop_fuel = Z.to_nat 65536.
Proof. reflexivity. Qed.

Lemma plot_all_app pts1 pts2 dev :
  plot_all (pts1 ++ pts2) dev = dev' ← plot_all pts1 dev; plot_all pts2 dev'.
Proof. apply for_each_app. Qed.

Lemma rect_loop_h_pts fuel x y w h : ∀ dev i,
  rect_loop_h fuel x y w h dev i
  = pts ← rect_pts_h fuel x y w h i; plot_all pts dev.
Proof.
  induction fuel as [|fuel IH]; intros dev i; cbn [rect_loop_h rect_pts_h];
    [reflexivity|].
  destruct (i <? x + i16 w); [|reflexivity].
  destruct (rect_pts_h fuel x y w h (i16 (i + 1))) as [pts|] eqn:Hpts;
    cbn [mbind option_bind].
  - unfold plot_all. cbn [for_each fst snd].
    destruct (draw_pixel dev (u16 i) (u16 y) true) as [d1|];
      cbn [mbind option_bind]; [|reflexivity].
    destruct (draw_pixel d1 (u16 i) (u16 (y + h - 1)) true) as [d2|];
      cbn [mbind option_bind]; [|reflexivity].
    rewrite IH, Hpts. reflexivity.
  - destruct (draw_pixel dev (u16 i) (u16 y) true) as [d1|];
      cbn [mbind option_bind]; [|reflexivity].
    destruct (draw_pixel d1 (u16 i) (u16 (y + h - 1)) true) as [d2|];
      cbn [mbind option_bind]; [|reflexivity].
    rewrite IH, Hpts. reflexivity.
Qed.

Lemma rect_loop_v_pts fuel x y w h : ∀ dev i,
  rect_loop_v fuel x y w h dev i
  = pts ← rect_pts_v fuel x y w h i; plot_all pts dev.
Proof.
  induction fuel as [|fuel IH]; intros dev i; cbn [rect_loop_v rect_pts_v];
    [reflexivity|].
  destruct (i <? y + i16 h); [|reflexivity].
  destruct (rect_pts_v fuel x y w h (i16 (i + 1))) as [pts|] eqn:Hpts;
    cbn [mbind option_bind].
  - unfold plot_all. cbn [for_each fst snd].
    destruct (draw_pixel dev (u16 x) (u16 i) true) as [d1|];
      cbn [mbind option_bind]; [|reflexivity].
    destruct (draw_pixel d1 (u16 (x + w - 1)) (u16 i) true) as [d2|];
      cbn [mbind option_bind]; [|reflexivity].
    rewrite IH, Hpts. reflexivity.
  - destruct (draw_pixel dev (u16 x) (u16 i) true) as [d1|];
      cbn [mbind option_bind]; [|reflexivity].
    destruct (draw_pixel d1 (u16 (x + w - 1)) (u16 i) true) as [d2|];
      cbn [mbind option_bind]; [|reflexivity].
    rewrite IH, Hpts. reflexivity.
Qed.

(** [ssd1306_draw_rect] plots exactly the points of [draw_rect_pts]. *)
Lemma draw_rect_plots dev x y w h :
  ssd1306_draw_rect dev x y w h
  = pts ← draw_rect_pts x y w h; plot_all pts dev.
Proof.
  unfold ssd1306_draw_rect, draw_rect_pts. generalize loop_fuel. intros fuel.
  rewrite rect_loop_h_pts.
  destruct (rect_pts_h fuel x y w h x) as [ph|]; cbn [mbind option_bind];
    [|reflexivity].
  destruct (rect_pts_v fuel x y w h y) as [pv|] eqn:Hv;
    cbn [mbind option_bind].
  - rewrite plot_all_app.
    destruct (plot_all ph dev) as [d1|]; cbn [mbind option_bind]; [|reflexivity].
    by rewrite rect_loop_v_pts, Hv.
  - destruct (plot_all ph dev) as [d1|]; cbn [mbind option_bind]; [|reflexivity].
    by rewrite rect_loop_v_pts, Hv.
Qed.

(** The horizontal loop leaves after [x + (int16_t) width - i] rounds as long
    as its bound stays within [int16_t]. *)
Lemma rect_pts_h_run x y w h fuel : ∀ i,
  is_i16 i → x + i16 w <= 32767 →
  (Z.to_nat (x + i16 w - i) < fuel)%nat →
  rect_pts_h fuel x y w h i
  = Some (seqZ i (x + i16 w - i) ≫= rect_row_pair y h).
Proof.
  induction fuel as [|fuel IH]; intros i Hi Hb Hf; [lia|].
  cbn [rect_pts_h]. destruct (i <? x + i16 w) eqn:E.
  - apply Z.ltb_lt in E. rewrite i16_small by (unfold is_i16 in *; lia).
    rewrite IH by (unfold is_i16 in *; lia). cbn [mbind option_bind].
    rewrite (seqZ_cons i) by lia. cbn [mbind list_bind]. unfold rect_row_pair at 2.
    cbn [app].
    replace (Z.succ i) with (i + 1) by lia.
    by replace (Z.pred (x + i16 w - i)) with (x + i16 w - (i + 1)) by lia.
  - apply Z.ltb_ge in E. by rewrite seqZ_nil by lia.
Qed.

Lemma rect_pts_v_run x y w h fuel : ∀ i,
  is_i16 i → y + i16 h <= 32767 →
  (Z.to_nat (y + i16 h - i) < fuel)%nat →
  rect_pts_v fuel x y w h i
  = Some (seqZ i (y + i16 h - i) ≫= rect_col_pair x w).
Proof.
  induction fuel as [|fuel IH]; intros i Hi Hb Hf; [lia|].
  cbn [rect_pts_v]. destruct (i <? y + i16 h) eqn:E.
  - apply Z.ltb_lt in E. rewrite i16_small by (unfold is_i16 in *; lia).
    rewrite IH by (unfold is_i16 in *; lia). cbn [mbind option_bind].
    rewrite (seqZ_cons i) by lia. cbn [mbind list_bind]. unfold rect_col_pair at 2.
    cbn [app].
    replace (Z.succ i) with (i + 1) by lia.
    by replace (Z.pred (y + i16 h - i)) with (y + i16 h - (i + 1)) by lia.
  - apply Z.ltb_ge in E. by rewrite seqZ_nil by lia.
Qed.

Lemma draw_rect_pts_run x y w h :
  is_i16 x → is_i16 y → x + i16 w <= 32767 → y + i16 h <= 32767 →
  draw_rect_pts x y w h
  = Some ((seqZ x (i16 w) ≫= rect_row_pair y h)
          ++ (seqZ y (i16 h) ≫= rect_col_pair x w)).
Proof.
  intros Hx Hy Hbx Hby. unfold draw_rect_pts.
  pose proof (i16_range w) as Hw. pose proof (i16_range h) as Hh.
  rewrite rect_pts_h_run, rect_pts_v_run;
    try done; try (rewrite loop_fuel_val; unfold is_i16 in *; lia).
  cbn [mbind option_bind].
  replace (x + i16 w - x) with (i16 w) by lia.
  by replace (y + i16 h - y) with (i16 h) by lia.
Qed.

Lemma elem_of_rect_rows x y h n p :
  p ∈ seqZ x n ≫= rect_row_pair y h
  ↔ ∃ i, x <= i < x + n ∧ p.1 = u16 i ∧ (p.2 = u16 y ∨ p.2 = u16 (y + h - 1)).
Proof.
  rewrite list_elem_of_bind. split.
  - intros (i & Hp & Hi%elem_of_seqZ). exists i. split; [done|].
    unfold rect_row_pair in Hp.
    apply elem_of_cons in Hp as [->|Hp]; [by split; [|left]|].
    apply list_elem_of_singleton in Hp as ->. by split; [|right].
  - intros (i & Hi & H1 & H2). exists i. split; [|by apply elem_of_seqZ].
    destruct p as [px py]; cbn [fst snd] in *. subst px. unfold rect_row_pair.
    destruct H2 as [->| ->]; [by left|right; by left].
Qed.

Lemma elem_of_rect_cols x y w n p :
  p ∈ seqZ y n ≫= rect_col_pair x w
  ↔ ∃ i, y <= i < y + n ∧ p.2 = u16 i ∧ (p.1 = u16 x ∨ p.1 = u16 (x + w - 1)).
Proof.
  rewrite list_elem_of_bind. split.
  - intros (i & Hp & Hi%elem_of_seqZ). exists i. split; [done|].
    unfold rect_col_pair in Hp.
    apply elem_of_cons in Hp as [->|Hp]; [by split; [|left]|].
    apply list_elem_of_singleton in Hp as ->. by split; [|right].
  - intros (i & Hi & H1 & H2). exists i. split; [|by apply elem_of_seqZ].
    destruct p as [px py]; cbn [fst snd] in *. subst py. unfold rect_col_pair.
    destruct H2 as [->| ->]; [by left|right; by left].
Qed.

Lemma rect_pts_nonneg x y w h :
  Forall (λ p : Z * Z, 0 <= p.1 ∧ 0 <= p.2)
    ((seqZ x (i16 w) ≫= rect_row_pair y h)
     ++ (seqZ y (i16 h) ≫= rect_col_pair x w)).
Proof.
  apply Forall_forall. intros p [Hp|Hp]%elem_of_app.
  - apply elem_of_rect_rows in Hp as (i & _ & -> & [-> | ->]);
      split; apply u16_range.
  - apply elem_of_rect_cols in Hp as (i & _ & -> & [-> | ->]);
      split; apply u16_range.
Qed.

(** C8 (as the code has it): with the loop bounds [x + (int16_t) width] and
    [y + (int16_t) height] inside [int16_t], [ssd1306_draw_rect] on a
    well-formed device sets exactly the in-panel pixels it plots; for
    [height = 0] these are, for each column [i] in
    [x, x + (int16_t) width), the two pixels [(i, y)] and [(i, y - 1)] (two
    horizontal runs, rows [y] and [y - 1]); for [width = 0] they are, for each
    row [i] in [y, y + (int16_t) height), the two pixels [(x, i)] and
    [(x - 1, i)] (two vertical runs, columns [x] and [x - 1]).  An extent of
    32768 or more is negative as [int16_t] and gives an empty range.
    Coordinates are taken modulo 2^16 as [draw_pixel] receives them. *)
Theorem draw_rect_zero_extent dev x y w h :
  wf_dev dev → is_i16 x → is_i16 y → is_u16 w → is_u16 h →
  x + i16 w <= 32767 → y + i16 h <= 32767 →
  ∃ pts dev',
    draw_rect_pts x y w h = Some pts
    ∧ ssd1306_draw_rect dev x y w h = Some dev'
    ∧ (∀ px py, 0 <= px < width dev → 0 <= py < height dev →
         get_pixel dev' px py
         = if decide ((px, py) ∈ pts) then Some true else get_pixel dev px py)
    ∧ (h = 0 → ∀ p, p ∈ pts ↔
         ∃ i, x <= i < x + i16 w ∧ p.1 = u16 i
              ∧ (p.2 = u16 y ∨ p.2 = u16 (y - 1)))
    ∧ (w = 0 → ∀ p, p ∈ pts ↔
         ∃ i, y <= i < y + i16 h ∧ p.2 = u16 i
              ∧ (p.1 = u16 x ∨ p.1 = u16 (x - 1))).
Proof.
  intros Hwf Hx Hy Hw Hh Hbx Hby.
  pose proof (draw_rect_pts_run x y w h Hx Hy Hbx Hby) as Hpts.
  destruct (plot_all_spec _ dev Hwf (rect_pts_nonneg x y w h))
    as (dev' & Hplot & _ & _ & _ & Hpix).
  eexists _, dev'. split; [exact Hpts|]. split_and!.
  - by rewrite draw_rect_plots, Hpts.
  - exact Hpix.
  - intros -> p. rewrite elem_of_app, elem_of_rect_rows.
    change (seqZ y (i16 0)) with (@nil Z). cbn [mbind list_bind].
    replace (y + 0 - 1) with (y - 1) by lia.
    split; [intros [?|[]%elem_of_nil]; done|by left].
  - intros -> p. rewrite elem_of_app, elem_of_rect_cols.
    change (seqZ x (i16 0)) with (@nil Z). cbn [mbind list_bind].
    replace (x + 0 - 1) with (x - 1) by lia.
    split; [intros [[]%elem_of_nil|?]; done|by right].
Qed.

Lemma draw_rect_zero_extent_witness :
  let dev := Ssd1306 8 16 2 0x3C 0 false (Some (replicate 17 0)) 16 in
  ∃ pts dev',
    draw_rect_pts 0 1 3 0 = Some pts
    ∧ ssd1306_draw_rect dev 0 1 3 0 = Some dev'
    ∧ (∀ px py, 0 <= px < width dev → 0 <= py < height dev →
         get_pixel dev' px py
         = if decide ((px, py) ∈ pts) then Some true else get_pixel dev px py)
    ∧ (0 = 0 → ∀ p, p ∈ pts ↔
         ∃ i, 0 <= i < 0 + i16 3 ∧ p.1 = u16 i
              ∧ (p.2 = u16 1 ∨ p.2 = u16 (1 - 1)))
    ∧ (3 = 0 → ∀ p, p ∈ pts ↔
         ∃ i, 1 <= i < 1 + i16 0 ∧ p.2 = u16 i
              ∧ (p.1 = u16 0 ∨ p.1 = u16 (0 - 1))).
Proof.
  intros dev.
  apply (draw_rect_zero_extent dev 0 1 3 0);
    [apply wf_devb_spec; reflexivity | unfold is_i16; lia | unfold is_i16; lia
    | unfold is_u16; lia | unfold is_u16; lia
    | vm_compute; discriminate | vm_compute; discriminate].
Defined.

(** C8 as stated does not hold: [ssd1306_draw_rect(0, 1, 3, 0)] plots pixels
    in rows 1 and 0, so its plotted set is not a single horizontal run; both
    rows end up lit on a cleared 8x16 panel. *)
Lemma draw_rect_zero_height_two_rows :
  let dev := Ssd1306 8 16 2 0x3C 0 false (Some (replicate 17 0)) 16 in
  ∃ pts dev',
    draw_rect_pts 0 1 3 0 = Some pts
    ∧ ssd1306_draw_rect dev 0 1 3 0 = Some dev'
    ∧ get_pixel dev' 0 1 = Some true
    ∧ get_pixel dev' 0 0 = Some true
    ∧ ¬ horizontal_run pts.
Proof.
  intros dev.
  exists [(0, 1); (0, 0); (1, 1); (1, 0); (2, 1); (2, 0)].
  exists (set_buff dev (Some (0 :: 3 :: 3 :: 3 :: replicate 13 0))).
  split_and!; try (vm_compute; reflexivity).
  intros (row & x0 & n & Hrun).
  destruct (Hrun (0, 1)) as [H1 _]. destruct (Hrun (0, 0)) as [H0 _].
  cbn [fst snd] in *.
  destruct H1 as [H1 _]; [by left|]. destruct H0 as [H0 _]; [right; by left|].
  lia.
Qed.

(** ** Line rasteriser *)

Lemma half_up_0 a b : 0 <= b → half_up 0 a b = 0.
Proof.
  intros Hb. unfold half_up. rewrite Z.mul_0_r, Z.mul_0_l, Z.add_0_l.
  destruct (decide (b = 0)) as [->|Hne]; [reflexivity|].
  apply Z.div_small. lia.
Qed.

Lemma rem_up_0 a b : 0 < b → rem_up 0 a b = b.
Proof.
  intros Hb. unfold rem_up. rewrite Z.mul_0_r, Z.mul_0_l, Z.add_0_l.
  apply Z.mod_small. lia.
Qed.

Lemma half_up_rem_up k a b :
  0 < b → 2 * k * a + b = 2 * b * half_up k a b + rem_up k a b
          ∧ 0 <= rem_up k a b < 2 * b.
Proof.
  intros Hb. unfold half_up, rem_up. split.
  - apply Z.div_mod. lia.
  - apply Z.mod_pos_bound. lia.
Qed.

(** One step of the accumulator: the slow axis advances exactly when the
    remainder overflows. *)
Lemma half_up_step k a b :
  0 < b → 0 <= a <= b →
  (2 * b <= rem_up k a b + 2 * a →
     half_up (k + 1) a b = half_up k a b + 1
     ∧ rem_up (k + 1) a b = rem_up k a b + 2 * a - 2 * b)
  ∧ (rem_up k a b + 2 * a < 2 * b →
     half_up (k + 1) a b = half_up k a b
     ∧ rem_up (k + 1) a b = rem_up k a b + 2 * a).
Proof.
  intros Hb Ha. destruct (half_up_rem_up k a b Hb) as [Heq Hr].
  split; intros Hc.
  - assert (Hq : half_up (k + 1) a b = half_up k a b + 1).
    { unfold half_up at 1. symmetry.
      apply (Z.div_unique _ _ _ (rem_up k a b + 2 * a - 2 * b)); lia. }
    split; [done|].
    unfold rem_up at 1. symmetry.
    apply (Z.mod_unique _ _ (half_up k a b + 1)); lia.
  - assert (Hq : half_up (k + 1) a b = half_up k a b).
    { unfold half_up at 1. symmetry.
      apply (Z.div_unique _ _ _ (rem_up k a b + 2 * a)); lia. }
    split; [done|].
    unfold rem_up at 1. symmetry.
    apply (Z.mod_unique _ _ (half_up k a b)); lia.
Qed.

Lemma half_up_end a b : 0 < b → half_up b a b = a.
Proof.
  intros Hb. unfold half_up. symmetry.
  apply (Z.div_unique _ _ _ b); lia.
Qed.

Lemma half_up_bounds k a b :
  0 < b → 0 <= a <= b → 0 <= k <= b → 0 <= half_up k a b <= a.
Proof.
  intros Hb Ha Hk. unfold half_up. split.
  - apply Z.div_pos; nia.
  - rewrite <- (half_up_end a b Hb) at 2. unfold half_up.
    apply Z.div_le_mono; nia.
Qed.

Lemma half_up_zero k b : 0 <= b → half_up k 0 b = 0.
Proof.
  intros Hb. unfold half_up. rewrite Z.mul_0_r, Z.add_0_l.
  destruct (decide (b = 0)) as [->|?]; [reflexivity|].
  apply Z.div_small. lia.
Qed.

Lemma u16_between a b z : is_u16 a → is_u16 b → a <= z <= b ∨ b <= z <= a → u16 z = z.
Proof. intros Ha Hb Hz. apply u16_small. unfold is_u16 in *. lia. Qed.

(** Shallow branch: from step [k] on, the loop emits the closed-form points
    [k + 1 .. dx] and leaves. *)
Lemma line_pts_x_run dx dy sx sy x1 y1 x2 y2 fuel : ∀ k,
  0 <= dy < dx → dx <= 16383 → sx = 1 ∨ sx = -1 → sy = 1 ∨ sy = -1 →
  is_u16 x1 → is_u16 y1 → is_u16 x2 → is_u16 y2 →
  x2 = x1 + sx * dx → y2 = y1 + sy * dy →
  0 <= k <= dx → (Z.to_nat (dx - k) < fuel)%nat →
  line_pts_x fuel dx dy sx sy x2
    (x1 + sx * k) (y1 + sy * half_up k dy dx) (rem_up k dy dx + 2 * dy - 2 * dx)
  = Some (shallow_pt x1 y1 sx sy dx dy <$> seqZ (k + 1) (dx - k)).
Proof.
  intros k Hd Hmax Hsx Hsy Hx1 Hy1 Hx2 Hy2 Hxe Hye. revert k.
  induction fuel as [|fuel IH]; intros k Hk Hf; [lia|].
  cbn [line_pts_x].
  destruct (x1 + sx * k =? x2) eqn:Ex.
  { apply Z.eqb_eq in Ex. assert (k = dx) as -> by nia.
    by rewrite Z.sub_diag. }
  apply Z.eqb_neq in Ex. assert (Hk' : k < dx) by (destruct (decide (k = dx)); [subst; lia|lia]).
  destruct (half_up_rem_up k dy dx) as [_ Hr]; [lia|].
  destruct (half_up_step k dy dx) as [Hup Hstay]; [lia..|].
  pose proof (half_up_bounds k dy dx) as Hb0.
  pose proof (half_up_bounds (k + 1) dy dx) as Hb1.
  assert (Hx' : u16 (x1 + sx * k + sx) = x1 + sx * (k + 1)).
  { replace (x1 + sx * k + sx) with (x1 + sx * (k + 1)) by lia.
    apply (u16_between x1 x2); [done..|]. nia. }
  rewrite Hx'.
  rewrite (seqZ_cons (k + 1)) by lia. cbn [fmap list_fmap].
  replace (Z.succ (k + 1)) with (k + 1 + 1) by lia.
  replace (Z.pred (dx - k)) with (dx - (k + 1)) by lia.
  destruct (0 <=? rem_up k dy dx + 2 * dy - 2 * dx) eqn:ED.
  - apply Z.leb_le in ED. destruct Hup as [Hq Hrem]; [lia|].
    assert (Hy' : u16 (y1 + sy * half_up k dy dx + sy)
                  = y1 + sy * half_up (k + 1) dy dx).
    { rewrite Hq.
      replace (y1 + sy * half_up k dy dx + sy)
        with (y1 + sy * (half_up k dy dx + 1)) by lia.
      apply (u16_between y1 y2); [done..|]. nia. }
    assert (HD : i16 (i16 (rem_up k dy dx + 2 * dy - 2 * dx - 2 * dx) + 2 * dy)
                 = rem_up (k + 1) dy dx + 2 * dy - 2 * dx).
    { rewrite (i16_small (_ - 2 * dx)) by (unfold is_i16; lia).
      rewrite i16_small by (unfold is_i16; lia). lia. }
    rewrite Hy', HD, IH by lia. reflexivity.
  - apply Z.leb_gt in ED. destruct Hstay as [Hq Hrem]; [lia|].
    assert (HD : i16 (rem_up k dy dx + 2 * dy - 2 * dx + 2 * dy)
                 = rem_up (k + 1) dy dx + 2 * dy - 2 * dx).
    { rewrite i16_small by (unfold is_i16; lia). lia. }
    rewrite HD. rewrite <- Hq at 1. rewrite IH by lia.
    cbn [mbind option_bind]. unfold shallow_pt at 2. by rewrite Hq.
Qed.

(** Steep branch, the mirror image: the accumulator runs negated. *)
Lemma line_pts_y_run dx dy sx sy x1 y1 x2 y2 fuel : ∀ k,
  0 <= dx <= dy → 0 < dy → dy <= 16383 → sx = 1 ∨ sx = -1 → sy = 1 ∨ sy = -1 →
  is_u16 x1 → is_u16 y1 → is_u16 x2 → is_u16 y2 →
  x2 = x1 + sx * dx → y2 = y1 + sy * dy →
  0 <= k <= dy → (Z.to_nat (dy - k) < fuel)%nat →
  line_pts_y fuel dx dy sx sy y2
    (x1 + sx * half_up k dx dy) (y1 + sy * k) (2 * dy - 2 * dx - rem_up k dx dy)
  = Some (steep_pt x1 y1 sx sy dx dy <$> seqZ (k + 1) (dy - k)).
Proof.
  intros k Hd Hpos Hmax Hsx Hsy Hx1 Hy1 Hx2 Hy2 Hxe Hye. revert k.
  induction fuel as [|fuel IH]; intros k Hk Hf; [lia|].
  cbn [line_pts_y].
  destruct (y1 + sy * k =? y2) eqn:Ey.
  { apply Z.eqb_eq in Ey. assert (k = dy) as -> by nia.
    by rewrite Z.sub_diag. }
  apply Z.eqb_neq in Ey. assert (Hk' : k < dy) by (destruct (decide (k = dy)); [subst; lia|lia]).
  destruct (half_up_rem_up k dx dy) as [_ Hr]; [lia|].
  destruct (half_up_step k dx dy) as [Hup Hstay]; [lia..|].
  pose proof (half_up_bounds k dx dy) as Hb0.
  pose proof (half_up_bounds (k + 1) dx dy) as Hb1.
  assert (Hy' : u16 (y1 + sy * k + sy) = y1 + sy * (k + 1)).
  { replace (y1 + sy * k + sy) with (y1 + sy * (k + 1)) by lia.
    apply (u16_between y1 y2); [done..|]. nia. }
  rewrite Hy'.
  rewrite (seqZ_cons (k + 1)) by lia. cbn [fmap list_fmap].
  replace (Z.succ (k + 1)) with (k + 1 + 1) by lia.
  replace (Z.pred (dy - k)) with (dy - (k + 1)) by lia.
  destruct (2 * dy - 2 * dx - rem_up k dx dy <=? 0) eqn:ED.
  - apply Z.leb_le in ED. destruct Hup as [Hq Hrem]; [lia|].
    assert (Hx' : u16 (x1 + sx * half_up k dx dy + sx)
                  = x1 + sx * half_up (k + 1) dx dy).
    { rewrite Hq.
      replace (x1 + sx * half_up k dx dy + sx)
        with (x1 + sx * (half_up k dx dy + 1)) by lia.
      apply (u16_between x1 x2); [done..|]. nia. }
    assert (HD : i16 (i16 (2 * dy - 2 * dx - rem_up k dx dy + 2 * dy) - 2 * dx)
                 = 2 * dy - 2 * dx - rem_up (k + 1) dx dy).
    { rewrite (i16_small (_ + 2 * dy)) by (unfold is_i16; lia).
      rewrite i16_small by (unfold is_i16; lia). lia. }
    rewrite Hx', HD, IH by lia. reflexivity.
  - apply Z.leb_gt in ED. destruct Hstay as [Hq Hrem]; [lia|].
    assert (HD : i16 (2 * dy - 2 * dx - rem_up k dx dy - 2 * dx)
                 = 2 * dy - 2 * dx - rem_up (k + 1) dx dy).
    { rewrite i16_small by (unfold is_i16; lia). lia. }
    rewrite HD. rewrite <- Hq at 1. rewrite IH by lia.
    cbn [mbind option_bind]. unfold steep_pt at 2. by rewrite Hq.
Qed.

Lemma line_delta_small a b :
  is_u16 a → is_u16 b → Z.abs (b - a) <= 16383 →
  line_delta a b = (Z.abs (b - a), if b - a <? 0 then -1 else 1).
Proof.
  intros Ha Hb Hd. unfold line_delta.
  rewrite (i16_small (b - a)) by (unfold is_i16; lia).
  destruct (b - a <? 0) eqn:E.
  - apply Z.ltb_lt in E. rewrite i16_small by (unfold is_i16; lia).
    f_equal. lia.
  - apply Z.ltb_ge in E. f_equal. lia.
Qed.

(** The points [ssd1306_draw_line] plots, in closed form. *)
Lemma draw_line_pts_closed x1 y1 x2 y2 :
  is_u16 x1 → is_u16 y1 → is_u16 x2 → is_u16 y2 →
  Z.abs (x2 - x1) <= 16383 → Z.abs (y2 - y1) <= 16383 →
  let dx := Z.abs (x2 - x1) in
  let dy := Z.abs (y2 - y1) in
  let sx := if x2 - x1 <? 0 then -1 else 1 in
  let sy := if y2 - y1 <? 0 then -1 else 1 in
  draw_line_pts x1 y1 x2 y2
  = Some (if dy <? dx
          then shallow_pt x1 y1 sx sy dx dy <$> seqZ 0 (dx + 1)
          else steep_pt x1 y1 sx sy dx dy <$> seqZ 0 (dy + 1)).
Proof.
  intros Hx1 Hy1 Hx2 Hy2 Hdx Hdy dx dy sx sy.
  unfold draw_line_pts. rewrite !line_delta_small by done.
  fold dx dy sx sy.
  assert (Hsx : sx = 1 ∨ sx = -1) by (unfold sx; destruct (x2 - x1 <? 0); auto).
  assert (Hsy : sy = 1 ∨ sy = -1) by (unfold sy; destruct (y2 - y1 <? 0); auto).
  assert (Hxe : x2 = x1 + sx * dx).
  { unfold sx, dx. destruct (x2 - x1 <? 0) eqn:E;
      [apply Z.ltb_lt in E|apply Z.ltb_ge in E]; lia. }
  assert (Hye : y2 = y1 + sy * dy).
  { unfold sy, dy. destruct (y2 - y1 <? 0) eqn:E;
      [apply Z.ltb_lt in E|apply Z.ltb_ge in E]; lia. }
  assert (Hdx0 : 0 <= dx) by (unfold dx; lia).
  assert (Hdy0 : 0 <= dy) by (unfold dy; lia).
  destruct (dy <? dx) eqn:E.
  - apply Z.ltb_lt in E.
    pose proof (line_pts_x_run dx dy sx sy x1 y1 x2 y2 loop_fuel 0) as Hrun.
    rewrite half_up_0, rem_up_0, !Z.mul_0_r, !Z.add_0_r in Hrun by lia.
    rewrite (i16_small (dy * 2 - dx)) by (unfold is_i16; lia).
    replace (dy * 2 - dx) with (dx + 2 * dy - 2 * dx) by lia.
    rewrite Hrun; try done; try lia; [|rewrite loop_fuel_val; lia].
    cbn [mbind option_bind]. rewrite Z.sub_0_r.
    rewrite (seqZ_cons 0) by lia. cbn [fmap list_fmap].
    unfold shallow_pt at 2. rewrite half_up_0, !Z.mul_0_r, !Z.add_0_r by lia.
    replace (Z.pred (dx + 1)) with dx by lia. reflexivity.
  - apply Z.ltb_ge in E. destruct (decide (dy = 0)) as [Hz|Hnz].
    + assert (dx = 0) by lia. assert (y1 = y2) as -> by lia.
      rewrite Hz. rewrite loop_fuel_val. change (Z.to_nat 65536) with (S (Z.to_nat 65535)).
      cbn [line_pts_y]. rewrite Z.eqb_refl. cbn [mbind option_bind].
      change (seqZ 0 (0 + 1)) with [0]. cbn [fmap list_fmap].
      unfold steep_pt. rewrite half_up_0, !Z.mul_0_r, !Z.add_0_r by lia.
      reflexivity.
    + pose proof (line_pts_y_run dx dy sx sy x1 y1 x2 y2 loop_fuel 0) as Hrun.
      rewrite half_up_0, rem_up_0, !Z.mul_0_r, !Z.add_0_r in Hrun by lia.
      rewrite (i16_small (dy - dx * 2)) by (unfold is_i16; lia).
      replace (dy - dx * 2) with (2 * dy - 2 * dx - dy) by lia.
      rewrite Hrun; try done; try lia; [|rewrite loop_fuel_val; lia].
      cbn [mbind option_bind]. rewrite Z.sub_0_r.
      rewrite (seqZ_cons 0) by lia. cbn [fmap list_fmap].
      unfold steep_pt at 2. rewrite half_up_0, !Z.mul_0_r, !Z.add_0_r by lia.
      replace (Z.pred (dy + 1)) with dy by lia. reflexivity.
Qed.

Lemma plot_step (m : option (list (Z * Z))) x y dev
    (loop : ssd1306_t → option ssd1306_t) :
  (∀ d, loop d = pts ← m; plot_all pts d) →
  (d ← draw_pixel dev x y true; loop d)
  = pts ← (pts ← m; Some ((x, y) :: pts)); plot_all pts dev.
Proof.
  intros H. destruct m as [pts|]; cbn [mbind option_bind plot_all for_each fst snd];
    destruct (draw_pixel dev x y true) as [d|]; cbn [mbind option_bind];
    rewrite ?H; reflexivity.
Qed.

Lemma line_loop_x_pts fuel dx dy sx sy x2 : ∀ dev x1 y1 D,
  line_loop_x fuel dx dy sx sy x2 dev x1 y1 D
  = pts ← line_pts_x fuel dx dy sx sy x2 x1 y1 D; plot_all pts dev.
Proof.
  induction fuel as [|fuel IH]; intros dev x1 y1 D;
    cbn [line_loop_x line_pts_x]; [reflexivity|].
  destruct (x1 =? x2); [reflexivity|].
  destruct (0 <=? D); apply plot_step; intros d; apply IH.
Qed.

Lemma line_loop_y_pts fuel dx dy sx sy y2 : ∀ dev x1 y1 D,
  line_loop_y fuel dx dy sx sy y2 dev x1 y1 D
  = pts ← line_pts_y fuel dx dy sx sy y2 x1 y1 D; plot_all pts dev.
Proof.
  induction fuel as [|fuel IH]; intros dev x1 y1 D;
    cbn [line_loop_y line_pts_y]; [reflexivity|].
  destruct (y1 =? y2); [reflexivity|].
  destruct (D <=? 0); apply plot_step; intros d; apply IH.
Qed.

(** [ssd1306_draw_line] plots exactly the points of [draw_line_pts]. *)
Lemma draw_line_plots dev x1 y1 x2 y2 :
  ssd1306_draw_line dev x1 y1 x2 y2
  = pts ← draw_line_pts x1 y1 x2 y2; plot_all pts dev.
Proof.
  unfold ssd1306_draw_line, draw_line_pts. generalize loop_fuel. intros fuel.
  destruct (line_delta x1 x2) as [dx sx]. destruct (line_delta y1 y2) as [dy sy].
  destruct (dy <? dx); apply plot_step; intros d;
    [apply line_loop_x_pts|apply line_loop_y_pts].
Qed.

Lemma reflect_involutive x1 y1 x2 y2 p :
  reflect x1 y1 x2 y2 (reflect x1 y1 x2 y2 p) = p.
Proof. destruct p as [px py]. unfold reflect. cbn [fst snd]. f_equal; lia. Qed.

Lemma elem_of_fmap_reflect x1 y1 x2 y2 (pts : list (Z * Z)) p :
  p ∈ reflect x1 y1 x2 y2 <$> pts ↔ reflect x1 y1 x2 y2 p ∈ pts.
Proof.
  rewrite list_elem_of_fmap. split.
  - intros (q & -> & Hq). by rewrite reflect_involutive.
  - intros Hp. exists (reflect x1 y1 x2 y2 p). by rewrite reflect_involutive.
Qed.

Lemma fmap_seqZ_ext {B} (f g : Z → B) m n :
  (∀ k, m <= k < m + n → f k = g k) → f <$> seqZ m n = g <$> seqZ m n.
Proof.
  intros H. apply list_fmap_ext. intros i k Hk%lookup_seqZ. apply H. lia.
Qed.

Lemma line_pts_nonneg x1 y1 x2 y2 pts :
  is_u16 x1 → is_u16 y1 → is_u16 x2 → is_u16 y2 →
  Z.abs (x2 - x1) <= 16383 → Z.abs (y2 - y1) <= 16383 →
  draw_line_pts x1 y1 x2 y2 = Some pts →
  Forall (λ p : Z * Z, 0 <= p.1 ∧ 0 <= p.2) pts.
Proof.
  intros Hx1 Hy1 Hx2 Hy2 Hdx Hdy.
  rewrite draw_line_pts_closed by done. intros [= <-].
  set (dx := Z.abs (x2 - x1)). set (dy := Z.abs (y2 - y1)).
  set (sx := if x2 - x1 <? 0 then -1 else 1).
  set (sy := if y2 - y1 <? 0 then -1 else 1).
  assert (Hxe : x2 = x1 + sx * dx).
  { unfold sx, dx. destruct (x2 - x1 <? 0) eqn:E;
      [apply Z.ltb_lt in E|apply Z.ltb_ge in E]; lia. }
  assert (Hye : y2 = y1 + sy * dy).
  { unfold sy, dy. destruct (y2 - y1 <? 0) eqn:E;
      [apply Z.ltb_lt in E|apply Z.ltb_ge in E]; lia. }
  assert (Hsx : sx = 1 ∨ sx = -1) by (unfold sx; destruct (x2 - x1 <? 0); auto).
  assert (Hsy : sy = 1 ∨ sy = -1) by (unfold sy; destruct (y2 - y1 <? 0); auto).
  unfold is_u16 in *.
  apply Forall_forall. intros p Hp.
  destruct (dy <? dx) eqn:E; [apply Z.ltb_lt in E|apply Z.ltb_ge in E];
    apply list_elem_of_fmap in Hp as (k & -> & Hk%elem_of_seqZ).
  - pose proof (half_up_bounds k dy dx). unfold shallow_pt. cbn [fst snd]. nia.
  - destruct (decide (dy = 0)) as [Hz|Hnz].
    + assert (Hz' : dx = 0) by lia. unfold steep_pt. cbn [fst snd].
      rewrite Hz', half_up_zero by lia. lia.
    + pose proof (half_up_bounds k dx dy). unfold steep_pt. cbn [fst snd]. nia.
Qed.

(** The swapped call plots the mirror image of each point. *)
Lemma draw_line_pts_swap x1 y1 x2 y2 pts :
  is_u16 x1 → is_u16 y1 → is_u16 x2 → is_u16 y2 →
  Z.abs (x2 - x1) <= 16383 → Z.abs (y2 - y1) <= 16383 →
  draw_line_pts x1 y1 x2 y2 = Some pts →
  draw_line_pts x2 y2 x1 y1 = Some (reflect x1 y1 x2 y2 <$> pts).
Proof.
  intros Hx1 Hy1 Hx2 Hy2 Hdx Hdy.
  rewrite !draw_line_pts_closed by (done || lia). intros [= <-].
  replace (Z.abs (x1 - x2)) with (Z.abs (x2 - x1)) by lia.
  replace (Z.abs (y1 - y2)) with (Z.abs (y2 - y1)) by lia.
  set (dx := Z.abs (x2 - x1)). set (dy := Z.abs (y2 - y1)).
  f_equal.
  destruct (dy <? dx) eqn:E; [apply Z.ltb_lt in E|apply Z.ltb_ge in E];
    rewrite <- list_fmap_compose; apply fmap_seqZ_ext; intros k Hk;
    unfold compose, reflect, shallow_pt, steep_pt; cbn [fst snd].
  - f_equal.
    + destruct (x1 - x2 <? 0) eqn:E1; destruct (x2 - x1 <? 0) eqn:E2;
        try apply Z.ltb_lt in E1; try apply Z.ltb_ge in E1;
        try apply Z.ltb_lt in E2; try apply Z.ltb_ge in E2; lia.
    + destruct (decide (dy = 0)) as [Hz|Hnz].
      * rewrite Hz, half_up_zero by lia. lia.
      * destruct (y1 - y2 <? 0) eqn:E1; destruct (y2 - y1 <? 0) eqn:E2;
          try apply Z.ltb_lt in E1; try apply Z.ltb_ge in E1;
          try apply Z.ltb_lt in E2; try apply Z.ltb_ge in E2; lia.
  - f_equal.
    + destruct (decide (dx = 0)) as [Hz|Hnz].
      * rewrite Hz, half_up_zero by lia. lia.
      * destruct (x1 - x2 <? 0) eqn:E1; destruct (x2 - x1 <? 0) eqn:E2;
          try apply Z.ltb_lt in E1; try apply Z.ltb_ge in E1;
          try apply Z.ltb_lt in E2; try apply Z.ltb_ge in E2; lia.
    + destruct (decide (dy = 0)) as [Hz|Hnz];
        [assert (k = 0) as -> by lia; unfold dy in Hz; lia|].
      destruct (y1 - y2 <? 0) eqn:E1; destruct (y2 - y1 <? 0) eqn:E2;
        try apply Z.ltb_lt in E1; try apply Z.ltb_ge in E1;
        try apply Z.ltb_lt in E2; try apply Z.ltb_ge in E2; lia.
Qed.

Lemma draw_line_pts_endpoints x1 y1 x2 y2 pts :
  is_u16 x1 → is_u16 y1 → is_u16 x2 → is_u16 y2 →
  Z.abs (x2 - x1) <= 16383 → Z.abs (y2 - y1) <= 16383 →
  draw_line_pts x1 y1 x2 y2 = Some pts →
  (x1, y1) ∈ pts ∧ (x2, y2) ∈ pts.
Proof.
  intros Hx1 Hy1 Hx2 Hy2 Hdx Hdy.
  rewrite draw_line_pts_closed by done. intros [= <-].
  set (dx := Z.abs (x2 - x1)). set (dy := Z.abs (y2 - y1)).
  assert (Hxe : x2 = x1 + (if x2 - x1 <? 0 then -1 else 1) * dx).
  { unfold dx. destruct (x2 - x1 <? 0) eqn:E;
      [apply Z.ltb_lt in E|apply Z.ltb_ge in E]; lia. }
  assert (Hye : y2 = y1 + (if y2 - y1 <? 0 then -1 else 1) * dy).
  { unfold dy. destruct (y2 - y1 <? 0) eqn:E;
      [apply Z.ltb_lt in E|apply Z.ltb_ge in E]; lia. }
  assert (0 <= dx) by (unfold dx; lia). assert (0 <= dy) by (unfold dy; lia).
  destruct (dy <? dx) eqn:E; [apply Z.ltb_lt in E|apply Z.ltb_ge in E]; split;
    apply list_elem_of_fmap.
  - exists 0. split; [|apply elem_of_seqZ; lia].
    unfold shallow_pt. rewrite half_up_0 by lia. f_equal; lia.
  - exists dx. split; [|apply elem_of_seqZ; lia].
    unfold shallow_pt. rewrite half_up_end by lia. by f_equal.
  - exists 0. split; [|apply elem_of_seqZ; lia].
    unfold steep_pt. rewrite half_up_0 by lia. f_equal; lia.
  - exists dy. split; [|apply elem_of_seqZ; lia].
    unfold steep_pt. destruct (decide (dy = 0)) as [Hz|Hnz].
    + assert (dx = 0) by lia. rewrite Hz, half_up_0 by lia. f_equal; lia.
    + rewrite half_up_end by lia. by f_equal.
Qed.

(** C5 (as the code has it): for endpoints whose coordinates differ by at
    most 16383, [ssd1306_draw_line] on a well-formed device sets exactly the
    in-panel pixels of its plotted list, that list contains both endpoints
    [(x1, y1)] and [(x2, y2)], and the list plotted with the endpoints swapped
    is its point reflection through the segment's midpoint: [(px, py)] is
    plotted by the swapped call iff [(x1 + x2 - px, y1 + y2 - py)] is plotted
    by the original one. *)
Theorem draw_line_endpoints_reflected dev x1 y1 x2 y2 :
  wf_dev dev → is_u16 x1 → is_u16 y1 → is_u16 x2 → is_u16 y2 →
  Z.abs (x2 - x1) <= 16383 → Z.abs (y2 - y1) <= 16383 →
  ∃ pts rpts dev',
    draw_line_pts x1 y1 x2 y2 = Some pts
    ∧ draw_line_pts x2 y2 x1 y1 = Some rpts
    ∧ ssd1306_draw_line dev x1 y1 x2 y2 = Some dev'
    ∧ (∀ px py, 0 <= px < width dev → 0 <= py < height dev →
         get_pixel dev' px py
         = if decide ((px, py) ∈ pts) then Some true else get_pixel dev px py)
    ∧ (x1, y1) ∈ pts ∧ (x2, y2) ∈ pts
    ∧ (x1, y1) ∈ rpts ∧ (x2, y2) ∈ rpts
    ∧ ∀ p, p ∈ rpts ↔ reflect x1 y1 x2 y2 p ∈ pts.
Proof.
  intros Hwf Hx1 Hy1 Hx2 Hy2 Hdx Hdy.
  destruct (draw_line_pts x1 y1 x2 y2) as [pts|] eqn:Hpts;
    [|by rewrite draw_line_pts_closed in Hpts].
  pose proof (draw_line_pts_swap _ _ _ _ _ Hx1 Hy1 Hx2 Hy2 Hdx Hdy Hpts) as Hswap.
  destruct (draw_line_pts_endpoints _ _ _ _ _ Hx1 Hy1 Hx2 Hy2 Hdx Hdy Hpts)
    as [He1 He2].
  destruct (plot_all_spec pts dev Hwf) as (dev' & Hplot & _ & _ & _ & Hpix);
    [by apply (line_pts_nonneg x1 y1 x2 y2)|].
  exists pts, (reflect x1 y1 x2 y2 <$> pts), dev'.
  split_and!; try done.
  - by rewrite draw_line_plots, Hpts.
  - apply elem_of_fmap_reflect. unfold reflect. cbn [fst snd].
    by replace (x1 + x2 - x1) with x2 by lia; replace (y1 + y2 - y1) with y2 by lia.
  - apply elem_of_fmap_reflect. unfold reflect. cbn [fst snd].
    by replace (x1 + x2 - x2) with x1 by lia; replace (y1 + y2 - y2) with y1 by lia.
  - intros p. apply elem_of_fmap_reflect.
Qed.

Lemma draw_line_endpoints_reflected_witness :
  let dev := Ssd1306 8 16 2 0x3C 0 false (Some (replicate 17 0)) 16 in
  ∃ pts rpts dev',
    draw_line_pts 0 0 2 1 = Some pts
    ∧ draw_line_pts 2 1 0 0 = Some rpts
    ∧ ssd1306_draw_line dev 0 0 2 1 = Some dev'
    ∧ (∀ px py, 0 <= px < width dev → 0 <= py < height dev →
         get_pixel dev' px py
         = if decide ((px, py) ∈ pts) then Some true else get_pixel dev px py)
    ∧ (0, 0) ∈ pts ∧ (2, 1) ∈ pts
    ∧ (0, 0) ∈ rpts ∧ (2, 1) ∈ rpts
    ∧ ∀ p, p ∈ rpts ↔ reflect 0 0 2 1 p ∈ pts.
Proof.
  intros dev.
  apply (draw_line_endpoints_reflected dev 0 0 2 1);
    [apply wf_devb_spec; reflexivity | unfold is_u16; lia ..
    | simpl; lia | simpl; lia].
Defined.

(** Beyond the bound the accumulator no longer fits [int16_t]: the run from
    [(0, 0)] to [(40000, 10)] ends in row 66. *)
Example draw_line_far_endpoint :
  draw_line_pts 0 0 40000 10 ≫= last = Some (40000, 66).
Proof. vm_compute. reflexivity. Qed.

(** C5 as stated does not hold: [ssd1306_draw_line(0, 0, 2, 1)] plots
    [(1, 1)], the swapped call [ssd1306_draw_line(2, 1, 0, 0)] plots [(1, 0)]
    instead, so the two plotted sets differ; on a cleared 8x16 panel pixel
    [(1, 1)] is lit by the first call and dark after the second. *)
Lemma draw_line_swap_differs :
  let dev := Ssd1306 8 16 2 0x3C 0 false (Some (replicate 17 0)) 16 in
  ∃ pts rpts dev1 dev2,
    draw_line_pts 0 0 2 1 = Some pts
    ∧ draw_line_pts 2 1 0 0 = Some rpts
    ∧ ssd1306_draw_line dev 0 0 2 1 = Some dev1
    ∧ ssd1306_draw_line dev 2 1 0 0 = Some dev2
    ∧ (1, 1) ∈ pts ∧ ¬ ((1, 1) ∈ rpts)
    ∧ get_pixel dev1 1 1 = Some true
    ∧ get_pixel dev2 1 1 = Some false.
Proof.
  intros dev.
  exists [(0, 0); (1, 1); (2, 1)], [(2, 1); (1, 0); (0, 0)].
  exists (set_buff dev (Some (0 :: 1 :: 2 :: 2 :: replicate 13 0))).
  exists (set_buff dev (Some (0 :: 1 :: 1 :: 2 :: replicate 13 0))).
  split_and!; try (vm_compute; reflexivity).
  - right. by left.
  - intros H. repeat (apply elem_of_cons in H as [H|H]; [discriminate H|]).
    by apply elem_of_nil in H.
Qed.

(** ** Vertical scroll: byte-level facts *)

(** A property checked on all 256 byte values holds of every byte. *)
Lemma forall_bytes (P : Z → bool) :
  forallb P (seqZ 0 256) = true → ∀ b, is_u8 b → P b = true.
Proof.
  intros H b Hb. rewrite forallb_forall in H. apply H.
  apply list_elem_of_In, elem_of_seqZ. unfold is_u8 in Hb. lia.
Qed.

Lemma shift_down_u8 b c : is_u8 (shift_down b c).
Proof. apply u8_range. Qed.

Lemma shift_up_u8 b c : is_u8 (shift_up b c).
Proof. apply u8_range. Qed.

Lemma byte_bits_shift_down b c :
  is_u8 b → c = 0 ∨ c = 1 →
  byte_bits (shift_down b c) + carry_down b = byte_bits b + c.
Proof.
  intros Hb Hc. apply Z.eqb_eq.
  destruct Hc as [-> | ->];
    revert b Hb; apply forall_bytes; vm_compute; reflexivity.
Qed.

Lemma byte_bits_shift_up b c :
  is_u8 b → c = 0 ∨ c = 0x80 →
  byte_bits (shift_up b c) + carry_up b / 0x80 = byte_bits b + c / 0x80.
Proof.
  intros Hb Hc. apply Z.eqb_eq.
  destruct Hc as [-> | ->];
    revert b Hb; apply forall_bytes; vm_compute; reflexivity.
Qed.

(** The wrap-around store after the [down] loop. *)
Lemma fix_down b c :
  is_u8 b → c = 0 ∨ c = 1 →
  u8 (Z.lor (Z.land (shift_down b 0) (not32 0x01)) c) = shift_down b c.
Proof.
  intros Hb Hc. apply Z.eqb_eq.
  destruct Hc as [-> | ->];
    revert b Hb; apply forall_bytes; vm_compute; reflexivity.
Qed.

(** The wrap-around store after the [up] loop. *)
Lemma fix_up b c :
  is_u8 b → c = 0 ∨ c = 0x80 →
  u8 (Z.lor (Z.land (shift_up b 0) (not32 0x80)) c) = shift_up b c.
Proof.
  intros Hb Hc. apply Z.eqb_eq.
  destruct Hc as [-> | ->];
    revert b Hb; apply forall_bytes; vm_compute; reflexivity.
Qed.

Lemma carry_down_cases b : carry_down b = 0 ∨ carry_down b = 1.
Proof. unfold carry_down. destruct (_ =? _); auto. Qed.

Lemma carry_up_cases b : carry_up b = 0 ∨ carry_up b = 0x80.
Proof. unfold carry_up. destruct (_ =? _); auto. Qed.

(** Shifting back restores the byte once the neighbour returns the bit. *)
Lemma carry_up_shift_down y h :
  is_u8 y → h = 0 ∨ h = 1 → carry_up (shift_down y h) = 0x80 * h.
Proof.
  intros Hb Hc. apply Z.eqb_eq.
  destruct Hc as [-> | ->];
    revert y Hb; apply forall_bytes; vm_compute; reflexivity.
Qed.

Lemma carry_down_shift_up y c :
  is_u8 y → c = 0 ∨ c = 0x80 → carry_down (shift_up y c) = c / 0x80.
Proof.
  intros Hb Hc. apply Z.eqb_eq.
  destruct Hc as [-> | ->];
    revert y Hb; apply forall_bytes; vm_compute; reflexivity.
Qed.

Lemma shift_up_down b x :
  is_u8 b → x = 0 ∨ x = 1 →
  shift_up (shift_down b x) (0x80 * carry_down b) = b.
Proof.
  intros Hb Hc. apply Z.eqb_eq.
  destruct Hc as [-> | ->];
    revert b Hb; apply forall_bytes; vm_compute; reflexivity.
Qed.

Lemma shift_down_up b x :
  is_u8 b → x = 0 ∨ x = 0x80 →
  shift_down (shift_up b x) (carry_up b / 0x80) = b.
Proof.
  intros Hb Hc. apply Z.eqb_eq.
  destruct Hc as [-> | ->];
    revert b Hb; apply forall_bytes; vm_compute; reflexivity.
Qed.

(** ** Vertical scroll: frame-buffer accesses *)

Lemma shape_fields d d' :
  shape d' = shape d →
  width d' = width d ∧ height d' = height d ∧ pages d' = pages d
  ∧ buff_size d' = buff_size d.
Proof. unfold shape, set_buff. intros [= -> -> -> _ _ _ ->]. done. Qed.

Lemma byte_at_read d idx :
  wf_dev d → -1 <= idx < buff_size d →
  buff_read d idx = Some (byte_at d idx) ∧ is_u8 (byte_at d idx).
Proof.
  intros Hwf Hi. unfold byte_at.
  rewrite buff_read_block by (done || lia).
  destruct (lookup_lt_is_Some_2 (block d) (Z.to_nat (idx + 1))) as [b Hb];
    [destruct Hwf; lia|].
  rewrite Hb. split; [done|]. cbn [default].
  eapply Forall_lookup_1; [apply Hwf|done].
Qed.

Lemma frame_buffer_drop d : wf_dev d → frame_buffer d = drop 1 (block d).
Proof.
  intros []. unfold frame_buffer. apply take_ge. rewrite length_drop. lia.
Qed.

Lemma sum_bits_cons a l : sum_bits (a :: l) = byte_bits a + sum_bits l.
Proof. reflexivity. Qed.

Lemma sum_bits_insert l : ∀ (i : nat) b v,
  l !! i = Some b →
  sum_bits (<[i := v]> l) = sum_bits l - byte_bits b + byte_bits v.
Proof.
  induction l as [|a l IH]; intros i b v Hl; [done|].
  destruct i as [|i]; cbn [lookup list_lookup] in Hl.
  - injection Hl as ->. change (<[0%nat:=v]> (b :: l)) with (v :: l).
    rewrite !sum_bits_cons. lia.
  - change (<[S i:=v]> (a :: l)) with (a :: <[i:=v]> l).
    rewrite !sum_bits_cons, (IH i b v Hl). lia.
Qed.

(** A store into the pixel area: the one byte changes, the bit count follows. *)
Lemma byte_write d idx v :
  wf_dev d → 0 <= idx < buff_size d → is_u8 v →
  ∃ d',
    buff_write d idx v = Some d' ∧ wf_dev d' ∧ shape d' = shape d
    ∧ (∀ j, byte_at d' j = if decide (j = idx) then v else byte_at d j)
    ∧ set_bit_count d' = set_bit_count d - byte_bits (byte_at d idx) + byte_bits v.
Proof.
  intros Hwf Hi Hv.
  destruct (byte_at_read d idx Hwf) as [Hrd Hb8]; [lia|].
  rewrite buff_read_block in Hrd by (done || lia).
  eexists. split; [apply buff_write_in; [done|lia]|].
  pose proof (buff_write_wf d idx v Hwf Hv) as Hwf'.
  split_and!; [done|done| |].
  - intros j. unfold byte_at, buff_read at 1.
    cbn [set_buff buff mbind option_bind]. unfold buff_read.
    rewrite (wf_live _ Hwf). cbn [mbind option_bind].
    destruct (j + 1 <? 0) eqn:E.
    + case_decide; [lia|done].
    + apply Z.ltb_ge in E. case_decide as Ej.
      * subst j. rewrite list_lookup_insert_eq by (destruct Hwf; lia). done.
      * rewrite list_lookup_insert_ne by lia. done.
  - unfold set_bit_count. rewrite !frame_buffer_drop by done.
    rewrite block_set_buff, drop_insert_ge by lia.
    apply sum_bits_insert. rewrite lookup_drop.
    replace (1 + (Z.to_nat (idx + 1) - 1))%nat with (Z.to_nat (idx + 1)) by lia.
    done.
Qed.

Lemma cell_inj w q c q' c' :
  0 <= c < w → 0 <= c' < w → q * w + c = q' * w + c' → q = q' ∧ c = c'.
Proof.
  intros Hc Hc' He.
  assert (q = q') as ->; [|lia].
  destruct (Z.lt_trichotomy q q') as [Hlt|[Heq|Hgt]]; [|done|].
  - assert ((q + 1) * w <= q' * w) by nia. lia.
  - assert ((q' + 1) * w <= q * w) by nia. lia.
Qed.

Section scroll_geometry.
Variable d0 : ssd1306_t.
Hypothesis d0_wf : wf_dev d0.
Hypothesis d0_scrollable : scrollable d0.

Lemma evolved_refl : evolved d0 d0.
Proof. by split_and!. Qed.

Lemma cell_index q c :
  0 <= q < pages d0 → 0 <= c < width d0 →
  0 <= q * width d0 + c < buff_size d0 ∧ buff_size d0 <= 2 ^ 16.
Proof.
  intros Hq Hc. destruct d0_scrollable as [_ Hn].
  rewrite (wf_size _ d0_wf) in *. split; [nia|done].
Qed.

Lemma cell_read d q c :
  evolved d0 d → 0 <= q < pages d0 → 0 <= c < width d0 →
  buff_read d (u16 (q * width d0 + c)) = Some (byte2 d q c) ∧ is_u8 (byte2 d q c).
Proof.
  intros (Hwf & Hs & _) Hq Hc. destruct (shape_fields _ _ Hs) as (Hw & _ & _ & Hn).
  destruct (cell_index q c Hq Hc) as [Hi Hmax].
  rewrite u16_small by (unfold is_u16; lia).
  unfold byte2. rewrite Hw. apply byte_at_read; [done|lia].
Qed.

Lemma cell_write d q c v :
  evolved d0 d → 0 <= q < pages d0 → 0 <= c < width d0 → is_u8 v →
  ∃ d',
    buff_write d (u16 (q * width d0 + c)) v = Some d' ∧ evolved d0 d'
    ∧ (∀ q' c', 0 <= q' < pages d0 → 0 <= c' < width d0 →
         byte2 d' q' c' = if decide (q' = q ∧ c' = c) then v else byte2 d q' c')
    ∧ set_bit_count d' = set_bit_count d - byte_bits (byte2 d q c) + byte_bits v.
Proof.
  intros (Hwf & Hs & Hctl) Hq Hc Hv.
  destruct (shape_fields _ _ Hs) as (Hw & _ & _ & Hn).
  destruct (cell_index q c Hq Hc) as [Hi Hmax].
  rewrite u16_small by (unfold is_u16; lia).
  destruct (byte_write d (q * width d0 + c) v Hwf) as (d' & Hwr & Hwf' & Hs' & Hb & Hcnt);
    [lia|done|].
  destruct (shape_fields _ _ Hs') as (Hw' & _ & _ & _).
  exists d'. split_and!; [done| | |].
  - split_and!; [done|congruence|].
    rewrite Hb, <- Hctl. case_decide; [lia|done].
  - intros q' c' Hq' Hc'. unfold byte2. rewrite Hw', Hw, Hb.
    case_decide as E1; case_decide as E2; try done.
    + exfalso. apply E2. by apply (cell_inj (width d0)).
    + destruct E2 as [-> ->]. done.
  - rewrite Hcnt. unfold byte2. by rewrite Hw.
Qed.
End scroll_geometry.

(** ** Vertical scroll: the loops *)

Lemma prev_page_range P q : 0 <= q < P → 0 <= prev_page P q < P.
Proof. unfold prev_page. destruct (q =? 0) eqn:E; lia. Qed.

Lemma next_page_range P q : 0 <= q < P → 0 <= next_page P q < P.
Proof. unfold next_page. destruct (q + 1 =? P) eqn:E; lia. Qed.

Section scroll_loops.
Variable d0 : ssd1306_t.
Hypothesis d0_wf : wf_dev d0.
Hypothesis d0_scrollable : scrollable d0.

(** One column of the [down] case: every page byte of the column is shifted
    left and receives the top bit of the page above it, page 0 that of the
    last page; the bit count is unchanged. *)
Lemma scroll_column_down dc c :
  evolved d0 dc → 0 <= c < width d0 →
  ∃ d',
    scroll_column true (width d0) (pages d0) c dc = Some d' ∧ evolved d0 d'
    ∧ (∀ q c', 0 <= q < pages d0 → 0 <= c' < width d0 →
         byte2 d' q c'
         = if decide (c' = c)
           then shift_down (byte2 dc q c)
                  (carry_down (byte2 dc (prev_page (pages d0) q) c))
           else byte2 dc q c')
    ∧ set_bit_count d' = set_bit_count dc.
Proof.
  intros Hdc Hc. destruct d0_scrollable as [HP Hn].
  unfold scroll_column.
  destruct (for_each_seqZ_inv
    (λ p (st : ssd1306_t * Z),
       evolved d0 st.1
       ∧ st.2 = (if p =? 0 then 0 else carry_down (byte2 dc (p - 1) c))
       ∧ (∀ q c', 0 <= q < pages d0 → 0 <= c' < width d0 →
            byte2 st.1 q c'
            = if decide (c' = c ∧ q < p)
              then shift_down (byte2 dc q c)
                     (if q =? 0 then 0 else carry_down (byte2 dc (q - 1) c))
              else byte2 dc q c')
       ∧ set_bit_count st.1 + st.2 = set_bit_count dc)
    (scroll_down_page (width d0) c) 0 (pages d0) (dc, 0))
    as ([d carry] & Hrun & Hev & Hcarry & Hbytes & Hcnt); [lia| | |].
  - cbn [fst snd]. split_and!; [done|done| |lia].
    intros q c' Hq Hc'. case_decide; [lia|done].
  - intros p [d carry] Hp (Hev & Hcarry & Hbytes & Hcnt). cbn [fst snd] in *.
    unfold scroll_down_page.
    destruct (cell_read d0 d0_wf d0_scrollable d p c Hev) as [Hrd Hb8]; [lia..|].
    rewrite Hrd. cbn [mbind option_bind].
    assert (Hsame : byte2 d p c = byte2 dc p c).
    { rewrite Hbytes by lia. case_decide; [lia|done]. }
    assert (Hcc : carry = 0 ∨ carry = 1).
    { rewrite Hcarry. destruct (p =? 0); [by left|apply carry_down_cases]. }
    destruct (cell_write d0 d0_wf d0_scrollable d p c (shift_down (byte2 d p c) carry) Hev)
      as (d' & Hwr & Hev' & Hbytes' & Hcnt'); [lia|lia|apply shift_down_u8|].
    unfold shift_down in Hwr at 1. rewrite Hwr. cbn [mbind option_bind].
    eexists. split; [reflexivity|]. cbn [fst snd]. split_and!.
    + done.
    + replace (p + 1 =? 0) with false by (symmetry; apply Z.eqb_neq; lia).
      fold (carry_down (byte2 d p c)).
      by replace (p + 1 - 1) with p by lia; rewrite Hsame.
    + intros q c' Hq Hc'. rewrite Hbytes' by done.
      case_decide as E1.
      * destruct E1 as [-> ->]. rewrite decide_True by lia.
        by rewrite Hsame, Hcarry.
      * rewrite Hbytes by done.
        case_decide as E2; case_decide as E3; try done; exfalso; lia.
    + fold (carry_down (byte2 d p c)). rewrite Hcnt'.
      pose proof (byte_bits_shift_down (byte2 d p c) carry Hb8 Hcc). lia.
  - cbn [fst snd] in *. rewrite Z.add_0_l in *. rewrite Hrun. cbn [mbind option_bind].
    replace (pages d0 =? 0) with false in Hcarry by (symmetry; apply Z.eqb_neq; lia).
    destruct (cell_read d0 d0_wf d0_scrollable d 0 c Hev) as [Hrd Hb8]; [lia..|].
    rewrite Z.mul_0_l, Z.add_0_l, u16_small in Hrd
      by (destruct d0_wf; unfold is_u16 in *; lia).
    rewrite Hrd. cbn [mbind option_bind].
    assert (Hb0 : byte2 d 0 c = shift_down (byte2 dc 0 c) 0).
    { rewrite Hbytes by lia. by rewrite decide_True by lia. }
    assert (Hdc8 : is_u8 (byte2 dc 0 c))
      by (apply (cell_read d0 d0_wf d0_scrollable dc 0 c Hdc); lia).
    assert (Hcc : carry = 0 ∨ carry = 1) by (rewrite Hcarry; apply carry_down_cases).
    destruct (cell_write d0 d0_wf d0_scrollable d 0 c (shift_down (byte2 dc 0 c) carry) Hev)
      as (d' & Hwr & Hev' & Hbytes' & Hcnt'); [lia|lia|apply shift_down_u8|].
    rewrite Z.mul_0_l, Z.add_0_l, u16_small in Hwr
      by (destruct d0_wf; unfold is_u16 in *; lia).
    rewrite Hb0, fix_down, Hwr by done.
    exists d'. split_and!; [done|done| |].
    + intros q c' Hq Hc'. rewrite Hbytes' by done.
      case_decide as E1.
      * destruct E1 as [-> ->]. rewrite decide_True by done.
        unfold prev_page. cbn [Z.eqb]. by rewrite Hcarry.
      * rewrite Hbytes by done.
        case_decide as E2; case_decide as E3; try done; try (exfalso; lia).
        unfold prev_page.
        destruct (q =? 0) eqn:E4; [apply Z.eqb_eq in E4; exfalso; lia|done].
    + rewrite Hcnt', Hb0.
      pose proof (byte_bits_shift_down (byte2 dc 0 c) carry Hdc8 Hcc).
      pose proof (byte_bits_shift_down (byte2 dc 0 c) 0 Hdc8 (or_introl eq_refl)).
      lia.
Qed.
(** One column of the [up] case, the mirror image: every page byte is shifted
    right and receives the low bit of the page below it, the last page that
    of page 0. *)
Lemma scroll_column_up dc c :
  evolved d0 dc → 0 <= c < width d0 →
  ∃ d',
    scroll_column false (width d0) (pages d0) c dc = Some d' ∧ evolved d0 d'
    ∧ (∀ q c', 0 <= q < pages d0 → 0 <= c' < width d0 →
         byte2 d' q c'
         = if decide (c' = c)
           then shift_up (byte2 dc q c)
                  (carry_up (byte2 dc (next_page (pages d0) q) c))
           else byte2 dc q c')
    ∧ set_bit_count d' = set_bit_count dc.
Proof.
  intros Hdc Hc. destruct d0_scrollable as [HP Hn].
  assert (HP16 : pages d0 <= 2 ^ 16).
  { rewrite (wf_size _ d0_wf) in Hn. nia. }
  unfold scroll_column.
  destruct (for_each_rev_seqZ_inv
    (λ k (st : ssd1306_t * Z),
       evolved d0 st.1
       ∧ st.2 = (if k =? pages d0 then 0 else carry_up (byte2 dc k c))
       ∧ (∀ q c', 0 <= q < pages d0 → 0 <= c' < width d0 →
            byte2 st.1 q c'
            = if decide (c' = c ∧ k <= q)
              then shift_up (byte2 dc q c)
                     (if q + 1 =? pages d0 then 0
                      else carry_up (byte2 dc (q + 1) c))
              else byte2 dc q c')
       ∧ set_bit_count st.1 + st.2 / 0x80 = set_bit_count dc)
    (scroll_up_page (width d0) c) (pages d0) (dc, 0))
    as ([d carry] & Hrun & Hev & Hcarry & Hbytes & Hcnt); [lia| | |].
  - cbn [fst snd]. rewrite Z.eqb_refl. split_and!; [done|done| |exact (Z.add_0_r _)].
    intros q c' Hq Hc'. case_decide; [lia|done].
  - intros k [d carry] Hk (Hev & Hcarry & Hbytes & Hcnt). cbn [fst snd] in *.
    unfold scroll_up_page. rewrite (u16_small k) by (unfold is_u16; lia).
    destruct (cell_read d0 d0_wf d0_scrollable d k c Hev) as [Hrd Hb8]; [lia..|].
    rewrite Hrd. cbn [mbind option_bind].
    assert (Hsame : byte2 d k c = byte2 dc k c).
    { rewrite Hbytes by lia. case_decide; [lia|done]. }
    assert (Hcc : carry = 0 ∨ carry = 0x80).
    { rewrite Hcarry. destruct (k + 1 =? pages d0); [by left|apply carry_up_cases]. }
    destruct (cell_write d0 d0_wf d0_scrollable d k c (shift_up (byte2 d k c) carry) Hev)
      as (d' & Hwr & Hev' & Hbytes' & Hcnt'); [lia|lia|apply shift_up_u8|].
    unfold shift_up in Hwr at 1. rewrite Hwr. cbn [mbind option_bind].
    eexists. split; [reflexivity|]. cbn [fst snd]. split_and!.
    + done.
    + replace (k =? pages d0) with false by (symmetry; apply Z.eqb_neq; lia).
      fold (carry_up (byte2 d k c)). by rewrite Hsame.
    + intros q c' Hq Hc'. rewrite Hbytes' by done.
      case_decide as E1.
      * destruct E1 as [-> ->]. rewrite decide_True by lia.
        by rewrite Hsame, Hcarry.
      * rewrite Hbytes by done.
        case_decide as E2; case_decide as E3; try done; exfalso; lia.
    + fold (carry_up (byte2 d k c)). rewrite Hcnt'.
      pose proof (byte_bits_shift_up (byte2 d k c) carry Hb8 Hcc). lia.
  - cbn [fst snd] in *. rewrite Hrun. cbn [mbind option_bind].
    replace (0 =? pages d0) with false in Hcarry by (symmetry; apply Z.eqb_neq; lia).
    destruct (cell_read d0 d0_wf d0_scrollable d (pages d0 - 1) c Hev) as [Hrd Hb8];
      [lia..|].
    rewrite Hrd. cbn [mbind option_bind].
    assert (Hb0 : byte2 d (pages d0 - 1) c = shift_up (byte2 dc (pages d0 - 1) c) 0).
    { rewrite Hbytes by lia. rewrite decide_True by lia.
      by replace (pages d0 - 1 + 1 =? pages d0) with true
        by (symmetry; apply Z.eqb_eq; lia). }
    assert (Hdc8 : is_u8 (byte2 dc (pages d0 - 1) c))
      by (apply (cell_read d0 d0_wf d0_scrollable dc (pages d0 - 1) c Hdc); lia).
    assert (Hcc : carry = 0 ∨ carry = 0x80) by (rewrite Hcarry; apply carry_up_cases).
    destruct (cell_write d0 d0_wf d0_scrollable d (pages d0 - 1) c
                (shift_up (byte2 dc (pages d0 - 1) c) carry) Hev)
      as (d' & Hwr & Hev' & Hbytes' & Hcnt'); [lia|lia|apply shift_up_u8|].
    rewrite Hb0, fix_up, Hwr by done.
    exists d'. split_and!; [done|done| |].
    + intros q c' Hq Hc'. rewrite Hbytes' by done.
      case_decide as E1.
      * destruct E1 as [-> ->]. rewrite decide_True by done.
        unfold next_page.
        replace (pages d0 - 1 + 1 =? pages d0) with true
          by (symmetry; apply Z.eqb_eq; lia).
        by rewrite Hcarry.
      * rewrite Hbytes by done.
        case_decide as E2; case_decide as E3; try done; try (exfalso; lia).
        unfold next_page.
        destruct (q + 1 =? pages d0) eqn:E4;
          [apply Z.eqb_eq in E4; exfalso; lia|done].
    + rewrite Hcnt', Hb0.
      pose proof (byte_bits_shift_up (byte2 dc (pages d0 - 1) c) carry Hdc8 Hcc).
      pose proof (byte_bits_shift_up (byte2 dc (pages d0 - 1) c) 0 Hdc8
                    (or_introl eq_refl)).
      change (0 / 128) with 0 in *. lia.
Qed.
Lemma scroll_column_spec down dc c :
  evolved d0 dc → 0 <= c < width d0 →
  (∀ q, 0 <= q < pages d0 → byte2 dc q c = byte2 d0 q c) →
  ∃ d',
    scroll_column down (width d0) (pages d0) c dc = Some d' ∧ evolved d0 d'
    ∧ (∀ q c', 0 <= q < pages d0 → 0 <= c' < width d0 →
         byte2 d' q c'
         = if decide (c' = c) then scrolled_byte down d0 q c else byte2 dc q c')
    ∧ set_bit_count d' = set_bit_count dc.
Proof.
  intros Hdc Hc Hcol. unfold scrolled_byte. destruct down.
  - destruct (scroll_column_down dc c Hdc Hc) as (d' & Hrun & Hev & Hb & Hcnt).
    exists d'. split_and!; [done..| |done].
    intros q c' Hq Hc'. rewrite Hb by done. case_decide; [|done].
    rewrite !Hcol; [done|by apply prev_page_range|done].
  - destruct (scroll_column_up dc c Hdc Hc) as (d' & Hrun & Hev & Hb & Hcnt).
    exists d'. split_and!; [done..| |done].
    intros q c' Hq Hc'. rewrite Hb by done. case_decide; [|done].
    rewrite !Hcol; [done|by apply next_page_range|done].
Qed.

(** The whole call: every byte becomes its scrolled value, nothing else
    changes, the bit count is kept. *)
Lemma scroll_row_vert_spec down :
  ∃ d',
    ssd1306_scroll_row_vert d0 down = Some d' ∧ evolved d0 d'
    ∧ (∀ q c, 0 <= q < pages d0 → 0 <= c < width d0 →
         byte2 d' q c = scrolled_byte down d0 q c)
    ∧ set_bit_count d' = set_bit_count d0.
Proof.
  unfold ssd1306_scroll_row_vert.
  replace (height d0 / 8) with (pages d0)
    by (rewrite (wf_pages _ d0_wf), Z.mul_comm, Z.div_mul; lia).
  destruct (for_each_seqZ_inv
    (λ c d,
       evolved d0 d
       ∧ (∀ q c', 0 <= q < pages d0 → 0 <= c' < width d0 →
            byte2 d q c'
            = if decide (c' < c) then scrolled_byte down d0 q c' else byte2 d0 q c')
       ∧ set_bit_count d = set_bit_count d0)
    (scroll_column down (width d0) (pages d0)) 0 (width d0) d0)
    as (d' & Hrun & Hev & Hb & Hcnt).
  - destruct d0_wf. unfold is_u16 in *. lia.
  - split_and!; [apply evolved_refl; done| |done].
    intros q c' Hq Hc'. case_decide; [lia|done].
  - intros c d Hc (Hev & Hb & Hcnt).
    destruct (scroll_column_spec down d c Hev) as (d' & Hrun & Hev' & Hb' & Hcnt');
      [lia| |].
    { intros q Hq. rewrite Hb by lia. case_decide; [lia|done]. }
    exists d'. split_and!; [done|done| |congruence].
    intros q c' Hq Hc'. rewrite Hb' by done.
    case_decide as E1.
    + subst c'. by rewrite decide_True by lia.
    + rewrite Hb by done.
      case_decide as E2; case_decide as E3; try done; exfalso; lia.
  - exists d'. split_and!; [done|done| |done].
    intros q c Hq Hc. rewrite Hb by done. by rewrite decide_True by lia.
Qed.
End scroll_loops.

(** ** Vertical scroll: round trip and bit count *)

Lemma evolved_scrollable d0 d : scrollable d0 → evolved d0 d → scrollable d.
Proof.
  intros [HP Hn] (_ & Hs & _). destruct (shape_fields _ _ Hs) as (_ & _ & Hp & Hb).
  unfold scrollable. by rewrite Hp, Hb.
Qed.

Lemma byte_at_lookup d idx :
  wf_dev d → -1 <= idx < buff_size d →
  block d !! Z.to_nat (idx + 1) = Some (byte_at d idx).
Proof.
  intros Hwf Hi. rewrite <- buff_read_block by (done || lia).
  by apply byte_at_read.
Qed.

(** Two devices with the same fields, control byte and pixel bytes are equal. *)
Lemma dev_ext d0 d :
  wf_dev d0 → evolved d0 d →
  (∀ q c, 0 <= q < pages d0 → 0 <= c < width d0 → byte2 d q c = byte2 d0 q c) →
  d = d0.
Proof.
  intros Hwf0 (Hwf & Hs & Hctl) Hb.
  destruct (shape_fields _ _ Hs) as (Hw & Hh & Hp & Hn).
  assert (Hblk : block d = block d0).
  { apply list_eq. intros i.
    destruct (decide (Z.of_nat i <= buff_size d0)) as [Hi|Hi].
    - replace i with (Z.to_nat (Z.of_nat i - 1 + 1)) by lia.
      rewrite !byte_at_lookup by (done || lia). f_equal.
      destruct (decide (i = 0%nat)) as [->|Hnz]; [done|].
      assert (Hw0 : 0 < width d0).
      { rewrite (wf_size _ Hwf0) in Hi. destruct Hwf0; unfold is_u16 in *. nia. }
      set (idx := Z.of_nat i - 1).
      assert (Hidx : idx = idx / width d0 * width d0 + idx mod width d0).
      { rewrite (Z.mul_comm (idx / width d0)). apply Z.div_mod. lia. }
      pose proof (Z.mod_pos_bound idx (width d0) Hw0) as Hc.
      assert (Hq : 0 <= idx / width d0 < pages d0).
      { split; [apply Z.div_pos; lia|].
        apply Z.div_lt_upper_bound; [done|].
        rewrite <- (wf_size _ Hwf0). lia. }
      specialize (Hb _ _ Hq Hc). unfold byte2 in Hb.
      by rewrite Hw, <- Hidx in Hb.
    - rewrite !lookup_ge_None_2; [done|destruct Hwf0; lia|destruct Hwf; lia].
  }
  pose proof (wf_live _ Hwf) as Hl. pose proof (wf_live _ Hwf0) as Hl0.
  rewrite Hblk in Hl.
  destruct d, d0. unfold shape, set_buff in Hs. cbn in *.
  injection Hs as -> -> -> -> -> -> ->. by rewrite Hl, Hl0.
Qed.

Lemma prev_next_page P q : 0 <= q < P → prev_page P (next_page P q) = q.
Proof.
  intros Hq. unfold prev_page, next_page.
  destruct (q + 1 =? P) eqn:E1; [apply Z.eqb_eq in E1; cbn [Z.eqb]; lia|].
  apply Z.eqb_neq in E1.
  destruct (q + 1 =? 0) eqn:E2; [apply Z.eqb_eq in E2|]; lia.
Qed.

Lemma next_prev_page P q : 0 <= q < P → next_page P (prev_page P q) = q.
Proof.
  intros Hq. unfold prev_page, next_page.
  destruct (q =? 0) eqn:E1; [apply Z.eqb_eq in E1|apply Z.eqb_neq in E1].
  - destruct (P - 1 + 1 =? P) eqn:E2; [|apply Z.eqb_neq in E2]; lia.
  - destruct (q - 1 + 1 =? P) eqn:E2; [apply Z.eqb_eq in E2|]; lia.
Qed.

(** A scroll in one direction followed by one in the other restores the
    device. *)
Lemma scroll_row_vert_inverse d down :
  wf_dev d → scrollable d →
  ∃ d1,
    ssd1306_scroll_row_vert d down = Some d1 ∧ wf_dev d1 ∧ scrollable d1
    ∧ ssd1306_scroll_row_vert d1 (negb down) = Some d.
Proof.
  intros Hwf Hsc.
  destruct (scroll_row_vert_spec d Hwf Hsc down) as (d1 & Hrun1 & Hev1 & Hb1 & _).
  pose proof (evolved_scrollable _ _ Hsc Hev1) as Hsc1.
  destruct Hev1 as (Hwf1 & Hs1 & Hctl1).
  destruct (shape_fields _ _ Hs1) as (Hw1 & _ & Hp1 & _).
  destruct (scroll_row_vert_spec d1 Hwf1 Hsc1 (negb down))
    as (d2 & Hrun2 & (Hwf2 & Hs2 & Hctl2) & Hb2 & _).
  exists d1. split_and!; [done..|].
  rewrite Hrun2. f_equal. apply dev_ext; [done|by split_and!; congruence|].
  intros q c Hq Hc.
  assert (Hcell : ∀ q', 0 <= q' < pages d → is_u8 (byte2 d q' c)).
  { intros q' Hq'. by apply (cell_read d Hwf Hsc d q' c (evolved_refl d Hwf)). }
  rewrite Hb2 by lia. unfold scrolled_byte. rewrite Hp1.
  destruct down; cbn [negb].
  - rewrite !Hb1 by (done || by apply next_page_range).
    unfold scrolled_byte. rewrite prev_next_page by done.
    rewrite carry_up_shift_down
      by (apply carry_down_cases || apply Hcell; by apply next_page_range).
    apply shift_up_down; [by apply Hcell|apply carry_down_cases].
  - rewrite !Hb1 by (done || by apply prev_page_range).
    unfold scrolled_byte. rewrite next_prev_page by done.
    rewrite carry_down_shift_up
      by (apply carry_up_cases || apply Hcell; by apply prev_page_range).
    apply shift_down_up; [by apply Hcell|apply carry_up_cases].
Qed.

Lemma scroll_n_snoc n down : ∀ d,
  scroll_n (S n) down d = d' ← scroll_n n down d; ssd1306_scroll_row_vert d' down.
Proof.
  induction n as [|n IH]; intros d.
  - change (scroll_n 1 down d)
      with (d' ← ssd1306_scroll_row_vert d down; Some d').
    change (scroll_n 0 down d) with (Some d). cbn [mbind option_bind].
    by destruct (ssd1306_scroll_row_vert d down).
  - change (scroll_n (S (S n)) down d)
      with (d' ← ssd1306_scroll_row_vert d down; scroll_n (S n) down d').
    change (scroll_n (S n) down d)
      with (d' ← ssd1306_scroll_row_vert d down; scroll_n n down d').
    destruct (ssd1306_scroll_row_vert d down) as [d1|]; cbn [mbind option_bind];
      [apply IH|reflexivity].
Qed.

(** With no page at all the wrap-around store [dev->buff[col]] has no byte to
    address. *)
Example scroll_row_vert_no_pages :
  ssd1306_scroll_row_vert (Ssd1306 1 0 0 0x3C 0 false (Some [0]) 0) true = None.
Proof. reflexivity. Qed.

(** C3: on a well-formed device with at least one page and at most 2^16
    pixel bytes, [n] calls of [ssd1306_scroll_row_vert] in one direction
    followed by [n] calls in the other all succeed and leave the device,
    frame buffer included, exactly as it was. *)
Theorem scroll_row_vert_round_trip dev n down :
  wf_dev dev → scrollable dev →
  (d ← scroll_n n down dev; scroll_n n (negb down) d) = Some dev.
Proof.
  revert dev. induction n as [|n IH]; intros dev Hwf Hsc; [reflexivity|].
  destruct (scroll_row_vert_inverse dev down Hwf Hsc)
    as (d1 & Hrun & Hwf1 & Hsc1 & Hback).
  specialize (IH d1 Hwf1 Hsc1).
  change (scroll_n (S n) down dev)
    with (d' ← ssd1306_scroll_row_vert dev down; scroll_n n down d').
  rewrite Hrun. cbn [mbind option_bind].
  destruct (scroll_n n down d1) as [d2|]; cbn [mbind option_bind] in *;
    [|discriminate].
  by rewrite scroll_n_snoc, IH.
Qed.

Lemma scroll_row_vert_round_trip_witness :
  let dev := Ssd1306 4 16 2 0x3C 0 false
                     (Some [0x40; 0x81; 0x00; 0xFF; 0x3C; 0x01; 0x80; 0x55; 0xAA]) 8 in
  (d ← scroll_n 3 true dev; scroll_n 3 (negb true) d) = Some dev.
Proof.
  intros dev.
  apply (scroll_row_vert_round_trip dev 3 true);
    [apply wf_devb_spec; reflexivity | split; simpl; lia].
Defined.

(** *** The scroll as a rotation of pixel rows *)

Lemma testbit_shift_down b h k :
  is_u8 b → h = 0 ∨ h = 1 → 0 <= k < 8 →
  Z.testbit (shift_down b h) k = if k =? 0 then h =? 1 else Z.testbit b (k - 1).
Proof.
  intros Hb Hh Hk. unfold shift_down.
  rewrite testbit_u8, Z.lor_spec, Z.shiftl_spec by lia.
  replace (k <? 8) with true by (symmetry; apply Z.ltb_lt; lia).
  cbn [andb]. destruct (k =? 0) eqn:E.
  - apply Z.eqb_eq in E. subst k. rewrite Z.testbit_neg_r by lia.
    by destruct Hh as [-> | ->].
  - apply Z.eqb_neq in E.
    replace (Z.testbit h k) with false; [by rewrite orb_false_r|].
    destruct Hh as [-> | ->]; [by rewrite Z.bits_0|].
    symmetry. change 1 with (2 ^ 0). rewrite Z.pow2_bits_eqb by lia.
    apply Z.eqb_neq. lia.
Qed.

Lemma testbit_shift_up b c k :
  is_u8 b → c = 0 ∨ c = 0x80 → 0 <= k < 8 →
  Z.testbit (shift_up b c) k = if k =? 7 then c =? 0x80 else Z.testbit b (k + 1).
Proof.
  intros Hb Hc Hk. unfold shift_up.
  rewrite testbit_u8, Z.lor_spec, Z.shiftr_spec by lia.
  replace (k <? 8) with true by (symmetry; apply Z.ltb_lt; lia).
  cbn [andb]. destruct (k =? 7) eqn:E.
  - apply Z.eqb_eq in E. subst k.
    rewrite (testbit_is_u8_high b) by (done || lia).
    by destruct Hc as [-> | ->].
  - apply Z.eqb_neq in E.
    replace (Z.testbit c k) with false; [by rewrite orb_false_r|].
    destruct Hc as [-> | ->]; [by rewrite Z.bits_0|].
    symmetry. change 128 with (2 ^ 7). rewrite Z.pow2_bits_eqb by lia.
    apply Z.eqb_neq. lia.
Qed.

Lemma carry_down_testbit b : is_u8 b → (carry_down b =? 1) = Z.testbit b 7.
Proof.
  intros Hb. apply Bool.eqb_prop. revert b Hb.
  apply forall_bytes. vm_compute. reflexivity.
Qed.

Lemma carry_up_testbit b : is_u8 b → (carry_up b =? 0x80) = Z.testbit b 0.
Proof.
  intros Hb. apply Bool.eqb_prop. revert b Hb.
  apply forall_bytes. vm_compute. reflexivity.
Qed.

Lemma get_pixel_byte2 d x y :
  wf_dev d → 0 <= x < width d → 0 <= y < height d →
  get_pixel d x y = Some (Z.testbit (byte2 d (y / 8) x) (y mod 8)).
Proof.
  intros Hwf Hx Hy. rewrite get_pixel_in by done.
  pose proof (pixel_index_range d x y Hwf Hx Hy) as Hi.
  rewrite byte_at_lookup by (done || lia). cbn [mbind option_bind].
  unfold byte2. do 3 f_equal. lia.
Qed.

(** After one scroll every pixel shows what the neighbouring row of its
    column showed before. *)
Lemma scroll_row_vert_pixels d d' down :
  wf_dev d → scrollable d → evolved d d' →
  (∀ q c, 0 <= q < pages d → 0 <= c < width d →
     byte2 d' q c = scrolled_byte down d q c) →
  ∀ x y, 0 <= x < width d → 0 <= y < height d →
    get_pixel d' x y = get_pixel d x (source_row down (height d) y).
Proof.
  intros Hwf Hsc (Hwf' & Hs & _) Hb x y Hx Hy.
  destruct (shape_fields _ _ Hs) as (Hw & Hh & _ & _).
  pose proof (wf_pages _ Hwf) as HP.
  assert (Hq : 0 <= y / 8 < pages d).
  { split; [apply Z.div_pos; lia|apply Z.div_lt_upper_bound; lia]. }
  assert (Hk : 0 <= y mod 8 < 8) by (apply Z.mod_pos_bound; lia).
  assert (Hy8 : y = 8 * (y / 8) + y mod 8) by (apply Z.div_mod; lia).
  assert (Hcell : ∀ q', 0 <= q' < pages d → is_u8 (byte2 d q' x)).
  { intros q' Hq'. by apply (cell_read d Hwf Hsc d q' x (evolved_refl d Hwf)). }
  rewrite get_pixel_byte2 by (done || lia). rewrite Hb by done.
  unfold scrolled_byte, source_row. destruct down.
  - rewrite testbit_shift_down
      by (apply carry_down_cases || done || by apply Hcell).
    rewrite carry_down_testbit by (apply Hcell; by apply prev_page_range).
    unfold prev_page.
    destruct (y mod 8 =? 0) eqn:Ek; [apply Z.eqb_eq in Ek|apply Z.eqb_neq in Ek].
    + destruct (y / 8 =? 0) eqn:Eq; [apply Z.eqb_eq in Eq|apply Z.eqb_neq in Eq].
      * assert (Hsrc : (y - 1) mod height d = 8 * (pages d - 1) + 7).
        { symmetry. apply (Z.mod_unique _ _ (-1)); lia. }
        rewrite Hsrc, get_pixel_byte2 by (done || lia).
        replace ((8 * (pages d - 1) + 7) / 8) with (pages d - 1)
          by (apply (Z.div_unique _ _ _ 7); lia).
        by replace ((8 * (pages d - 1) + 7) mod 8) with 7
          by (apply (Z.mod_unique _ _ (pages d - 1)); lia).
      * rewrite (Z.mod_small (y - 1)) by lia.
        rewrite get_pixel_byte2 by (done || lia).
        replace ((y - 1) / 8) with (y / 8 - 1)
          by (apply (Z.div_unique _ _ _ 7); lia).
        by replace ((y - 1) mod 8) with 7
          by (apply (Z.mod_unique _ _ (y / 8 - 1)); lia).
    + rewrite (Z.mod_small (y - 1)) by lia.
      rewrite get_pixel_byte2 by (done || lia).
      replace ((y - 1) / 8) with (y / 8)
        by (apply (Z.div_unique _ _ _ (y mod 8 - 1)); lia).
      by replace ((y - 1) mod 8) with (y mod 8 - 1)
        by (apply (Z.mod_unique _ _ (y / 8)); lia).
  - rewrite testbit_shift_up
      by (apply carry_up_cases || done || by apply Hcell).
    rewrite carry_up_testbit by (apply Hcell; by apply next_page_range).
    unfold next_page.
    destruct (y mod 8 =? 7) eqn:Ek; [apply Z.eqb_eq in Ek|apply Z.eqb_neq in Ek].
    + destruct (y / 8 + 1 =? pages d) eqn:Eq;
        [apply Z.eqb_eq in Eq|apply Z.eqb_neq in Eq].
      * assert (Hsrc : (y + 1) mod height d = 0).
        { symmetry. apply (Z.mod_unique _ _ 1); lia. }
        rewrite Hsrc, get_pixel_byte2 by (done || lia). reflexivity.
      * rewrite (Z.mod_small (y + 1)) by lia.
        rewrite get_pixel_byte2 by (done || lia).
        replace ((y + 1) / 8) with (y / 8 + 1)
          by (apply (Z.div_unique _ _ _ 0); lia).
        by replace ((y + 1) mod 8) with 0
          by (apply (Z.mod_unique _ _ (y / 8 + 1)); lia).
    + rewrite (Z.mod_small (y + 1)) by lia.
      rewrite get_pixel_byte2 by (done || lia).
      replace ((y + 1) / 8) with (y / 8)
        by (apply (Z.div_unique _ _ _ (y mod 8 + 1)); lia).
      by replace ((y + 1) mod 8) with (y mod 8 + 1)
        by (apply (Z.mod_unique _ _ (y / 8)); lia).
Qed.

(** C4: on a well-formed device with at least one page and at most 2^16 pixel
    bytes, a single [ssd1306_scroll_row_vert] call, in either direction,
    succeeds and leaves the number of set bits of the frame buffer unchanged;
    it is a rotation of every column: each pixel takes the value of the pixel
    one row above ([down]) or below ([up]) it, the first and last row
    wrapping around, so no pixel is lost or created. *)
Theorem scroll_row_vert_bit_count dev down :
  wf_dev dev → scrollable dev →
  ∃ dev',
    ssd1306_scroll_row_vert dev down = Some dev'
    ∧ set_bit_count dev' = set_bit_count dev
    ∧ ∀ x y, 0 <= x < width dev → 0 <= y < height dev →
        get_pixel dev' x y = get_pixel dev x (source_row down (height dev) y).
Proof.
  intros Hwf Hsc.
  destruct (scroll_row_vert_spec dev Hwf Hsc down) as (d1 & Hrun & Hev & Hb & Hcnt).
  exists d1. split_and!; [done..|].
  by apply scroll_row_vert_pixels.
Qed.

Lemma scroll_row_vert_bit_count_witness :
  let dev := Ssd1306 4 16 2 0x3C 0 false
                     (Some [0x40; 0x81; 0x00; 0xFF; 0x3C; 0x01; 0x80; 0x55; 0xAA]) 8 in
  ∃ dev',
    ssd1306_scroll_row_vert dev true = Some dev'
    ∧ set_bit_count dev' = set_bit_count dev
    ∧ ∀ x y, 0 <= x < width dev → 0 <= y < height dev →
        get_pixel dev' x y = get_pixel dev x (source_row true (height dev) y).
Proof.
  intros dev.
  apply (scroll_row_vert_bit_count dev true);
    [apply wf_devb_spec; reflexivity | split; simpl; lia].
Defined.

(** *** Geometries outside the reach of the scroll loops *)

Lemma bytes_eqb_spec l1 : ∀ l2, bytes_eqb l1 l2 = true → l1 = l2.
Proof.
  induction l1 as [|a l1 IH]; intros [|b l2] H; try done.
  cbn [bytes_eqb] in H. apply andb_true_iff in H as [Hab Hl].
  apply Z.eqb_eq in Hab. by rewrite Hab, (IH l2 Hl).
Qed.

Lemma dev_eqb_spec d1 d2 : dev_eqb d1 d2 = true → d1 = d2.
Proof.
  destruct d1 as [w1 h1 p1 a1 n1 e1 b1 s1], d2 as [w2 h2 p2 a2 n2 e2 b2 s2].
  unfold dev_eqb. cbn [width height pages i2c_addr i2c_inst external_vcc buff
                       buff_size].
  rewrite !andb_true_iff, !Z.eqb_eq.
  intros [[[[[[[-> ->] ->] ->] ->] He] Hb] ->].
  apply Bool.eqb_prop in He as ->.
  destruct b1 as [l1|], b2 as [l2|]; try done.
  by rewrite (bytes_eqb_spec l1 l2 Hb).
Qed.

Lemma returns_spec r d : returns r d = true → r = Some d.
Proof.
  destruct r as [d'|]; [|done]. cbn [returns]. intros H.
  by rewrite (dev_eqb_spec d' d H).
Qed.

Lemma for_each_fixed {S A} (l : list A) (f : A → S → option S) s :
  (∀ a, a ∈ l → f a s = Some s) → for_each l f s = Some s.
Proof.
  induction l as [|a l IH]; intros H; [done|].
  cbn [for_each]. rewrite (H a) by (by left). cbn [mbind option_bind].
  apply IH. intros a' Ha'. apply H. by right.
Qed.

Lemma buff_write_same d i v : buff_read d i = Some v → buff_write d i v = Some d.
Proof.
  unfold buff_read, buff_write. destruct d as [w h p a n e [blk|] sz]; [|done].
  cbn [buff mbind option_bind]. destruct (Z.ltb_spec (i + 1) 0) as [|Hi]; [done|].
  intros Hl. pose proof (lookup_lt_Some _ _ _ Hl) as Hlt.
  replace ((0 <=? i + 1) && (i + 1 <? Z.of_nat (length blk))) with true
    by (symmetry; apply andb_true_iff; split;
        [apply Z.leb_le|apply Z.ltb_lt]; lia).
  by rewrite (list_insert_id _ _ _ Hl).
Qed.

(** A column that reads dark everywhere the 16-bit index can reach is left
    as it is, whatever the geometry. *)
Lemma scroll_column_dark down w p c d :
  (∀ i, 0 <= i < 2 ^ 16 → buff_read d i = Some 0) → 0 <= c < 2 ^ 16 →
  scroll_column down w p c d = Some d.
Proof.
  intros Hdark Hc. unfold scroll_column. destruct down.
  - rewrite (for_each_fixed (seqZ 0 p) (scroll_down_page w c) (d, 0)).
    + cbn [mbind option_bind]. rewrite (Hdark c Hc). cbn [mbind option_bind].
      change (u8 (Z.lor (Z.land 0 (not32 0x01)) 0)) with 0.
      apply buff_write_same, Hdark, Hc.
    + intros page _. unfold scroll_down_page.
      rewrite Hdark by apply u16_range. cbn [mbind option_bind].
      change (u8 (Z.lor (Z.shiftl 0 1) 0)) with 0.
      rewrite buff_write_same by (apply Hdark, u16_range). done.
  - rewrite (for_each_fixed (reverse (seqZ 0 p)) (scroll_up_page w c) (d, 0)).
    + cbn [mbind option_bind]. rewrite Hdark by apply u16_range.
      cbn [mbind option_bind].
      change (u8 (Z.lor (Z.land 0 (not32 0x80)) 0)) with 0.
      apply buff_write_same, Hdark, u16_range.
    + intros page _. unfold scroll_up_page.
      rewrite Hdark by apply u16_range. cbn [mbind option_bind].
      change (u8 (Z.lor (Z.shiftr 0 1) 0)) with 0.
      rewrite buff_write_same by (apply Hdark, u16_range). done.
Qed.

Lemma scroll_row_vert_dark d down :
  is_u16 (width d) → (∀ i, 0 <= i < 2 ^ 16 → buff_read d i = Some 0) →
  ssd1306_scroll_row_vert d down = Some d.
Proof.
  intros Hw Hdark. unfold ssd1306_scroll_row_vert.
  apply for_each_fixed. intros c Hc%elem_of_seqZ.
  apply scroll_column_dark; [done|]. unfold is_u16 in Hw. lia.
Qed.

Lemma tall_panel_dark_reads i :
  0 <= i < 2 ^ 16 →
  buff_read (tall_panel (replicate (Z.to_nat 73729) 0)) i = Some 0.
Proof.
  intros Hi. unfold buff_read, tall_panel. cbn [buff mbind option_bind].
  destruct (Z.ltb_spec (i + 1) 0) as [|_]; [lia|].
  apply lookup_replicate_2. change (2 ^ 16) with 65536 in Hi. lia.
Qed.

(** On the 8192x72 panel page 8 has the 16-bit index of page 0.  With the
    single pixel [(0, 63)] lit (bit 7 of byte 57344), the [down] pass over
    column 0 carries that bit out of page 7 into bit 0 of byte 0, which the
    wrap-around store then overwrites: the whole panel is dark. *)
Lemma scroll_tall_panel_column_0 :
  scroll_column true 8192 9 0
    (tall_panel (<[Z.to_nat 57345 := 0x80]> (replicate (Z.to_nat 73729) 0)))
  = Some (tall_panel (replicate (Z.to_nat 73729) 0)).
Proof. apply returns_spec. vm_compute. reflexivity. Qed.

Lemma scroll_tall_panel_down :
  ssd1306_scroll_row_vert
    (tall_panel (<[Z.to_nat 57345 := 0x80]> (replicate (Z.to_nat 73729) 0))) true
  = Some (tall_panel (replicate (Z.to_nat 73729) 0)).
Proof.
  unfold ssd1306_scroll_row_vert.
  change (height (tall_panel _) / 8) with 9.
  change (width (tall_panel _)) with 8192.
  rewrite (seqZ_cons 0 8192) by lia. cbn [for_each].
  rewrite scroll_tall_panel_column_0.
  cbn [mbind option_bind]. apply for_each_fixed. intros c Hc%elem_of_seqZ.
  apply scroll_column_dark; [apply tall_panel_dark_reads|].
  change (2 ^ 16) with 65536. lia.
Qed.

Lemma tall_panel_wf_lit :
  wf_dev (tall_panel (<[Z.to_nat 57345 := 0x80]> (replicate (Z.to_nat 73729) 0))).
Proof. apply wf_devb_spec. vm_compute. reflexivity. Qed.

Lemma scroll_tall_panel_dark down :
  ssd1306_scroll_row_vert (tall_panel (replicate (Z.to_nat 73729) 0)) down
  = Some (tall_panel (replicate (Z.to_nat 73729) 0)).
Proof.
  apply scroll_row_vert_dark; [|apply tall_panel_dark_reads].
  split; [done|reflexivity].
Qed.

(** C3 as stated does not hold on every device [ssd1306_init] builds.  On the
    8192x72 panel with only pixel [(0, 63)] lit, one scroll down and then one
    scroll up both succeed and leave the panel dark, not as it was; on the
    1x0 panel, which has no page, a scroll in either direction stores outside
    the buffer and the sequence has no result. *)
Lemma scroll_row_vert_round_trip_fails :
  (wf_dev (tall_panel (<[Z.to_nat 57345 := 0x80]> (replicate (Z.to_nat 73729) 0)))
   ∧ ssd1306_scroll_row_vert
       (tall_panel (<[Z.to_nat 57345 := 0x80]> (replicate (Z.to_nat 73729) 0)))
       true
     = Some (tall_panel (replicate (Z.to_nat 73729) 0))
   ∧ ssd1306_scroll_row_vert (tall_panel (replicate (Z.to_nat 73729) 0)) false
     = Some (tall_panel (replicate (Z.to_nat 73729) 0))
   ∧ get_pixel
       (tall_panel (<[Z.to_nat 57345 := 0x80]> (replicate (Z.to_nat 73729) 0)))
       0 63
     = Some true
   ∧ get_pixel (tall_panel (replicate (Z.to_nat 73729) 0)) 0 63 = Some false)
  ∧ (wf_dev flat_panel
     ∧ (d ← scroll_n 1 true flat_panel; scroll_n 1 (negb true) d) = None
     ∧ (d ← scroll_n 1 false flat_panel; scroll_n 1 (negb false) d) = None).
Proof.
  split; [split; [|split; [|split; [|split]]]|split; [|split]].
  - exact tall_panel_wf_lit.
  - exact scroll_tall_panel_down.
  - exact (scroll_tall_panel_dark false).
  - vm_compute. reflexivity.
  - vm_compute. reflexivity.
  - apply wf_devb_spec. reflexivity.
  - reflexivity.
  - reflexivity.
Qed.

(** C4 as stated does not hold on every device [ssd1306_init] builds.  On the
    8192x72 panel with only pixel [(0, 63)] lit, one scroll down succeeds and
    leaves no bit set: the pixel is lost, not moved to row 64; on the 1x0 panel
    a scroll in either direction stores outside the buffer. *)
Lemma scroll_row_vert_loses_pixel :
  (wf_dev (tall_panel (<[Z.to_nat 57345 := 0x80]> (replicate (Z.to_nat 73729) 0)))
   ∧ ssd1306_scroll_row_vert
       (tall_panel (<[Z.to_nat 57345 := 0x80]> (replicate (Z.to_nat 73729) 0)))
       true
     = Some (tall_panel (replicate (Z.to_nat 73729) 0))
   ∧ set_bit_count
       (tall_panel (<[Z.to_nat 57345 := 0x80]> (replicate (Z.to_nat 73729) 0)))
     = 1
   ∧ set_bit_count (tall_panel (replicate (Z.to_nat 73729) 0)) = 0)
  ∧ (wf_dev flat_panel
     ∧ ssd1306_scroll_row_vert flat_panel true = None
     ∧ ssd1306_scroll_row_vert flat_panel false = None).
Proof.
  split; [split; [|split; [|split]]|split; [|split]].
  - exact tall_panel_wf_lit.
  - exact scroll_tall_panel_down.
  - vm_compute. reflexivity.
  - vm_compute. reflexivity.
  - apply wf_devb_spec. reflexivity.
  - reflexivity.
  - reflexivity.
Qed.

(** * Further properties of the driver *)

(** ** Devices are determined by their pixels *)

Lemma evolved_trans d0 d1 d2 : evolved d0 d1 → evolved d1 d2 → evolved d0 d2.
Proof.
  intros (_ & Hs1 & Hc1) (Hwf2 & Hs2 & Hc2). split_and!; [done|congruence..].
Qed.

Lemma byte2_is_u8 d q c :
  wf_dev d → 0 <= q < pages d → 0 <= c < width d → is_u8 (byte2 d q c).
Proof.
  intros Hwf Hq Hc. unfold byte2. apply byte_at_read; [done|].
  rewrite (wf_size _ Hwf). nia.
Qed.

Lemma get_pixel_cell d q c k :
  wf_dev d → 0 <= q < pages d → 0 <= c < width d → 0 <= k < 8 →
  get_pixel d c (8 * q + k) = Some (Z.testbit (byte2 d q c) k).
Proof.
  intros Hwf Hq Hc Hk. pose proof (wf_pages _ Hwf).
  rewrite get_pixel_byte2 by (done || lia).
  replace ((8 * q + k) / 8) with q by (apply (Z.div_unique _ _ _ k); lia).
  by replace ((8 * q + k) mod 8) with k by (apply (Z.mod_unique _ _ q); lia).
Qed.

(** Two devices with the same fields and control byte that answer every
    pixel query alike are equal. *)
Lemma dev_ext_pixels d0 d :
  wf_dev d0 → evolved d0 d →
  (∀ x y, 0 <= x < width d0 → 0 <= y < height d0 →
     get_pixel d x y = get_pixel d0 x y) →
  d = d0.
Proof.
  intros Hwf0 Hev Hpix. apply dev_ext; [done..|].
  destruct Hev as (Hwf & Hs & _).
  destruct (shape_fields _ _ Hs) as (Hw & Hh & Hp & _).
  intros q c Hq Hc. apply Z.bits_inj'. intros k Hk.
  destruct (decide (k < 8)) as [Hk8|Hk8].
  - pose proof (wf_pages _ Hwf0).
    specialize (Hpix c (8 * q + k) Hc ltac:(lia)).
    rewrite !get_pixel_cell in Hpix by (done || lia). by injection Hpix.
  - rewrite !testbit_is_u8_high; [done| |lia| |lia];
      apply byte2_is_u8; (done || lia).
Qed.

Lemma draw_pixel_evolved dev x y color :
  wf_dev dev → 0 <= x → 0 <= y →
  ∃ dev', draw_pixel dev x y color = Some dev' ∧ evolved dev dev'.
Proof.
  intros Hwf Hx Hy.
  destruct (decide (x < width dev ∧ y < height dev)) as [[Hx' Hy']|Hn].
  - destruct (draw_pixel_in dev x y color Hwf) as (b & v & _ & _ & Hv & _ & Hd);
      [lia..|].
    pose proof (pixel_index_range dev x y Hwf) as Hi.
    eexists. split; [exact Hd|]. split_and!; [by apply buff_write_wf|done|].
    unfold byte_at. rewrite buff_read_set_buff, buff_read_block by (done || lia).
    by rewrite list_lookup_insert_ne by lia.
  - exists dev. split; [apply draw_pixel_out; lia|by apply evolved_refl].
Qed.

(** ** Painting a grid of cells *)

Lemma painting_start dev tx ty col grid :
  wf_dev dev → painting dev tx ty col grid (λ _ _, False) dev.
Proof.
  intros Hwf. split_and!; [by apply evolved_refl| |done].
  intros a b _ [].
Qed.

Lemma painting_iff dev tx ty col grid (done done' : Z → Z → Prop) d :
  (∀ a b, grid a b → (done' a b ↔ done a b)) →
  painting dev tx ty col grid done d → painting dev tx ty col grid done' d.
Proof.
  intros Hiff (Hev & Hcells & Hrest). split_and!; [done| |].
  - intros a b Hg Hd. apply Hcells; [done|]. by apply Hiff.
  - intros px py Hpx Hpy Hno. apply Hrest; [done..|].
    intros a b Hg Hd. apply Hno; [done|]. by apply Hiff.
Qed.

(** Painting one more cell, provided distinct cells go to distinct pixels. *)
Lemma painting_step dev tx ty col (grid done : Z → Z → Prop) d a b :
  (∀ a b a' b', grid a b → grid a' b' →
     tx a b = tx a' b' → ty a b = ty a' b' → a = a' ∧ b = b') →
  painting dev tx ty col grid done d →
  grid a b → ¬ done a b → 0 <= tx a b → 0 <= ty a b →
  ∃ d',
    draw_pixel d (tx a b) (ty a b) (col a b) = Some d'
    ∧ painting dev tx ty col grid (λ a' b', done a' b' ∨ (a' = a ∧ b' = b)) d'.
Proof.
  intros Hinj (Hev & Hcells & Hrest) Hg Hnd Hx Hy.
  pose proof Hev as (Hwf & Hs & _).
  destruct (shape_fields _ _ Hs) as (Hw & Hh & _ & _).
  destruct (draw_pixel_evolved d (tx a b) (ty a b) (col a b) Hwf Hx Hy)
    as (d' & Hd & Hev').
  exists d'. split; [done|]. split_and!.
  - by apply (evolved_trans dev d d').
  - intros a' b' Hg' Hd' Hpx Hpy.
    rewrite (get_pixel_draw_pixel d d' (tx a b) (ty a b) (col a b))
      by (done || lia).
    case_decide as E.
    + destruct (Hinj a' b' a b Hg' Hg) as [-> ->]; [apply E..|done].
    + destruct Hd' as [Hd'|[-> ->]]; [by apply Hcells|tauto].
  - intros px py Hpx Hpy Hno.
    rewrite (get_pixel_draw_pixel d d' (tx a b) (ty a b) (col a b))
      by (done || lia).
    case_decide as E.
    + exfalso. apply (Hno a b Hg); [by right|]. by destruct E.
    + apply Hrest; [done..|]. intros a' b' Hg' Hd'. apply Hno; [done|by left].
Qed.

(** Two nested counting loops whose body is one [draw_pixel] per cell. *)
Lemma grid_paint dev (body : Z → Z → ssd1306_t → option ssd1306_t)
    (tx ty : Z → Z → Z) (col : Z → Z → bool) a0 na b0 nb :
  let grid := λ a b, a0 <= a < a0 + na ∧ b0 <= b < b0 + nb in
  wf_dev dev → 0 <= na → 0 <= nb →
  (∀ a b d, grid a b → evolved dev d →
     body a b d = draw_pixel d (tx a b) (ty a b) (col a b)) →
  (∀ a b, grid a b → 0 <= tx a b ∧ 0 <= ty a b) →
  (∀ a b a' b', grid a b → grid a' b' →
     tx a b = tx a' b' → ty a b = ty a' b' → a = a' ∧ b = b') →
  ∃ dev',
    for_each (seqZ a0 na) (λ a d, for_each (seqZ b0 nb) (body a) d) dev = Some dev'
    ∧ painting dev tx ty col grid (λ _ _, True) dev'.
Proof.
  intros grid Hwf Hna Hnb Hbody Hpos Hinj.
  destruct (for_each_seqZ_inv
              (λ a d, painting dev tx ty col grid (λ a' _, a' < a) d)
              (λ a d, for_each (seqZ b0 nb) (body a) d) a0 na dev)
    as (dev' & Hrun & Hp); [done| | |].
  - apply (painting_iff _ _ _ _ _ (λ _ _, False)); [|by apply painting_start].
    intros a b [Ha _]. split; [lia|done].
  - intros a d Ha Hp.
    destruct (for_each_seqZ_inv
                (λ b d, painting dev tx ty col grid
                          (λ a' b', a' < a ∨ (a' = a ∧ b' < b)) d)
                (body a) b0 nb d)
      as (d' & Hrun & Hp'); [done| | |].
    + apply (painting_iff _ _ _ _ _ (λ a' _, a' < a)); [|done].
      intros a' b' [_ Hb']. split; [intros [?|[_ ?]]; [done|lia]|by left].
    + intros b d1 Hb Hp1.
      assert (Hg : grid a b) by (unfold grid; lia).
      destruct (Hpos a b Hg) as [Hx Hy].
      destruct (painting_step _ _ _ _ _ _ d1 a b Hinj Hp1 Hg) as (d2 & Hd & Hp2);
        [lia|done..|].
      exists d2. rewrite Hbody by (done || apply Hp1). split; [done|].
      eapply painting_iff; [|exact Hp2].
      intros a' b' _. cbn beta. lia.
    + exists d'. split; [done|].
      eapply painting_iff; [|exact Hp'].
      intros a' b' [_ Hb']. cbn beta. lia.
  - exists dev'. split; [done|].
    eapply painting_iff; [|exact Hp].
    intros a b [Ha _]. cbn beta. split; [lia|done].
Qed.

(** ** Clearing and filling *)

Lemma seqZ_max m n : seqZ m n = seqZ m (Z.max 0 n).
Proof.
  destruct (decide (0 <= n)) as [H|H]; [by rewrite Z.max_r by lia|].
  by rewrite Z.max_l, !seqZ_nil by lia.
Qed.

Lemma evolved_wf d0 d : evolved d0 d → wf_dev d.
Proof. by intros (? & _). Qed.

Lemma evolved_sibling d0 d1 d2 : evolved d0 d1 → evolved d0 d2 → evolved d1 d2.
Proof.
  intros (_ & Hs1 & Hc1) (Hwf2 & Hs2 & Hc2). split_and!; [done|congruence..].
Qed.

Lemma fill_rect_evolved dev x_in y_in w h color :
  wf_dev dev →
  ∃ dev',
    fill_rect dev x_in y_in w h color = Some dev' ∧ evolved dev dev'
    ∧ ∀ px py, 0 <= px < width dev → 0 <= py < height dev →
        get_pixel dev' px py
        = if decide (Z.max 0 x_in <= px < u16 (Z.max 0 x_in + w)
                     ∧ Z.max 0 y_in <= py < u16 (Z.max 0 y_in + h))
          then Some color else get_pixel dev px py.
Proof.
  intros Hwf. unfold fill_rect.
  replace (if x_in <? 0 then 0 else x_in) with (Z.max 0 x_in)
    by (destruct (x_in <? 0) eqn:E; [apply Z.ltb_lt in E|apply Z.ltb_ge in E]; lia).
  replace (if y_in <? 0 then 0 else y_in) with (Z.max 0 y_in)
    by (destruct (y_in <? 0) eqn:E; [apply Z.ltb_lt in E|apply Z.ltb_ge in E]; lia).
  set (x0 := Z.max 0 x_in). set (y0 := Z.max 0 y_in).
  set (xe := if width dev <? u16 (x0 + w) then width dev else u16 (x0 + w)).
  set (ye := if height dev <? u16 (y0 + h) then height dev else u16 (y0 + h)).
  assert (Hxe : xe = Z.min (width dev) (u16 (x0 + w))).
  { unfold xe. destruct (width dev <? u16 (x0 + w)) eqn:E;
      [apply Z.ltb_lt in E|apply Z.ltb_ge in E]; lia. }
  assert (Hye : ye = Z.min (height dev) (u16 (y0 + h))).
  { unfold ye. destruct (height dev <? u16 (y0 + h)) eqn:E;
      [apply Z.ltb_lt in E|apply Z.ltb_ge in E]; lia. }
  rewrite (seqZ_max x0), (seqZ_max y0).
  destruct (grid_paint dev (λ i j d, draw_pixel d i j color)
              (λ a _, a) (λ _ b, b) (λ _ _, color)
              x0 (Z.max 0 (xe - x0)) y0 (Z.max 0 (ye - y0)))
    as (dev' & Hrun & Hev & Hcells & Hrest); [done|lia|lia|done| | |].
  - intros a b [Ha Hb]. unfold x0, y0 in *. lia.
  - done.
  - exists dev'. split_and!; [done|done|].
    intros px py Hpx Hpy. case_decide as E.
    + apply (Hcells px py); [|done..]. cbn beta. lia.
    + apply Hrest; [done..|]. intros a b Hg _ [-> ->]. cbn beta in Hg. lia.
Qed.


(** X1: on a well-formed device [fill_rect] (so [ssd1306_fill_rect] and
    [ssd1306_clear_rect]) never faults; with [x0 = max 0 x_in] and
    [y0 = max 0 y_in] it gives the colour to exactly the in-panel pixels with
    [x0 <= px < (x0 + w) mod 2^16] and [y0 <= py < (y0 + h) mod 2^16] and
    leaves the others as they were.  A negative origin is moved to 0 without
    shortening the rectangle. *)
Theorem fill_rect_pixels dev x_in y_in w h color :
  wf_dev dev →
  ∃ dev',
    fill_rect dev x_in y_in w h color = Some dev' ∧ wf_dev dev'
    ∧ ∀ px py, 0 <= px < width dev → 0 <= py < height dev →
        get_pixel dev' px py
        = if decide (Z.max 0 x_in <= px < u16 (Z.max 0 x_in + w)
                     ∧ Z.max 0 y_in <= py < u16 (Z.max 0 y_in + h))
          then Some color else get_pixel dev px py.
Proof.
  intros Hwf.
  destruct (fill_rect_evolved dev x_in y_in w h color Hwf) as (dev' & Hrun & Hev & Hpix).
  exists dev'. split_and!; [done|by apply (evolved_wf dev)|done].
Qed.

Lemma fill_rect_pixels_witness :
  let dev := Ssd1306 8 16 2 0x3C 0 false (Some (replicate 17 0)) 16 in
  ∃ dev',
    fill_rect dev (-5) 3 10 4 true = Some dev' ∧ wf_dev dev'
    ∧ ∀ px py, 0 <= px < width dev → 0 <= py < height dev →
        get_pixel dev' px py
        = if decide (Z.max 0 (-5) <= px < u16 (Z.max 0 (-5) + 10)
                     ∧ Z.max 0 3 <= py < u16 (Z.max 0 3 + 4))
          then Some true else get_pixel dev px py.
Proof.
  intros dev. apply (fill_rect_pixels dev (-5) 3 10 4 true).
  apply wf_devb_spec. reflexivity.
Defined.

Lemma sum_bits_replicate_0 n : sum_bits (replicate n 0) = 0.
Proof. induction n as [|n IH]; [done|]. cbn [replicate]. by rewrite sum_bits_cons, IH. Qed.

Lemma wf_block_cons dev :
  wf_dev dev →
  ∃ c rest, buff dev = Some (c :: rest) ∧ block dev = c :: rest
            ∧ Z.of_nat (length rest) = buff_size dev.
Proof.
  intros Hwf. pose proof (wf_live _ Hwf) as Hl. pose proof (wf_len _ Hwf) as Hn.
  destruct (block dev) as [|c rest] eqn:Hb.
  - cbn [length] in Hn. pose proof (wf_size _ Hwf). pose proof (wf_pages _ Hwf).
    destruct Hwf. unfold is_u16 in *. nia.
  - exists c, rest. split_and!; [done..|]. cbn [length] in Hn. lia.
Qed.

Lemma clear_all_dark_evolved dev :
  wf_dev dev →
  ∃ dev',
    ssd1306_clear dev = Some dev' ∧ evolved dev dev'
    ∧ set_bit_count dev' = 0
    ∧ ∀ px py, 0 <= px < width dev → 0 <= py < height dev →
        get_pixel dev' px py = Some false.
Proof.
  intros Hwf. destruct (wf_block_cons dev Hwf) as (c & rest & Hb & Hblk & Hlen).
  rewrite (clear_spec dev c rest Hb Hlen).
  set (dev' := set_buff dev (Some (c :: replicate (Z.to_nat (buff_size dev)) 0))).
  assert (Hwf' : wf_dev dev').
  { apply set_buff_wf; [done| |].
    - rewrite Hblk. cbn [length]. rewrite length_replicate. lia.
    - apply Forall_cons. split.
      + pose proof (wf_bytes _ Hwf) as Hall. rewrite Hblk in Hall.
        by apply Forall_cons in Hall as [? _].
      + apply Forall_replicate. unfold is_u8. lia. }
  exists dev'. split_and!; [done| | |].
  - split_and!; [done|done|]. unfold byte_at, dev'.
    rewrite buff_read_set_buff, buff_read_block by (done || lia).
    by rewrite Hblk.
  - unfold set_bit_count. rewrite frame_buffer_drop by done.
    unfold dev'. rewrite block_set_buff. cbn [drop]. apply sum_bits_replicate_0.
  - intros px py Hpx Hpy. rewrite get_pixel_in by done.
    unfold dev'. rewrite block_set_buff.
    pose proof (pixel_index_range dev px py Hwf Hpx Hpy) as Hi.
    cbn [set_buff width].
    replace (Z.to_nat (px + width dev * (py / 8) + 1))
      with (S (Z.to_nat (px + width dev * (py / 8)))) by lia.
    change ((c :: ?l) !! S ?n) with (l !! n). rewrite lookup_replicate_2 by lia.
    cbn [mbind option_bind]. by rewrite Z.bits_0.
Qed.


(** X2: on a well-formed device [ssd1306_clear] succeeds, keeps the device
    well formed and the control byte slot untouched, and afterwards every
    pixel query answers dark and no bit of the frame buffer is set. *)
Theorem clear_all_dark dev :
  wf_dev dev →
  ∃ dev',
    ssd1306_clear dev = Some dev' ∧ evolved dev dev'
    ∧ set_bit_count dev' = 0
    ∧ ∀ px py, 0 <= px < width dev → 0 <= py < height dev →
        get_pixel dev' px py = Some false.
Proof. apply clear_all_dark_evolved. Qed.

Lemma clear_all_dark_witness :
  let dev := Ssd1306 8 16 2 0x3C 0 false (Some (replicate 17 0xA5)) 16 in
  ∃ dev',
    ssd1306_clear dev = Some dev' ∧ evolved dev dev'
    ∧ set_bit_count dev' = 0
    ∧ ∀ px py, 0 <= px < width dev → 0 <= py < height dev →
        get_pixel dev' px py = Some false.
Proof. intros dev. apply (clear_all_dark dev). apply wf_devb_spec. reflexivity. Defined.

(** X3: clearing the rectangle that covers the whole panel is the same as
    [ssd1306_clear]: on a well-formed device
    [ssd1306_clear_rect(0, 0, width, height)] and [ssd1306_clear] return the
    same device. *)
Theorem clear_rect_whole_panel dev :
  wf_dev dev →
  ssd1306_clear_rect dev 0 0 (width dev) (height dev) = ssd1306_clear dev
  ∧ is_Some (ssd1306_clear dev).
Proof.
  intros Hwf. unfold ssd1306_clear_rect.
  destruct (fill_rect_evolved dev 0 0 (width dev) (height dev) false Hwf)
    as (d1 & Hrun1 & Hev1 & Hpix1).
  destruct (clear_all_dark_evolved dev Hwf) as (d2 & Hrun2 & Hev2 & _ & Hpix2).
  rewrite Hrun1, Hrun2. split; [|by eexists]. f_equal.
  apply dev_ext_pixels; [by apply (evolved_wf dev)|by apply (evolved_sibling dev)|].
  destruct Hev2 as (_ & Hs2 & _). destruct (shape_fields _ _ Hs2) as (Hw & Hh & _ & _).
  rewrite Hw, Hh. intros x y Hx Hy.
  rewrite Hpix1, Hpix2 by done.
  rewrite decide_True; [done|].
  rewrite !Z.max_l, !Z.add_0_l, !u16_small by (apply Hwf || lia). lia.
Qed.

Lemma clear_rect_whole_panel_witness :
  let dev := Ssd1306 8 16 2 0x3C 0 false (Some (replicate 17 0xA5)) 16 in
  ssd1306_clear_rect dev 0 0 (width dev) (height dev) = ssd1306_clear dev
  ∧ is_Some (ssd1306_clear dev).
Proof.
  intros dev. apply (clear_rect_whole_panel dev). apply wf_devb_spec. reflexivity.
Defined.

(** ** Protocol calls *)

(** X4: on a well-formed device [ssd1306_show] sends the six window commands
    0x21, 0, [width - 1], 0x22, 0, [pages - 1] (the last of each truncated to a
    byte) and then one frame holding 0x40 followed by the whole frame buffer;
    it only writes the control byte slot, so the frame buffer and every pixel
    are as before, and a second [ssd1306_show] returns the same device. *)
Theorem show_sends_frame_buffer dev bus :
  wf_dev dev →
  ∃ dev',
    ssd1306_show dev bus
    = Some (dev',
            bus
            ++ map (cmd_frame dev)
                   [0x21; 0x00; u8 (width dev - 1); 0x22; 0x00; u8 (pages dev - 1)]
            ++ [I2cFrame (i2c_inst dev) (i2c_addr dev)
                         (0x40 :: frame_buffer dev) false])
    ∧ wf_dev dev'
    ∧ frame_buffer dev' = frame_buffer dev
    ∧ (∀ px py, get_pixel dev' px py = get_pixel dev px py)
    ∧ ∀ bus', fst <$> ssd1306_show dev' bus' = Some dev'.
Proof.
  intros Hwf. destruct (wf_block_cons dev Hwf) as (c & rest & Hb & Hblk & Hlen).
  set (dev' := set_buff dev (Some (0x40 :: rest))).
  assert (Hwf' : wf_dev dev').
  { apply set_buff_wf; [done|by rewrite Hblk|].
    pose proof (wf_bytes _ Hwf) as Hall. rewrite Hblk in Hall.
    apply Forall_cons in Hall as [_ Hall].
    apply Forall_cons. split; [unfold is_u8; lia|done]. }
  assert (Hfb : frame_buffer dev' = frame_buffer dev).
  { rewrite !frame_buffer_drop by done. unfold dev'.
    by rewrite block_set_buff, Hblk. }
  exists dev'. split_and!; [|done|done| |].
  - rewrite (show_spec dev bus c rest Hb Hlen).
    rewrite (frame_buffer_drop dev Hwf), Hblk. reflexivity.
  - intros px py. unfold get_pixel, dev'. cbn [set_buff width height].
    destruct ((0 <=? px) && (px <? width dev) && (0 <=? py) && (py <? height dev))
      eqn:E; [|done].
    apply andb_prop in E as [[[Hx0%Z.leb_le _]%andb_prop Hy0%Z.leb_le]%andb_prop _].
    assert (0 <= px + width dev * (py / 8)).
    { pose proof (wf_width _ Hwf) as [? _].
      assert (0 <= py / 8) by (apply Z.div_pos; lia). nia. }
    rewrite buff_read_set_buff, buff_read_block by (done || lia).
    rewrite Hblk.
    replace (Z.to_nat (px + width dev * (py / 8) + 1))
      with (S (Z.to_nat (px + width dev * (py / 8)))) by lia.
    reflexivity.
  - intros bus'. by rewrite (show_spec dev' bus' 0x40 rest).
Qed.

Lemma show_sends_frame_buffer_witness :
  let dev := Ssd1306 8 16 2 0x3C 0 false (Some (replicate 17 0xA5)) 16 in
  ∃ dev',
    ssd1306_show dev []
    = Some (dev',
            []
            ++ map (cmd_frame dev)
                   [0x21; 0x00; u8 (width dev - 1); 0x22; 0x00; u8 (pages dev - 1)]
            ++ [I2cFrame (i2c_inst dev) (i2c_addr dev)
                         (0x40 :: frame_buffer dev) false])
    ∧ wf_dev dev'
    ∧ frame_buffer dev' = frame_buffer dev
    ∧ (∀ px py, get_pixel dev' px py = get_pixel dev px py)
    ∧ ∀ bus', fst <$> ssd1306_show dev' bus' = Some dev'.
Proof.
  intros dev. apply (show_sends_frame_buffer dev []). apply wf_devb_spec. reflexivity.
Defined.

(** X5: [ssd1306_invert] looks at the lowest bit of its argument only: it
    sends opcode 0xA7 (inverted) when [inv] is odd and 0xA6 (normal) when it
    is even, non-zero even values included. *)
Theorem invert_lowest_bit dev inv bus :
  ssd1306_invert dev inv bus
  = bus ++ [cmd_frame dev (if Z.odd inv then 0xA7 else 0xA6)].
Proof.
  unfold ssd1306_invert. rewrite write_command_frame. do 3 f_equal.
  change 1 with (Z.ones 1). rewrite Z.land_ones by lia. change (2 ^ 1) with 2.
  rewrite Zmod_odd. by destruct (Z.odd inv).
Qed.

(** X6: [ssd1306_deinit] leaves the buffer pointer NULL and the other fields
    alone, and a second call changes nothing more; on the device it returns,
    [ssd1306_clear], [ssd1306_show] and every in-panel [draw_pixel] have no
    defined result, while an off-panel [draw_pixel] is still a no-op. *)
Theorem deinit_then_use dev :
  let d := ssd1306_deinit dev in
  buff d = None ∧ shape d = shape dev ∧ ssd1306_deinit d = d
  ∧ ssd1306_clear d = None
  ∧ (∀ bus, ssd1306_show d bus = None)
  ∧ (∀ x y c, x < width d → y < height d → draw_pixel d x y c = None)
  ∧ (∀ x y c, width d <= x ∨ height d <= y → draw_pixel d x y c = Some d).
Proof.
  intros d.
  assert (Hn : buff d = None) by (unfold d, ssd1306_deinit; by destruct (buff dev) eqn:E).
  split_and!.
  - done.
  - unfold d, ssd1306_deinit. by destruct (buff dev) eqn:E; [|destruct dev; cbn in *; subst].
  - unfold ssd1306_deinit at 1. by rewrite Hn.
  - unfold ssd1306_clear. by rewrite Hn.
  - intros bus. unfold ssd1306_show, buff_write. by rewrite Hn.
  - intros x y c Hx Hy. unfold draw_pixel, buff_read.
    replace ((x <? width d) && (y <? height d)) with true
      by (symmetry; apply andb_true_intro; split; by apply Z.ltb_lt).
    by rewrite Hn.
  - intros x y c. apply draw_pixel_out.
Qed.

(** X7: when the allocation succeeds, [ssd1306_init] with 16-bit dimensions
    and a height that is a multiple of 8 returns true and a well-formed
    device with a frame buffer of [width * height / 8] bytes, after putting
    exactly 26 command frames on the bus: the 25 bring-up opcodes, every one
    a byte, then the scroll stop 0x2E. *)
Theorem init_success_well_formed malloc dev w h addr inst ext bus blk :
  is_u16 w → is_u16 h → h mod 8 = 0 →
  malloc (w * (h / 8) + 1) = Some blk →
  Z.of_nat (length blk) = w * (h / 8) + 1 → Forall is_u8 blk →
  ∃ dev' cmds,
    ssd1306_init malloc dev w h addr inst ext bus
    = (true, dev', bus ++ map (cmd_frame dev') (cmds ++ [0x2E]))
    ∧ wf_dev dev'
    ∧ width dev' = w ∧ height dev' = h
    ∧ Z.of_nat (length (frame_buffer dev')) = w * h / 8
    ∧ length cmds = 25%nat ∧ Forall is_u8 cmds.
Proof.
  intros Hw Hh Hmod Hm Hlen Hbytes.
  pose proof (init_alloc_success malloc dev w h addr inst ext bus blk Hm) as Hi.
  cbv zeta in Hi.
  set (dev' := Ssd1306 w h (h / 8) addr inst ext (Some blk) (w * (h / 8))) in *.
  assert (Hwf : wf_dev dev').
  { constructor; cbn; try done. apply Z.div_exact; lia. }
  exists dev', (init_commands dev'). split_and!; [|done|done|done| |reflexivity|].
  - rewrite Hi, map_app. reflexivity.
  - rewrite frame_buffer_drop, length_drop by done.
    change (block dev') with blk.
    assert (He : h = 8 * (h / 8)) by (apply Z.div_exact; lia).
    assert (Hwh : w * h = w * (h / 8) * 8) by (rewrite He at 1; ring).
    rewrite Hwh, Z.div_mul by lia.
    assert (Hn0 : 0 <= w * (h / 8)).
    { apply Z.mul_nonneg_nonneg; [apply Hw|apply Z.div_pos; [apply Hh|lia]]. }
    revert Hlen Hn0. generalize (w * (h / 8)). intros n Hlen Hn0. lia.
  - unfold init_commands.
    destruct (2 * height dev' <? width dev'), (external_vcc dev');
      repeat (apply Forall_cons; split); try apply Forall_nil.
    all: try apply u8_range.
    all: try exact I.
    all: split; [intros E; discriminate E|reflexivity].
Qed.

Lemma init_success_well_formed_witness :
  ∃ dev' cmds,
    ssd1306_init (λ n, Some (replicate (Z.to_nat n) 0xA5))
                 (Ssd1306 0 0 0 0 0 false None 0) 128 32 0x3C 0 false []
    = (true, dev', [] ++ map (cmd_frame dev') (cmds ++ [0x2E]))
    ∧ wf_dev dev'
    ∧ width dev' = 128 ∧ height dev' = 32
    ∧ Z.of_nat (length (frame_buffer dev')) = 128 * 32 / 8
    ∧ length cmds = 25%nat ∧ Forall is_u8 cmds.
Proof.
  apply (init_success_well_formed (λ n, Some (replicate (Z.to_nat n) 0xA5))
           _ 128 32 0x3C 0 false [] (replicate 513 0xA5));
    [unfold is_u16; lia | unfold is_u16; lia | reflexivity | reflexivity
    | reflexivity | apply Forall_replicate; unfold is_u8; lia].
Defined.

(** ** Pixel writes *)

(** X8: writing a pixel and querying it: on a well-formed device [draw_pixel]
    at an in-panel [(x, y)] succeeds, the query at [(x, y)] then returns the
    colour written, and every other pixel query returns what it did before. *)
Theorem draw_pixel_then_query dev x y color :
  wf_dev dev → 0 <= x < width dev → 0 <= y < height dev →
  ∃ dev',
    draw_pixel dev x y color = Some dev' ∧ wf_dev dev'
    ∧ get_pixel dev' x y = Some color
    ∧ ∀ px py, (px, py) ≠ (x, y) → get_pixel dev' px py = get_pixel dev px py.
Proof.
  intros Hwf Hx Hy.
  destruct (draw_pixel_evolved dev x y color Hwf) as (dev' & Hd & Hwf' & Hs & _);
    [lia..|].
  destruct (shape_fields _ _ Hs) as (Hw & Hh & _ & _).
  exists dev'. split_and!; [done..| |].
  - rewrite (get_pixel_draw_pixel dev dev' x y color) by (done || lia).
    by rewrite decide_True.
  - intros px py Hne.
    destruct (decide (0 <= px < width dev ∧ 0 <= py < height dev)) as [[Hpx Hpy]|Hout].
    + rewrite (get_pixel_draw_pixel dev dev' x y color) by (done || lia).
      rewrite decide_False; [done|]. intros [-> ->]. done.
    + unfold get_pixel. rewrite Hw, Hh.
      replace ((0 <=? px) && (px <? width dev) && (0 <=? py) && (py <? height dev))
        with false; [done|].
      symmetry. apply not_true_is_false. intros E.
      apply andb_prop in E as [[[?%Z.leb_le ?%Z.ltb_lt]%andb_prop ?%Z.leb_le]%andb_prop
                                 ?%Z.ltb_lt].
      lia.
Qed.

Lemma draw_pixel_then_query_witness :
  let dev := Ssd1306 8 16 2 0x3C 0 false (Some (replicate 17 0xA5)) 16 in
  ∃ dev',
    draw_pixel dev 3 10 false = Some dev' ∧ wf_dev dev'
    ∧ get_pixel dev' 3 10 = Some false
    ∧ ∀ px py, (px, py) ≠ (3, 10) → get_pixel dev' px py = get_pixel dev px py.
Proof.
  intros dev. apply (draw_pixel_then_query dev 3 10 false);
    [apply wf_devb_spec; reflexivity | simpl; lia | simpl; lia].
Defined.

Lemma draw_pixel_queries dev x y c :
  wf_dev dev → 0 <= x → 0 <= y →
  ∃ d1, draw_pixel dev x y c = Some d1 ∧ evolved dev d1
        ∧ ∀ px py, 0 <= px < width dev → 0 <= py < height dev →
            get_pixel d1 px py
            = if decide (px = x ∧ py = y) then Some c else get_pixel dev px py.
Proof.
  intros Hwf Hx Hy.
  destruct (draw_pixel_evolved dev x y c Hwf Hx Hy) as (d1 & Hd & Hev).
  exists d1. split_and!; [done..|].
  intros px py Hpx Hpy. by apply (get_pixel_draw_pixel dev d1 x y c).
Qed.

(** X9: pixel writes compose as writes to independent cells: on a
    well-formed device a second [draw_pixel] at the same coordinates
    overrides the first (so writing the same colour twice equals writing it
    once), and two [draw_pixel] calls at different coordinates give the same
    device in either order. *)
Theorem draw_pixel_compose dev x y c1 c2 x' y' :
  wf_dev dev → 0 <= x → 0 <= y → 0 <= x' → 0 <= y' →
  (d ← draw_pixel dev x y c1; draw_pixel d x y c2) = draw_pixel dev x y c2
  ∧ ((x, y) ≠ (x', y') →
     (d ← draw_pixel dev x y c1; draw_pixel d x' y' c2)
     = (d ← draw_pixel dev x' y' c2; draw_pixel d x y c1))
  ∧ is_Some (draw_pixel dev x y c2).
Proof.
  intros Hwf Hx Hy Hx' Hy'.
  destruct (draw_pixel_queries dev x y c1 Hwf Hx Hy) as (d1 & Hd1 & Hev1 & Hp1).
  destruct (draw_pixel_queries dev x y c2 Hwf Hx Hy) as (d2 & Hd2 & Hev2 & Hp2).
  destruct (shape_fields _ _ (proj1 (proj2 Hev1))) as (Hw1 & Hh1 & _ & _).
  destruct (shape_fields _ _ (proj1 (proj2 Hev2))) as (Hw2 & Hh2 & _ & _).
  split_and!.
  - destruct (draw_pixel_queries d1 x y c2 (evolved_wf _ _ Hev1) Hx Hy)
      as (d12 & Hd12 & Hev12 & Hp12).
    rewrite Hd1, Hd2. cbn [mbind option_bind]. rewrite Hd12. f_equal.
    apply dev_ext_pixels; [by apply (evolved_wf dev)| |].
    + apply (evolved_sibling dev); [done|by apply (evolved_trans dev d1)].
    + rewrite Hw2, Hh2. intros px py Hpx Hpy.
      rewrite Hp12, Hp2, Hp1 by (done || lia). by case_decide.
  - intros Hne.
    destruct (draw_pixel_queries dev x' y' c2 Hwf Hx' Hy') as (d3 & Hd3 & Hev3 & Hp3).
    destruct (shape_fields _ _ (proj1 (proj2 Hev3))) as (Hw3 & Hh3 & _ & _).
    destruct (draw_pixel_queries d1 x' y' c2 (evolved_wf _ _ Hev1) Hx' Hy')
      as (d13 & Hd13 & Hev13 & Hp13).
    destruct (draw_pixel_queries d3 x y c1 (evolved_wf _ _ Hev3) Hx Hy)
      as (d31 & Hd31 & Hev31 & Hp31).
    rewrite Hd1, Hd3. cbn [mbind option_bind]. rewrite Hd13, Hd31. f_equal.
    pose proof (evolved_trans _ _ _ Hev1 Hev13) as HevA.
    pose proof (evolved_trans _ _ _ Hev3 Hev31) as HevB.
    apply dev_ext_pixels; [by apply (evolved_wf dev)|by apply (evolved_sibling dev)|].
    destruct (shape_fields _ _ (proj1 (proj2 HevB))) as (HwB & HhB & _ & _).
    rewrite HwB, HhB. intros px py Hpx Hpy.
    rewrite Hp13, Hp31, Hp1, Hp3 by (done || lia).
    repeat case_decide; try done.
    exfalso. apply Hne. f_equal; lia.
  - rewrite Hd2. by eexists.
Qed.

Lemma draw_pixel_compose_witness :
  let dev := Ssd1306 8 16 2 0x3C 0 false (Some (replicate 17 0xA5)) 16 in
  (d ← draw_pixel dev 3 10 true; draw_pixel d 3 10 false) = draw_pixel dev 3 10 false
  ∧ ((3, 10) ≠ (4, 1) →
     (d ← draw_pixel dev 3 10 true; draw_pixel d 4 1 false)
     = (d ← draw_pixel dev 4 1 false; draw_pixel d 3 10 true))
  ∧ is_Some (draw_pixel dev 3 10 false).
Proof.
  intros dev. apply (draw_pixel_compose dev 3 10 true false 4 1);
    [apply wf_devb_spec; reflexivity | lia ..].
Defined.

(** ** Vertical scroll, repeated *)

Lemma scroll_n_pixels down n : ∀ d,
  wf_dev d → scrollable d →
  ∃ d',
    scroll_n n down d = Some d' ∧ evolved d d'
    ∧ ∀ x y, 0 <= x < width d → 0 <= y < height d →
        get_pixel d' x y
        = get_pixel d x ((if down then y - Z.of_nat n else y + Z.of_nat n)
                         mod height d).
Proof.
  induction n as [|n IH]; intros d Hwf Hsc.
  - exists d. split_and!; [done|by apply evolved_refl|].
    intros x y Hx Hy. cbn [Z.of_nat].
    destruct down; rewrite ?Z.sub_0_r, ?Z.add_0_r; by rewrite Z.mod_small.
  - destruct (scroll_row_vert_spec d Hwf Hsc down) as (d1 & Hrun1 & Hev1 & Hb1 & _).
    pose proof (scroll_row_vert_pixels d d1 down Hwf Hsc Hev1 Hb1) as Hp1.
    pose proof (evolved_scrollable _ _ Hsc Hev1) as Hsc1.
    destruct (IH d1 (evolved_wf _ _ Hev1) Hsc1) as (d2 & Hrun2 & Hev2 & Hp2).
    destruct (shape_fields _ _ (proj1 (proj2 Hev1))) as (Hw & Hh & _ & _).
    exists d2. split_and!.
    + change (scroll_n (S n) down d)
        with (d' ← ssd1306_scroll_row_vert d down; scroll_n n down d').
      by rewrite Hrun1.
    + by apply (evolved_trans d d1).
    + intros x y Hx Hy. rewrite Hp2, Hh by lia.
      assert (HH : 0 < height d) by lia.
      rewrite Hp1 by (done || by apply Z.mod_pos_bound).
      f_equal. unfold source_row. destruct down.
      * rewrite Zminus_mod_idemp_l. f_equal. lia.
      * rewrite Zplus_mod_idemp_l. f_equal. lia.
Qed.

(** X10: a full turn: on a well-formed device with at least one page and at
    most 2^16 pixel bytes, [height] successive calls of
    [ssd1306_scroll_row_vert] in the same direction all succeed and bring
    back the device they started from; after [n] calls every pixel shows
    what the pixel [n] rows above (down) or below (up) showed, modulo the
    height. *)
Theorem scroll_row_vert_full_turn dev down n :
  wf_dev dev → scrollable dev →
  scroll_n (Z.to_nat (height dev)) down dev = Some dev
  ∧ ∃ dev',
      scroll_n n down dev = Some dev'
      ∧ ∀ x y, 0 <= x < width dev → 0 <= y < height dev →
          get_pixel dev' x y
          = get_pixel dev x ((if down then y - Z.of_nat n else y + Z.of_nat n)
                             mod height dev).
Proof.
  intros Hwf Hsc. split.
  - destruct (scroll_n_pixels down (Z.to_nat (height dev)) dev Hwf Hsc)
      as (d' & Hrun & Hev & Hp).
    rewrite Hrun. f_equal. apply dev_ext_pixels; [done..|].
    intros x y Hx Hy. rewrite Hp by done. f_equal.
    rewrite Z2Nat.id by lia. destruct down.
    + rewrite <- (Z.mod_small y (height dev)) at 2 by lia.
      replace (y - height dev) with (y + (-1) * height dev) by lia.
      apply Z_mod_plus_full.
    + rewrite <- (Z.mod_small y (height dev)) at 2 by lia.
      replace (y + height dev) with (y + 1 * height dev) by lia.
      apply Z_mod_plus_full.
  - destruct (scroll_n_pixels down n dev Hwf Hsc) as (d' & Hrun & _ & Hp).
    by exists d'.
Qed.

Lemma scroll_row_vert_full_turn_witness :
  let dev := Ssd1306 4 16 2 0x3C 0 false
                     (Some [0x40; 0x81; 0x00; 0xFF; 0x3C; 0x01; 0x80; 0x55; 0xAA]) 8 in
  scroll_n (Z.to_nat (height dev)) true dev = Some dev
  ∧ ∃ dev',
      scroll_n 5 true dev = Some dev'
      ∧ ∀ x y, 0 <= x < width dev → 0 <= y < height dev →
          get_pixel dev' x y
          = get_pixel dev x ((if true then y - Z.of_nat 5 else y + Z.of_nat 5)
                             mod height dev).
Proof.
  intros dev. apply (scroll_row_vert_full_turn dev true 5);
    [apply wf_devb_spec; reflexivity | split; simpl; lia].
Defined.

(** ** Lines: axis-aligned runs, connectedness *)

Lemma half_up_succ k a b :
  0 < b → 0 <= a <= b →
  half_up (k + 1) a b = half_up k a b ∨ half_up (k + 1) a b = half_up k a b + 1.
Proof.
  intros Hb Ha. destruct (half_up_step k a b Hb Ha) as [Hup Hstay].
  destruct (half_up_rem_up k a b Hb) as [_ Hr].
  destruct (decide (2 * b <= rem_up k a b + 2 * a)) as [H|H].
  - right. by apply Hup.
  - left. apply Hstay. lia.
Qed.

(** X11: a horizontal or vertical line is the straight run between its
    endpoints: for endpoints at most 16383 apart with [x1 = x2] or [y1 = y2],
    [ssd1306_draw_line] on a well-formed device sets exactly the in-panel
    pixels of the segment and changes no other pixel. *)
Theorem draw_line_axis_aligned dev x1 y1 x2 y2 :
  wf_dev dev → is_u16 x1 → is_u16 y1 → is_u16 x2 → is_u16 y2 →
  Z.abs (x2 - x1) <= 16383 → Z.abs (y2 - y1) <= 16383 →
  x1 = x2 ∨ y1 = y2 →
  ∃ dev',
    ssd1306_draw_line dev x1 y1 x2 y2 = Some dev'
    ∧ ∀ px py, 0 <= px < width dev → 0 <= py < height dev →
        get_pixel dev' px py
        = if decide (Z.min x1 x2 <= px <= Z.max x1 x2
                     ∧ Z.min y1 y2 <= py <= Z.max y1 y2)
          then Some true else get_pixel dev px py.
Proof.
  intros Hwf Hx1 Hy1 Hx2 Hy2 Hdx Hdy Haxis.
  destruct (draw_line_pts x1 y1 x2 y2) as [pts|] eqn:Hpts;
    [|by rewrite draw_line_pts_closed in Hpts].
  destruct (plot_all_spec pts dev Hwf) as (dev' & Hplot & _ & _ & _ & Hpix);
    [by apply (line_pts_nonneg x1 y1 x2 y2)|].
  exists dev'. split; [by rewrite draw_line_plots, Hpts|].
  intros px py Hpx Hpy. rewrite Hpix by done.
  assert (Hiff : (px, py) ∈ pts
                 ↔ Z.min x1 x2 <= px <= Z.max x1 x2 ∧ Z.min y1 y2 <= py <= Z.max y1 y2).
  { rewrite draw_line_pts_closed in Hpts by done. injection Hpts as <-.
    destruct (Z.abs (y2 - y1) <? Z.abs (x2 - x1)) eqn:E;
      [apply Z.ltb_lt in E|apply Z.ltb_ge in E];
      rewrite list_elem_of_fmap; unfold shallow_pt, steep_pt.
    - destruct Haxis as [->| ->]; [lia|].
      replace (Z.abs (y2 - y2)) with 0 by lia. split.
      + intros (k & [= -> ->] & Hk%elem_of_seqZ). rewrite half_up_zero by lia.
        destruct (x2 - x1 <? 0) eqn:Es;
          [apply Z.ltb_lt in Es|apply Z.ltb_ge in Es]; lia.
      + intros [Hbx Hby].
        exists (Z.abs (px - x1)). rewrite half_up_zero by lia. split.
        * f_equal; [|lia].
          destruct (x2 - x1 <? 0) eqn:Es;
            [apply Z.ltb_lt in Es|apply Z.ltb_ge in Es]; lia.
        * apply elem_of_seqZ. lia.
    - assert (Hx : x1 = x2) by (destruct Haxis; lia). subst x2.
      replace (Z.abs (x1 - x1)) with 0 by lia. split.
      + intros (k & [= -> ->] & Hk%elem_of_seqZ). rewrite half_up_zero by lia.
        destruct (y2 - y1 <? 0) eqn:Es;
          [apply Z.ltb_lt in Es|apply Z.ltb_ge in Es]; lia.
      + intros [Hbx Hby].
        exists (Z.abs (py - y1)). rewrite half_up_zero by lia. split.
        * f_equal; [lia|].
          destruct (y2 - y1 <? 0) eqn:Es;
            [apply Z.ltb_lt in Es|apply Z.ltb_ge in Es]; lia.
        * apply elem_of_seqZ. lia. }
  case_decide as E1; case_decide as E2; try done; tauto.
Qed.

Lemma draw_line_axis_aligned_witness :
  let dev := Ssd1306 8 16 2 0x3C 0 false (Some (replicate 17 0)) 16 in
  ∃ dev',
    ssd1306_draw_line dev 6 3 1 3 = Some dev'
    ∧ ∀ px py, 0 <= px < width dev → 0 <= py < height dev →
        get_pixel dev' px py
        = if decide (Z.min 6 1 <= px <= Z.max 6 1 ∧ Z.min 3 3 <= py <= Z.max 3 3)
          then Some true else get_pixel dev px py.
Proof.
  intros dev. apply (draw_line_axis_aligned dev 6 3 1 3);
    [apply wf_devb_spec; reflexivity | unfold is_u16; lia ..
    | simpl; lia | simpl; lia | by right].
Defined.

(** X12: the plotted points of a line form a connected chain inside the
    bounding box of the endpoints: for endpoints at most 16383 apart
    [ssd1306_draw_line] plots [max |dx| |dy| + 1] points, each within the
    box, and each next point differs from the previous one by at most 1 in
    both coordinates and by exactly 1 in at least one. *)
Theorem draw_line_connected dev x1 y1 x2 y2 :
  is_u16 x1 → is_u16 y1 → is_u16 x2 → is_u16 y2 →
  Z.abs (x2 - x1) <= 16383 → Z.abs (y2 - y1) <= 16383 →
  ∃ pts,
    draw_line_pts x1 y1 x2 y2 = Some pts
    ∧ ssd1306_draw_line dev x1 y1 x2 y2 = plot_all pts dev
    ∧ Z.of_nat (length pts) = Z.max (Z.abs (x2 - x1)) (Z.abs (y2 - y1)) + 1
    ∧ (∀ p, p ∈ pts →
         Z.min x1 x2 <= p.1 <= Z.max x1 x2 ∧ Z.min y1 y2 <= p.2 <= Z.max y1 y2)
    ∧ ∀ (k : nat) p q, pts !! k = Some p → pts !! S k = Some q →
        Z.abs (q.1 - p.1) <= 1 ∧ Z.abs (q.2 - p.2) <= 1
        ∧ (Z.abs (q.1 - p.1) = 1 ∨ Z.abs (q.2 - p.2) = 1).
Proof.
  intros Hx1 Hy1 Hx2 Hy2 Hdx Hdy.
  pose proof (draw_line_pts_closed x1 y1 x2 y2 Hx1 Hy1 Hx2 Hy2 Hdx Hdy) as Hpts.
  cbv zeta in Hpts.
  set (dx := Z.abs (x2 - x1)) in *. set (dy := Z.abs (y2 - y1)) in *.
  set (sx := if x2 - x1 <? 0 then -1 else 1) in *.
  set (sy := if y2 - y1 <? 0 then -1 else 1) in *.
  assert (Hsx : sx = 1 ∧ x1 <= x2 ∨ sx = -1 ∧ x2 < x1).
  { unfold sx. destruct (x2 - x1 <? 0) eqn:E;
      [apply Z.ltb_lt in E|apply Z.ltb_ge in E]; lia. }
  assert (Hsy : sy = 1 ∧ y1 <= y2 ∨ sy = -1 ∧ y2 < y1).
  { unfold sy. destruct (y2 - y1 <? 0) eqn:E;
      [apply Z.ltb_lt in E|apply Z.ltb_ge in E]; lia. }
  assert (Hdx' : dx = Z.abs (x2 - x1)) by done.
  assert (Hdy' : dy = Z.abs (y2 - y1)) by done.
  eexists. split; [exact Hpts|]. split; [by rewrite draw_line_plots, Hpts|].
  destruct (dy <? dx) eqn:E; [apply Z.ltb_lt in E|apply Z.ltb_ge in E].
  - split_and!.
    + rewrite length_fmap, length_seqZ. lia.
    + intros p (k & -> & Hk%elem_of_seqZ)%list_elem_of_fmap.
      pose proof (half_up_bounds k dy dx). unfold shallow_pt. cbn [fst snd]. nia.
    + intros k p q Hp Hq. rewrite list_lookup_fmap in Hp, Hq.
      destruct (seqZ 0 (dx + 1) !! k) as [a|] eqn:Ha; [|done].
      destruct (seqZ 0 (dx + 1) !! S k) as [b|] eqn:Hb; [|done].
      apply lookup_seqZ in Ha as [-> _]. apply lookup_seqZ in Hb as [-> Hb].
      injection Hp as <-. injection Hq as <-. unfold shallow_pt. cbn [fst snd].
      replace (0 + Z.of_nat (S k)) with (0 + Z.of_nat k + 1) by lia.
      destruct (half_up_succ (0 + Z.of_nat k) dy dx) as [-> | ->]; [lia..| |]; lia.
  - destruct (decide (dy = 0)) as [Hz|Hnz].
    + assert (Hz' : dx = 0) by lia. rewrite Hz. change (seqZ 0 (0 + 1)) with [0].
      cbn [fmap list_fmap]. unfold steep_pt.
      rewrite Hz', half_up_zero, !Z.mul_0_r, !Z.add_0_r by lia. split_and!.
      * cbn [length]. lia.
      * intros p ->%list_elem_of_singleton. cbn [fst snd]. lia.
      * intros k p q _ Hq. by destruct k.
    + split_and!.
      * rewrite length_fmap, length_seqZ. lia.
      * intros p (k & -> & Hk%elem_of_seqZ)%list_elem_of_fmap.
        pose proof (half_up_bounds k dx dy). unfold steep_pt. cbn [fst snd]. nia.
      * intros k p q Hp Hq. rewrite list_lookup_fmap in Hp, Hq.
        destruct (seqZ 0 (dy + 1) !! k) as [a|] eqn:Ha; [|done].
        destruct (seqZ 0 (dy + 1) !! S k) as [b|] eqn:Hb; [|done].
        apply lookup_seqZ in Ha as [-> _]. apply lookup_seqZ in Hb as [-> Hb].
        injection Hp as <-. injection Hq as <-. unfold steep_pt. cbn [fst snd].
        replace (0 + Z.of_nat (S k)) with (0 + Z.of_nat k + 1) by lia.
        destruct (half_up_succ (0 + Z.of_nat k) dx dy) as [-> | ->]; [lia..| |]; lia.
Qed.

Lemma draw_line_connected_witness :
  let dev := Ssd1306 8 16 2 0x3C 0 false (Some (replicate 17 0)) 16 in
  ∃ pts,
    draw_line_pts 7 2 1 15 = Some pts
    ∧ ssd1306_draw_line dev 7 2 1 15 = plot_all pts dev
    ∧ Z.of_nat (length pts) = Z.max (Z.abs (1 - 7)) (Z.abs (15 - 2)) + 1
    ∧ (∀ p, p ∈ pts →
         Z.min 7 1 <= p.1 <= Z.max 7 1 ∧ Z.min 2 15 <= p.2 <= Z.max 2 15)
    ∧ ∀ (k : nat) p q, pts !! k = Some p → pts !! S k = Some q →
        Z.abs (q.1 - p.1) <= 1 ∧ Z.abs (q.2 - p.2) <= 1
        ∧ (Z.abs (q.1 - p.1) = 1 ∨ Z.abs (q.2 - p.2) = 1).
Proof.
  intros dev. apply (draw_line_connected dev 7 2 1 15);
    [unfold is_u16; lia .. | simpl; lia | simpl; lia].
Defined.

(** ** Rectangle outline: the regular case and the runaway loop *)

(** X13: for a rectangle of at least 1x1 with a non-negative origin and its
    far corner inside [int16_t], [ssd1306_draw_rect] on a well-formed device
    sets exactly the in-panel pixels on the border of
    [[x, x + w) x [y, y + h)] and changes no other pixel; with [h = 1] or
    [w = 1] that border is a single run. *)
Theorem draw_rect_outline dev x y w h :
  wf_dev dev → 0 <= x → 0 <= y → 1 <= w → 1 <= h →
  x + w <= 32767 → y + h <= 32767 →
  ∃ dev',
    ssd1306_draw_rect dev x y w h = Some dev'
    ∧ ∀ px py, 0 <= px < width dev → 0 <= py < height dev →
        get_pixel dev' px py
        = if decide (x <= px < x + w ∧ y <= py < y + h
                     ∧ (px = x ∨ px = x + w - 1 ∨ py = y ∨ py = y + h - 1))
          then Some true else get_pixel dev px py.
Proof.
  intros Hwf Hx Hy Hw Hh Hbx Hby.
  assert (Hiw : i16 w = w) by (apply i16_small; unfold is_i16; lia).
  assert (Hih : i16 h = h) by (apply i16_small; unfold is_i16; lia).
  pose proof (draw_rect_pts_run x y w h) as Hpts.
  rewrite Hiw, Hih in Hpts. specialize (Hpts ltac:(unfold is_i16; lia)
    ltac:(unfold is_i16; lia) Hbx Hby).
  pose proof (rect_pts_nonneg x y w h) as Hnn. rewrite Hiw, Hih in Hnn.
  destruct (plot_all_spec _ dev Hwf Hnn) as (dev' & Hplot & _ & _ & _ & Hpix).
  exists dev'. split; [by rewrite draw_rect_plots, Hpts|].
  intros px py Hpx Hpy. rewrite Hpix by done.
  assert (Hu : ∀ z, 0 <= z <= 32767 → u16 z = z)
    by (intros z Hz; apply u16_small; unfold is_u16; lia).
  assert (Hiff : (px, py) ∈ (seqZ x w ≫= rect_row_pair y h)
                            ++ (seqZ y h ≫= rect_col_pair x w)
                 ↔ x <= px < x + w ∧ y <= py < y + h
                   ∧ (px = x ∨ px = x + w - 1 ∨ py = y ∨ py = y + h - 1)).
  { rewrite elem_of_app, elem_of_rect_rows, elem_of_rect_cols. cbn [fst snd].
    split.
    - intros [(i & Hi & -> & Hrow)|(i & Hi & -> & Hcol)].
      + rewrite (Hu i) by lia. rewrite !Hu in Hrow by lia. lia.
      + rewrite (Hu i) by lia. rewrite !Hu in Hcol by lia. lia.
    - intros (Hpx' & Hpy' & Hedge).
      destruct (decide (py = y ∨ py = y + h - 1)) as [Hrow|Hrow].
      + left. exists px. rewrite !Hu by lia. lia.
      + right. exists py. rewrite !Hu by lia. lia. }
  case_decide as E1; case_decide as E2; try done; tauto.
Qed.

Lemma draw_rect_outline_witness :
  let dev := Ssd1306 8 16 2 0x3C 0 false (Some (replicate 17 0)) 16 in
  ∃ dev',
    ssd1306_draw_rect dev 1 2 5 1 = Some dev'
    ∧ ∀ px py, 0 <= px < width dev → 0 <= py < height dev →
        get_pixel dev' px py
        = if decide (1 <= px < 1 + 5 ∧ 2 <= py < 2 + 1
                     ∧ (px = 1 ∨ px = 1 + 5 - 1 ∨ py = 2 ∨ py = 2 + 1 - 1))
          then Some true else get_pixel dev px py.
Proof.
  intros dev. apply (draw_rect_outline dev 1 2 5 1);
    [apply wf_devb_spec; reflexivity | lia ..].
Defined.

Lemma rect_loop_h_runaway x y w h fuel : ∀ dev i,
  wf_dev dev → is_i16 i → 32767 < x + i16 w →
  rect_loop_h fuel x y w h dev i = None.
Proof.
  induction fuel as [|fuel IH]; intros dev i Hwf Hi Hb; [done|].
  cbn [rect_loop_h].
  replace (i <? x + i16 w) with true
    by (symmetry; apply Z.ltb_lt; unfold is_i16 in Hi; lia).
  destruct (draw_pixel_wf dev (u16 i) (u16 y) true Hwf) as (d1 & -> & Hwf1 & _);
    [apply u16_range..|].
  cbn [mbind option_bind].
  destruct (draw_pixel_wf d1 (u16 i) (u16 (y + h - 1)) true Hwf1) as (d2 & -> & Hwf2 & _);
    [apply u16_range..|].
  cbn [mbind option_bind]. apply IH; [done|apply i16_range|done].
Qed.

(** X14: when [x + (int16_t) width] exceeds 32767 the counter of the first
    loop of [ssd1306_draw_rect] wraps before reaching its bound: on a
    well-formed device, where no store can fault, the loop has no result
    however many rounds it is given, and neither has the call. *)
Theorem draw_rect_runaway dev x y w h :
  wf_dev dev → is_i16 x → 32767 < x + i16 w →
  (∀ fuel, rect_loop_h fuel x y w h dev x = None)
  ∧ ssd1306_draw_rect dev x y w h = None.
Proof.
  intros Hwf Hx Hb. split.
  - intros fuel. by apply rect_loop_h_runaway.
  - unfold ssd1306_draw_rect. by rewrite rect_loop_h_runaway.
Qed.

Lemma draw_rect_runaway_witness :
  let dev := Ssd1306 8 16 2 0x3C 0 false (Some (replicate 17 0)) 16 in
  (∀ fuel, rect_loop_h fuel 32767 0 1 1 dev 32767 = None)
  ∧ ssd1306_draw_rect dev 32767 0 1 1 = None.
Proof.
  intros dev. apply (draw_rect_runaway dev 32767 0 1 1);
    [apply wf_devb_spec; reflexivity | unfold is_i16; lia | vm_compute; reflexivity].
Defined.

(** ** Image blit at any offset, glyphs *)

Lemma u16_add_inj x i i' :
  0 <= i < 2 ^ 16 → 0 <= i' < 2 ^ 16 → u16 (x + i) = u16 (x + i') → i = i'.
Proof.
  unfold u16. change (2 ^ 16) with 65536. intros Hi Hi' He.
  Z.div_mod_to_equations. lia.
Qed.

Lemma for_each_ext {S A} (l : list A) (f g : A → S → option S) s :
  (∀ a s, a ∈ l → f a s = g a s) → for_each l f s = for_each l g s.
Proof.
  revert s. induction l as [|a l IH]; intros s H; [done|].
  cbn [for_each]. rewrite (H a s) by (by left).
  destruct (g a s) as [s'|]; [|done]. cbn [mbind option_bind].
  apply IH. intros a' s0 Ha'. apply H. by right.
Qed.

Lemma image_pixel_draw x y image i j d :
  img_width image * img_height image <= INT_MAX →
  img_width image * img_height image <= 8 * Z.of_nat (length (img_data image)) →
  0 <= i < img_width image → 0 <= j < img_height image →
  ∃ bit,
    image_bit image i j = Some bit
    ∧ image_pixel x y image j i d = draw_pixel d (u16 (x + i)) (u16 (y + j)) bit.
Proof.
  intros Hmax Hdata Hi Hj.
  assert (Hpos : 0 <= i + j * img_width image < img_width image * img_height image)
    by nia.
  assert (Hbyte : (Z.to_nat ((i + j * img_width image) / 8)
                   < length (img_data image))%nat).
  { assert ((i + j * img_width image) / 8 < Z.of_nat (length (img_data image)))
      by (apply Z.div_lt_upper_bound; lia).
    assert (0 <= (i + j * img_width image) / 8) by (apply Z.div_pos; lia).
    lia. }
  destruct (lookup_lt_is_Some_2 _ _ Hbyte) as [byte Hlk].
  assert (Hm : 0 <= i mod 8 < 8) by (apply Z.mod_pos_bound; lia).
  exists (Z.testbit byte (7 - i mod 8)). unfold image_bit, image_pixel.
  replace (INT_MAX <? i + j * img_width image) with false
    by (symmetry; apply Z.ltb_ge; lia).
  rewrite Hlk. cbn [mbind option_bind]. split; [done|].
  rewrite u8_small by (unfold is_u8; lia).
  by rewrite shift_mask_testbit by lia.
Qed.

(** X15: [ssd1306_draw_image] at any offset: for an image with 16-bit
    dimensions whose bytes are present and whose pixel count fits in [int],
    the call on a well-formed device succeeds; source pixel [(i, j)] goes to
    [((x + i) mod 2^16, (y + j) mod 2^16)] and, when that lies in the panel,
    the pixel there ends up equal to the source bit, while pixels no source
    pixel goes to are unchanged.  With [y = 2^16 - k], the value a caller
    passes as [-k], source row [j >= k] lands on panel row [j - k]. *)
Theorem draw_image_at_offset dev x y image :
  wf_dev dev →
  0 <= img_width image < 2 ^ 16 → 0 <= img_height image < 2 ^ 16 →
  img_width image * img_height image <= INT_MAX →
  img_width image * img_height image <= 8 * Z.of_nat (length (img_data image)) →
  ∃ dev',
    ssd1306_draw_image dev x y image = Some dev' ∧ wf_dev dev'
    ∧ (∀ i j, 0 <= i < img_width image → 0 <= j < img_height image →
         u16 (x + i) < width dev → u16 (y + j) < height dev →
         is_Some (image_bit image i j)
         ∧ get_pixel dev' (u16 (x + i)) (u16 (y + j)) = image_bit image i j)
    ∧ (∀ px py, 0 <= px < width dev → 0 <= py < height dev →
         (∀ i j, 0 <= i < img_width image → 0 <= j < img_height image →
            ¬ (u16 (x + i) = px ∧ u16 (y + j) = py)) →
         get_pixel dev' px py = get_pixel dev px py).
Proof.
  intros Hwf Hw Hh Hmax Hdata. unfold ssd1306_draw_image.
  destruct (grid_paint dev (λ j i d, image_pixel x y image j i d)
              (λ _ i, u16 (x + i)) (λ j _, u16 (y + j))
              (λ j i, default false (image_bit image i j))
              0 (img_height image) 0 (img_width image))
    as (dev' & Hrun & Hev & Hcells & Hrest); [done|lia|lia| | | |].
  - intros j i d [Hj Hi] _.
    destruct (image_pixel_draw x y image i j d Hmax Hdata) as (bit & Hbit & Hpx);
      [lia..|].
    by rewrite Hpx, Hbit.
  - intros j i _. split; apply u16_range.
  - intros j i j' i' [Hj Hi] [Hj' Hi'] Hx Hy. split.
    + apply (u16_add_inj y); [lia..|done].
    + apply (u16_add_inj x); [lia..|done].
  - exists dev'. split_and!; [done|by apply (evolved_wf dev)| |].
    + intros i j Hi Hj Hpx Hpy.
      destruct (image_pixel_draw x y image i j dev Hmax Hdata) as (bit & Hbit & _);
        [lia..|].
      split; [by exists bit|].
      rewrite (Hcells j i); [by rewrite Hbit|cbn beta; lia|done|..].
      * pose proof (u16_range (x + i)) as [? _]. lia.
      * pose proof (u16_range (y + j)) as [? _]. lia.
    + intros px py Hpx Hpy Hno. apply Hrest; [done..|].
      intros j i [Hj Hi] _. apply Hno; lia.
Qed.

Lemma draw_image_at_offset_witness :
  let dev := Ssd1306 8 16 2 0x3C 0 false (Some (replicate 17 0xFF)) 16 in
  let image := Ssd1306Image 8 3 3 [0xA5; 0x0F; 0x81] in
  ∃ dev',
    ssd1306_draw_image dev 0 65535 image = Some dev' ∧ wf_dev dev'
    ∧ (∀ i j, 0 <= i < img_width image → 0 <= j < img_height image →
         u16 (0 + i) < width dev → u16 (65535 + j) < height dev →
         is_Some (image_bit image i j)
         ∧ get_pixel dev' (u16 (0 + i)) (u16 (65535 + j)) = image_bit image i j)
    ∧ (∀ px py, 0 <= px < width dev → 0 <= py < height dev →
         (∀ i j, 0 <= i < img_width image → 0 <= j < img_height image →
            ¬ (u16 (0 + i) = px ∧ u16 (65535 + j) = py)) →
         get_pixel dev' px py = get_pixel dev px py).
Proof.
  intros dev image. apply (draw_image_at_offset dev 0 65535 image);
    [apply wf_devb_spec; reflexivity | simpl; lia | simpl; lia
    | unfold INT_MAX; simpl; lia | simpl; lia].
Defined.

Lemma shiftr_is_u8 line m : is_u8 line → 0 <= m → is_u8 (Z.shiftr line m).
Proof.
  unfold is_u8. intros Hl Hm. rewrite Z.shiftr_div_pow2 by done.
  assert (0 < 2 ^ m) by (apply Z.pow_pos_nonneg; lia). split.
  - apply Z.div_pos; lia.
  - apply Z.le_lt_trans with line; [|lia]. apply Z.div_le_upper_bound; nia.
Qed.

Lemma low_bit_testbit l : negb (Z.land l 0x01 =? 0) = Z.testbit l 0.
Proof.
  change 0x01 with (Z.ones 1). rewrite Z.land_ones by lia.
  change (2 ^ 1) with 2. rewrite <- Z.bit0_mod.
  by destruct (Z.testbit l 0).
Qed.

(** The inner loop of [draw_char] plots bit [j] of the column byte at row
    [j]. *)
Lemma draw_char_rows x y i line k : ∀ m dev,
  is_u8 line → 0 <= m →
  for_each (seqZ m (Z.of_nat k)) (draw_char_row x y i) (dev, Z.shiftr line m)
  = dev' ← for_each (seqZ m (Z.of_nat k))
             (λ j d, draw_pixel d (u16 (x + i)) (u16 (y + j)) (Z.testbit line j)) dev;
    Some (dev', Z.shiftr line (m + Z.of_nat k)).
Proof.
  induction k as [|k IH]; intros m dev Hl Hm.
  - cbn. by rewrite Z.add_0_r.
  - rewrite seqZ_cons by lia.
    replace (Z.pred (Z.of_nat (S k))) with (Z.of_nat k) by lia.
    cbn [for_each].
    change (draw_char_row x y i m (dev, Z.shiftr line m))
      with (d ← draw_pixel dev (u16 (x + i)) (u16 (y + m))
                  (negb (Z.land (Z.shiftr line m) 0x01 =? 0));
            Some (d, u8 (Z.shiftr (Z.shiftr line m) 1))).
    rewrite low_bit_testbit, Z.shiftr_spec, Z.add_0_l by lia.
    destruct (draw_pixel dev (u16 (x + i)) (u16 (y + m)) (Z.testbit line m))
      as [d|]; [|done].
    cbn [mbind option_bind].
    rewrite Z.shiftr_shiftr by lia.
    rewrite u8_small by (apply shiftr_is_u8; [done|lia]).
    replace (m + 1) with (Z.succ m) by lia. rewrite IH by (done || lia).
    by replace (Z.succ m + Z.of_nat k) with (m + Z.of_nat (S k)) by lia.
Qed.

(** X16: [draw_char] reproduces the glyph: for a font with 8-bit dimensions
    and byte data that holds the columns of character [chr], the call on a
    well-formed device succeeds; column [i] of the glyph is the byte at
    [(chr - first) * width + i], and its bit [j] (bit 0 on top) goes to
    [((x + i) mod 2^16, (y + j) mod 2^16)]: when that lies in the panel the
    pixel there ends up equal to the bit, so rows from the ninth on are
    cleared, and pixels no glyph cell goes to are unchanged. *)
Theorem draw_char_glyph dev x y chr font :
  wf_dev dev → Forall is_u8 (font_data font) →
  0 <= font_width font < 2 ^ 8 → 0 <= font_height font < 2 ^ 8 →
  font_first font <= chr →
  (chr - font_first font + 1) * font_width font
    <= Z.of_nat (length (font_data font)) →
  ∃ dev',
    draw_char dev x y chr font = Some dev' ∧ wf_dev dev'
    ∧ (∀ i j, 0 <= i < font_width font → 0 <= j < font_height font →
         u16 (x + i) < width dev → u16 (y + j) < height dev →
         ∃ line,
           font_data font
             !! Z.to_nat ((chr - font_first font) * font_width font + i)
             = Some line
           ∧ get_pixel dev' (u16 (x + i)) (u16 (y + j)) = Some (Z.testbit line j))
    ∧ (∀ px py, 0 <= px < width dev → 0 <= py < height dev →
         (∀ i j, 0 <= i < font_width font → 0 <= j < font_height font →
            ¬ (u16 (x + i) = px ∧ u16 (y + j) = py)) →
         get_pixel dev' px py = get_pixel dev px py).
Proof.
  intros Hwf Hdata Hw Hh Hfirst Hlen.
  assert (Hcol : ∀ i, 0 <= i < font_width font →
            ∃ line,
              font_data font
                !! Z.to_nat ((chr - font_first font) * font_width font + i)
                = Some line
              ∧ is_u8 line).
  { intros i Hi.
    assert (Hlt : (Z.to_nat ((chr - font_first font) * font_width font + i)
                   < length (font_data font))%nat) by nia.
    destruct (lookup_lt_is_Some_2 _ _ Hlt) as [line Hlk].
    exists line. split; [done|].
    by apply (Forall_lookup_1 _ _ _ _ Hdata Hlk). }
  set (gl := λ i, default 0
          (font_data font
             !! Z.to_nat ((chr - font_first font) * font_width font + i))).
  assert (Heq : draw_char dev x y chr font
                = for_each (seqZ 0 (font_width font))
                    (λ i d, for_each (seqZ 0 (font_height font))
                       (λ j d, draw_pixel d (u16 (x + i)) (u16 (y + j))
                                 (Z.testbit (gl i) j)) d) dev).
  { unfold draw_char. apply for_each_ext. intros i d Hi.
    apply elem_of_seqZ in Hi.
    destruct (Hcol i) as (line & Hlk & Hu8); [lia|].
    replace ((chr - font_first font) * font_width font + i <? 0) with false
      by (symmetry; apply Z.ltb_ge; nia).
    unfold gl. rewrite Hlk. cbn [mbind option_bind default].
    rewrite <- (Z.shiftr_0_r line) at 1.
    replace (font_height font) with (Z.of_nat (Z.to_nat (font_height font)))
      by lia.
    rewrite draw_char_rows by (done || lia).
    by destruct (for_each _ _ d). }
  rewrite Heq.
  destruct (grid_paint dev
              (λ i j d, draw_pixel d (u16 (x + i)) (u16 (y + j))
                          (Z.testbit (gl i) j))
              (λ i _, u16 (x + i)) (λ _ j, u16 (y + j))
              (λ i j, Z.testbit (gl i) j)
              0 (font_width font) 0 (font_height font))
    as (dev' & Hrun & Hev & Hcells & Hrest); [done|lia|lia|done| | |].
  - intros i j _. split; apply u16_range.
  - intros i j i' j' [Hi Hj] [Hi' Hj'] Hx Hy.
    change (2 ^ 8) with 256 in *. split.
    + apply (u16_add_inj x); [change (2 ^ 16) with 65536; lia..|done].
    + apply (u16_add_inj y); [change (2 ^ 16) with 65536; lia..|done].
  - exists dev'. split_and!; [done|by apply (evolved_wf dev)| |].
    + intros i j Hi Hj Hpx Hpy.
      destruct (Hcol i Hi) as (line & Hlk & _). exists line. split; [done|].
      rewrite (Hcells i j); [unfold gl; by rewrite Hlk|cbn beta; lia|done|..].
      * pose proof (u16_range (x + i)) as [? _]. lia.
      * pose proof (u16_range (y + j)) as [? _]. lia.
    + intros px py Hpx Hpy Hno. apply Hrest; [done..|].
      intros i j [Hi Hj] _. apply Hno; lia.
Qed.

Lemma draw_char_glyph_witness :
  let dev := Ssd1306 8 16 2 0x3C 0 false (Some (replicate 17 0)) 16 in
  let font := Ssd1306Font [0x7E; 0x11; 0x11; 0x7E; 0x7F; 0x49; 0x49; 0x36] 4 8 65 2 in
  ∃ dev',
    draw_char dev 2 4 66 font = Some dev' ∧ wf_dev dev'
    ∧ (∀ i j, 0 <= i < font_width font → 0 <= j < font_height font →
         u16 (2 + i) < width dev → u16 (4 + j) < height dev →
         ∃ line,
           font_data font
             !! Z.to_nat ((66 - font_first font) * font_width font + i)
             = Some line
           ∧ get_pixel dev' (u16 (2 + i)) (u16 (4 + j)) = Some (Z.testbit line j))
    ∧ (∀ px py, 0 <= px < width dev → 0 <= py < height dev →
         (∀ i j, 0 <= i < font_width font → 0 <= j < font_height font →
            ¬ (u16 (2 + i) = px ∧ u16 (4 + j) = py)) →
         get_pixel dev' px py = get_pixel dev px py).
Proof.
  intros dev font. apply (draw_char_glyph dev 2 4 66 font);
    [apply wf_devb_spec; reflexivity
    | repeat constructor; unfold is_u8; simpl; lia
    | simpl; lia | simpl; lia | simpl; lia | simpl; lia].
Defined.

(** ** Strings *)

Lemma for_each_skip {S A} (l : list A) (f : A → S → option S) s :
  (∀ a s, a ∈ l → f a s = Some s) → for_each l f s = Some s.
Proof.
  induction l as [|a l IH]; intros H; [done|].
  cbn [for_each]. rewrite (H a s) by (by left). cbn [mbind option_bind].
  apply IH. intros a' s' Ha'. apply H. by right.
Qed.

Lemma draw_str_loop_cons c c' rest font last dev x y :
  draw_str_loop (c :: c' :: rest) font last dev x y
  = dev' ← (if (u8 c <? font_first font) || (last <=? u8 c) then Some dev
            else draw_char dev (u16 x) (u16 y) (u8 c) font);
    if INT_MAX <? x + font_width font then None
    else if c' =? 0 then Some dev'
         else draw_str_loop (c' :: rest) font last dev' (x + font_width font) y.
Proof. reflexivity. Qed.

(** The loop of [ssd1306_draw_str] on a string is the run over its
    characters, each at its cursor position. *)
Lemma draw_str_loop_chars font last y : ∀ s c dev x junk,
  Forall (λ b, b ≠ 0) s → 0 <= font_width font →
  x + (1 + Z.of_nat (length s)) * font_width font <= INT_MAX →
  draw_str_loop (c :: s ++ 0 :: junk) font last dev x y
  = for_each (imap (λ k b, (x + Z.of_nat k * font_width font, b)) (c :: s))
      (λ '(xk, b) d,
         if (u8 b <? font_first font) || (last <=? u8 b) then Some d
         else draw_char d (u16 xk) (u16 y) (u8 b) font) dev.
Proof.
  induction s as [|b s IH]; intros c dev x junk Hnz Hw Hx.
  - cbn [app draw_str_loop imap for_each length] in *.
    replace (x + Z.of_nat 0 * font_width font) with x by lia.
    destruct (if (u8 c <? font_first font) || (last <=? u8 c) then Some dev
              else draw_char dev (u16 x) (u16 y) (u8 c) font) as [d|]; [|done].
    cbn [mbind option_bind].
    by replace (INT_MAX <? x + font_width font) with false
      by (symmetry; apply Z.ltb_ge; lia).
  - apply Forall_cons in Hnz as [Hb Hnz].
    change (c :: (b :: s) ++ 0 :: junk) with (c :: b :: s ++ 0 :: junk).
    rewrite draw_str_loop_cons, imap_cons. cbn [for_each].
    replace (x + Z.of_nat 0 * font_width font) with x by lia.
    destruct (if (u8 c <? font_first font) || (last <=? u8 c) then Some dev
              else draw_char dev (u16 x) (u16 y) (u8 c) font) as [d|]; [|done].
    cbn [mbind option_bind].
    assert (Hlen : Z.of_nat (length (b :: s)) = 1 + Z.of_nat (length s))
      by (cbn [length]; lia).
    rewrite Hlen in Hx.
    replace (INT_MAX <? x + font_width font) with false
      by (symmetry; apply Z.ltb_ge; nia).
    replace (b =? 0) with false by (symmetry; by apply Z.eqb_neq).
    rewrite IH by (done || lia). f_equal.
    apply imap_ext. intros k b' _. cbn. f_equal. lia.
Qed.

Lemma draw_str_chars_run dev x y str junk font :
  str ≠ [] → Forall (λ b, is_u8 b ∧ b ≠ 0) str → 0 <= font_width font →
  x + Z.of_nat (length str) * font_width font <= INT_MAX →
  ssd1306_draw_str dev x y (str ++ 0 :: junk) font
  = for_each (imap (λ k b, (x + Z.of_nat k * font_width font, b)) str)
      (λ '(xk, b) d,
         if (b <? font_first font)
            || (u8 (font_first font + font_count font) <=? b) then Some d
         else draw_char d (u16 xk) (u16 y) b font) dev.
Proof.
  intros Hne Hstr Hw Hx. destruct str as [|c s]; [done|].
  unfold ssd1306_draw_str. change ((c :: s) ++ 0 :: junk) with (c :: s ++ 0 :: junk).
  rewrite draw_str_loop_chars.
  - apply for_each_ext. intros [xk b] d Hin.
    apply elem_of_lookup_imap in Hin as (k & b' & Heq & Hlk).
    injection Heq as -> ->.
    pose proof (Forall_lookup_1 _ _ _ _ Hstr Hlk) as [Hu8 _].
    by rewrite (u8_small b') by done.
  - apply Forall_cons in Hstr as [_ Hs].
    eapply Forall_impl; [exact Hs|]. by intros b [_ Hb].
  - done.
  - cbn [length] in Hx. lia.
Qed.

(** X17: [ssd1306_draw_str] does not test its first byte: on a character
    array of one byte, which is what the empty string is, the loop body runs
    once and the loop condition then reads the byte after the array, so the
    call has no defined result, whatever the device, the font and the
    position. *)
Theorem draw_str_one_byte_array dev x y c font :
  ssd1306_draw_str dev x y [c] font = None.
Proof.
  unfold ssd1306_draw_str. cbn [draw_str_loop].
  destruct (if (u8 c <? font_first font)
               || (u8 (font_first font + font_count font) <=? u8 c)
            then Some dev
            else draw_char dev (u16 x) (u16 y) (u8 c) font) as [d|]; [|done].
  cbn [mbind option_bind].
  by destruct (INT_MAX <? x + font_width font).
Qed.

(** X18: an empty string in a larger buffer: when the first byte is NUL, the
    font does not start at code 0 and the byte after the NUL is not NUL,
    [ssd1306_draw_str] steps over the terminator, advances the cursor by one
    character width and goes on with the bytes behind it as if the string
    started there. *)
Theorem draw_str_steps_over_leading_nul dev x y c rest font :
  0 < font_first font → c ≠ 0 → x + font_width font <= INT_MAX →
  ssd1306_draw_str dev x y (0 :: c :: rest) font
  = ssd1306_draw_str dev (x + font_width font) y (c :: rest) font.
Proof.
  intros Hfirst Hc Hx. unfold ssd1306_draw_str.
  rewrite draw_str_loop_cons. change (u8 0) with 0.
  replace (0 <? font_first font) with true by (symmetry; apply Z.ltb_lt; lia).
  cbn [orb mbind option_bind].
  replace (INT_MAX <? x + font_width font) with false
    by (symmetry; apply Z.ltb_ge; lia).
  by replace (c =? 0) with false by (symmetry; by apply Z.eqb_neq).
Qed.

Lemma draw_str_steps_over_leading_nul_witness :
  let dev := Ssd1306 8 16 2 0x3C 0 false (Some (replicate 17 0)) 16 in
  let font := Ssd1306Font [0x7E; 0x11; 0x11; 0x7E; 0x7F; 0x49; 0x49; 0x36] 4 8 65 2 in
  ssd1306_draw_str dev 0 0 [0; 66; 0] font
  = ssd1306_draw_str dev (0 + font_width font) 0 [66; 0] font.
Proof.
  intros dev font. apply (draw_str_steps_over_leading_nul dev 0 0 66 [0] font);
    [simpl; lia | discriminate | unfold INT_MAX; simpl; lia].
Defined.

(** X19: what [ssd1306_draw_str] draws: for a non-empty string of non-NUL
    bytes followed by its terminator, with a cursor that stays within [int],
    the call is the run over the characters in order, character [k] being
    drawn by [draw_char] at [x + k * width] (as a 16-bit value) when its code
    is in [first, (first + count) mod 256) and skipped otherwise; the bytes
    behind the terminator are not read. *)
Theorem draw_str_chars dev x y str junk font :
  str ≠ [] → Forall (λ b, is_u8 b ∧ b ≠ 0) str → 0 <= font_width font →
  x + Z.of_nat (length str) * font_width font <= INT_MAX →
  ssd1306_draw_str dev x y (str ++ 0 :: junk) font
  = for_each (imap (λ k b, (x + Z.of_nat k * font_width font, b)) str)
      (λ '(xk, b) d,
         if (b <? font_first font)
            || (u8 (font_first font + font_count font) <=? b) then Some d
         else draw_char d (u16 xk) (u16 y) b font) dev.
Proof. apply draw_str_chars_run. Qed.

Lemma draw_str_chars_witness :
  let dev := Ssd1306 8 16 2 0x3C 0 false (Some (replicate 17 0)) 16 in
  let font := Ssd1306Font [0x7E; 0x11; 0x11; 0x7E; 0x7F; 0x49; 0x49; 0x36] 4 8 65 2 in
  ssd1306_draw_str dev 0 4 ([66; 32; 65] ++ 0 :: [7]) font
  = for_each (imap (λ k b, (0 + Z.of_nat k * font_width font, b)) [66; 32; 65])
      (λ '(xk, b) d,
         if (b <? font_first font)
            || (u8 (font_first font + font_count font) <=? b) then Some d
         else draw_char d (u16 xk) (u16 4) b font) dev.
Proof.
  intros dev font. apply (draw_str_chars dev 0 4 [66; 32; 65] [7] font);
    [discriminate
    | repeat constructor; unfold is_u8; simpl; lia
    | simpl; lia
    | unfold INT_MAX; simpl; lia].
Defined.

(** X20: the end of the font range is computed in 8 bits: for a font whose
    [first + count] reaches 256 or more, with both fields bytes, the wrapped
    bound lies below [first], every character counts as outside the font, and
    [ssd1306_draw_str] on a proper string leaves the device as it was. *)
Theorem draw_str_range_wrap dev x y str junk font :
  is_u8 (font_first font) → is_u8 (font_count font) →
  2 ^ 8 <= font_first font + font_count font →
  str ≠ [] → Forall (λ b, is_u8 b ∧ b ≠ 0) str → 0 <= font_width font →
  x + Z.of_nat (length str) * font_width font <= INT_MAX →
  ssd1306_draw_str dev x y (str ++ 0 :: junk) font = Some dev.
Proof.
  intros Hf Hc Hwrap Hne Hstr Hw Hx.
  rewrite draw_str_chars_run by done.
  apply for_each_skip. intros [xk b] d _.
  assert (Hlast : u8 (font_first font + font_count font)
                  = font_first font + font_count font - 2 ^ 8).
  { unfold u8, is_u8 in *. symmetry.
    apply (Z.mod_unique _ _ 1); lia. }
  rewrite Hlast. unfold is_u8 in *.
  destruct (Z.ltb_spec b (font_first font)) as [|Hge]; [done|].
  cbn [orb]. by replace (font_first font + font_count font - 2 ^ 8 <=? b)
    with true by (symmetry; apply Z.leb_le; lia).
Qed.

Lemma draw_str_range_wrap_witness :
  let dev := Ssd1306 8 16 2 0x3C 0 false (Some (replicate 17 0)) 16 in
  let font := Ssd1306Font (replicate 896 0xFF) 4 8 32 224 in
  ssd1306_draw_str dev 0 0 ([72; 105] ++ 0 :: []) font = Some dev.
Proof.
  intros dev font. apply (draw_str_range_wrap dev 0 0 [72; 105] [] font);
    [unfold is_u8; simpl; lia | unfold is_u8; simpl; lia | simpl; lia
    | discriminate
    | repeat constructor; unfold is_u8; simpl; lia
    | simpl; lia
    | unfold INT_MAX; simpl; lia].
Defined.
